(** * AlbumStore_GO: album ingestion and retrieval

    A shallow embedding of the two programs of the repository:

    - the remote variant ([src/main.go]): images go to an S3 bucket, the
      metadata to discrete columns of the [albums] table;
    - the local variant ([src/unnamed/part_000]): images go to [./images],
      the metadata to one JSON column.

    Handlers are state-passing functions over a [World] that holds the
    table, the blob store and a log of the database calls.  What the
    handlers cannot decide themselves (whether a system call fails, the
    UUID that is drawn, the SQL mode of the server) is read from an [Env].
    The answer of a handler is the status and the value it hands to
    [c.JSON]. *)

From Stdlib Require Import ZArith NArith String Ascii List Bool Lia.
From stdpp Require Import base option gmap strings.

Set Warnings "-register-all".

Local Open Scope string_scope.
Local Open Scope Z_scope.
Local Open Scope list_scope.

(** ** Results in the style of Go's [(value, error)] pairs *)

Inductive result (A : Type) : Type :=
| Ok (a : A)
| Err (e : string).
Arguments Ok {A} a.
Arguments Err {A} e.

(** ** [net/http] status codes used by the handlers *)

Definition StatusOK : Z := 200.
Definition StatusBadRequest : Z := 400.
Definition StatusNotFound : Z := 404.
Definition StatusInternalServerError : Z := 500.

(** ** Bytes of a Go string *)

Definition code (c : ascii) : Z := Z.of_N (N_of_ascii c).
Definition chr (n : Z) : ascii := ascii_of_N (Z.to_N n).

Definition is_digit (c : ascii) : bool := (48 <=? code c) && (code c <=? 57).

(** ** [strconv.Atoi], for a 64-bit [int]

    An optional sign, then one or more decimal digits (base 10 is passed
    explicitly, so neither prefixes nor underscores are accepted), then the
    range check of [ParseInt].  The fast path of [Atoi] for short strings
    computes the same value and is not modelled apart. *)

Definition ErrSyntax : string := "invalid syntax".
Definition ErrRange : string := "value out of range".

Fixpoint parse_digits (acc : Z) (s : string) : option Z :=
  match s with
  | EmptyString => Some acc
  | String c r =>
      if is_digit c then parse_digits (acc * 10 + (code c - 48)) r else None
  end.

Definition Atoi (s : string) : result Z :=
  match s with
  | EmptyString => Err ErrSyntax
  | String c r =>
      let neg := Ascii.eqb c "-" in
      let body := if Ascii.eqb c "-" || Ascii.eqb c "+" then r else s in
      match body with
      | EmptyString => Err ErrSyntax
      | _ =>
          match parse_digits 0 body with
          | None => Err ErrSyntax
          | Some un =>
              if neg
              then if un <=? 2 ^ 63 then Ok (- un) else Err ErrRange
              else if un <? 2 ^ 63 then Ok un else Err ErrRange
          end
      end
  end.

(** An identifier is numeric when it is an optionally signed, non-empty run
    of decimal digits. *)

Fixpoint all_digits (s : string) : bool :=
  match s with
  | EmptyString => true
  | String c r => is_digit c && all_digits r
  end.

Definition is_numeric (s : string) : bool :=
  match s with
  | EmptyString => false
  | String c r =>
      let body := if Ascii.eqb c "-" || Ascii.eqb c "+" then r else s in
      match body with
      | EmptyString => false
      | _ => all_digits body
      end
  end.

(** ** The multipart request as gin hands it to a handler *)

Record FileHeader := {
  Filename : string;
  ContentType : string;      (* header.Header.Get("Content-Type") *)
  Content : string           (* the bytes the opened file yields *)
}.

Record Request := {
  form_values : list (string * string);   (* text parts, in order *)
  form_files : list (string * FileHeader) (* file parts, in order *)
}.

Fixpoint assoc {A} (k : string) (l : list (string * A)) : option A :=
  match l with
  | nil => None
  | (k', v) :: r => if String.eqb k k' then Some v else assoc k r
  end.

(** [c.PostForm(key)]: the first value of the key, the empty string when
    the key is absent. *)
Definition PostForm (req : Request) (key : string) : string :=
  match assoc key (form_values req) with
  | Some v => v
  | None => ""
  end.

(** [c.Request.FormFile(key)] and [c.FormFile(key)]: the first file of the
    key, [http.ErrMissingFile] otherwise. *)
Definition FormFile (req : Request) (key : string) : result FileHeader :=
  match assoc key (form_files req) with
  | Some h => Ok h
  | None => Err "http: no such file"
  end.

(** ** [path/filepath] on a Unix host *)

Definition is_sep (c : ascii) : bool := Ascii.eqb c "/".

(** [filepath.Ext]: the suffix that starts at the last dot of the last
    path element, empty when that element has no dot.  The Go loop scans
    from the end; [ext_from] scans from the start and restarts at every
    separator and every dot, which selects the same suffix. *)
Fixpoint ext_from (cur : string) (s : string) : string :=
  match s with
  | EmptyString => cur
  | String c r =>
      if is_sep c then ext_from "" r
      else if Ascii.eqb c "." then ext_from s r
      else ext_from cur r
  end.

Definition filepath_Ext (path : string) : string := ext_from "" path.

(** ** The MySQL table engine, as far as the schema in the source fixes it

    [VARCHAR(n)] holds at most [n] characters.  What the server does with a
    longer value depends on its SQL mode: in strict mode the statement
    fails, otherwise the value is cut to the column width.  Values are
    stored as the byte strings the program sends, and the width is counted
    in bytes: the count of characters for ASCII values and for a
    single-byte character set, an upper bound of it otherwise. *)

Definition varchar (strict : bool) (n : nat) (col : string) (v : string)
  : result string :=
  if (String.length v <=? n)%nat then Ok v
  else if strict then Err ("Data too long for column '" +:+ col +:+ "'")
  else Ok (substring 0 n v).

(** [INT AUTO_INCREMENT PRIMARY KEY]: 32-bit signed, unique. *)
Definition INT_MAX : Z := 2147483647.

(** * The remote variant ([src/main.go]) *)

Module Remote.

(** [type Album struct] *)
Record Album := {
  ID : Z;
  ImageURL : string;
  Artist : string;
  Title : string;
  Year : string;
  ImageSize : Z
}.

(** A row of
    [albums (id INT AUTO_INCREMENT PRIMARY KEY, image_url VARCHAR(255),
             artist VARCHAR(255), title VARCHAR(255), year VARCHAR(10))],
    without its key. *)
Record Row := {
  image_url : string;
  artist : string;
  title : string;
  year : string
}.

(** An object of the bucket, as [PutObjectInput] describes it. *)
Record Object := {
  Body : string;
  ObjContentType : string;
  ACL : string
}.

(** The calls made on [db]. *)
Inductive DbCall :=
| Exec (query : string) (args : list string)
| QueryRow (query : string) (arg : Z).

Record World := {
  albums : gmap Z Row;                       (* the table, by primary key *)
  auto_increment : Z;                        (* the next key *)
  objects : gmap (string * string) Object;   (* (bucket, key) to object *)
  db_log : list DbCall                       (* oldest call first *)
}.

(** What a request finds around it: the package variable [bucket], the SQL
    mode of the server, the UUID [uuid.New] draws, and for each call that
    can fail the error it returns, if any. *)
Record Env := {
  bucket : string;
  sql_strict : bool;
  uuid_New : string;
  TempFile_err : option string;
  Copy_err : option string;
  PutObject_err : option string;
  Exec_err : option string;
  QueryRow_err : option string
}.

(** The bodies passed to [c.JSON]. *)
Inductive JSONBody :=
| H_error (msg : string)                    (* gin.H{"error": msg} *)
| H_msg (msg : string)                      (* gin.H{"msg": msg} *)
| H_created (albumID : Z) (imageSize : Z)   (* gin.H{"albumID", "imageSize"} *)
| AlbumBody (a : Album).

Record Response := { Status : Z; body : JSONBody }.

Definition JSON (status : Z) (b : JSONBody) : Response :=
  {| Status := status; body := b |}.

Definition log_call (c : DbCall) (w : World) : World :=
  {| albums := albums w; auto_increment := auto_increment w;
     objects := objects w; db_log := db_log w ++ [c] |}.

Definition insert_sql : string :=
  "INSERT INTO albums (image_url, artist, title, year) VALUES (?, ?, ?, ?)".
Definition select_sql : string :=
  "SELECT id, image_url, artist, title, year FROM albums WHERE id = ?".

(** The row the engine makes of the four parameters of the INSERT. *)
Definition make_row (strict : bool) (imageURL artist title year : string)
  : result Row :=
  match varchar strict 255 "image_url" imageURL with
  | Err e => Err e
  | Ok u =>
    match varchar strict 255 "artist" artist with
    | Err e => Err e
    | Ok a =>
      match varchar strict 255 "title" title with
      | Err e => Err e
      | Ok t =>
        match varchar strict 10 "year" year with
        | Err e => Err e
        | Ok y => Ok {| image_url := u; artist := a; title := t; year := y |}
        end
      end
    end
  end.

(** [db.Exec(insert_sql, imageURL, artist, title, year)] followed by
    [res.LastInsertId()]. *)
Definition db_insert (env : Env) (imageURL artist title year : string)
    (w : World) : result Z * World :=
  let w := log_call (Exec insert_sql [imageURL; artist; title; year]) w in
  match Exec_err env with
  | Some e => (Err e, w)
  | None =>
    match make_row (sql_strict env) imageURL artist title year with
    | Err e => (Err e, w)
    | Ok row =>
      let id := auto_increment w in
      if (INT_MAX <? id) || bool_decide (is_Some (albums w !! id))
      then (Err "Duplicate entry for key 'PRIMARY'", w)
      else (Ok id,
            {| albums := <[id := row]> (albums w);
               auto_increment := id + 1;
               objects := objects w;
               db_log := db_log w |})
    end
  end.

(** The outcome of [db.QueryRow(...).Scan(...)]. *)
Inductive Scanned :=
| ScanRow (id : Z) (r : Row)
| ErrNoRows
| ScanErr (e : string).

Definition db_select (env : Env) (id : Z) (w : World) : Scanned * World :=
  let w := log_call (QueryRow select_sql id) w in
  match QueryRow_err env with
  | Some e => (ScanErr e, w)
  | None =>
    match albums w !! id with
    | Some r => (ScanRow id r, w)
    | None => (ErrNoRows, w)
    end
  end.

(** [uploadToS3]: the key is drawn, the upload is copied to a temporary
    file, the temporary file is put into the bucket.  The temporary file is
    removed on return and leaves no trace in the world. *)
Definition uploadToS3 (env : Env) (header : FileHeader) (w : World)
  : result (string * Z) * World :=
  let key := "images/" +:+ uuid_New env +:+ filepath_Ext (Filename header) in
  match TempFile_err env with
  | Some e => (Err e, w)
  | None =>
    match Copy_err env with
    | Some e => (Err e, w)
    | None =>
      let fileSize := Z.of_nat (String.length (Content header)) in
      match PutObject_err env with
      | Some e => (Err e, w)
      | None =>
        let w' :=
          {| albums := albums w; auto_increment := auto_increment w;
             objects :=
               <[(bucket env, key) :=
                   {| Body := Content header;
                      ObjContentType := ContentType header;
                      ACL := "public-read" |}]> (objects w);
             db_log := db_log w |} in
        let imageURL :=
          "https://" +:+ bucket env +:+ ".s3.amazonaws.com/" +:+ key in
        (Ok (imageURL, fileSize), w')
      end
    end
  end.

(** [newAlbum], the handler of [POST /albums]. *)
Definition newAlbum (env : Env) (req : Request) (w : World)
  : Response * World :=
  match FormFile req "image" with
  | Err _ => (JSON StatusBadRequest (H_error "Invalid image file"), w)
  | Ok header =>
    let artist := PostForm req "profile[artist]" in
    let title := PostForm req "profile[title]" in
    let year := PostForm req "profile[year]" in
    match uploadToS3 env header w with
    | (Err _, w1) =>
        (JSON StatusInternalServerError
              (H_error "Failed to upload image to S3"), w1)
    | (Ok (imageURL, imageSize), w1) =>
      match db_insert env imageURL artist title year w1 with
      | (Err e, w2) => (JSON StatusInternalServerError (H_error e), w2)
      | (Ok id, w2) => (JSON StatusOK (H_created id imageSize), w2)
      end
    end
  end.

(** [var album Album] *)
Definition zero_Album : Album :=
  {| ID := 0; ImageURL := ""; Artist := ""; Title := ""; Year := "";
     ImageSize := 0 |}.

(** [row.Scan(&album.ID, &album.ImageURL, &album.Artist, &album.Title,
    &album.Year)] *)
Definition scan_into (album : Album) (id : Z) (r : Row) : Album :=
  {| ID := id; ImageURL := image_url r; Artist := artist r;
     Title := title r; Year := year r; ImageSize := ImageSize album |}.

(** [getAlbumByKey], the handler of [GET /albums/:albumID]. *)
Definition getAlbumByKey (env : Env) (idStr : string) (w : World)
  : Response * World :=
  match Atoi idStr with
  | Err _ => (JSON StatusBadRequest (H_error "Invalid album ID"), w)
  | Ok id =>
    let album := zero_Album in
    match db_select env id w with
    | (ErrNoRows, w1) => (JSON StatusNotFound (H_msg "Key not found"), w1)
    | (ScanErr e, w1) => (JSON StatusInternalServerError (H_error e), w1)
    | (ScanRow i r, w1) => (JSON StatusOK (AlbumBody (scan_into album i r)), w1)
    end
  end.

(** *** Startup

    What [main] finds when the process starts: the environment variables
    ([os.Getenv] gives the empty string for a variable that is not set)
    and, for each step that can fail, the error it returns, if any. *)
Record Boot := {
  Getenv : string -> string;
  NewSession_err : option string;
  sql_Open_err : option string;
  Ping_err : option string;
  CreateTable_err : option string
}.

(** How [main] ends: [log.Fatal] stops the process with a message, or
    [r.Run] serves on an address, the package variable [bucket] being
    set. *)
Inductive Startup :=
| Fatal (msg : string)
| Run (addr : string) (bucket_name : string).

Definition create_table_sql : string := "
	CREATE TABLE IF NOT EXISTS albums (
		id INT AUTO_INCREMENT PRIMARY KEY,
		image_url VARCHAR(255),
		artist VARCHAR(255),
		title VARCHAR(255),
		year VARCHAR(10)
	) ENGINE=InnoDB;
	".

(** [main] *)
Definition main (b : Boot) (w : World) : Startup * World :=
  let dsn := Getenv b "DB_DSN" in
  if String.eqb dsn "" then (Fatal "DB_DSN environment variable not set", w)
  else
    let bucket_name := Getenv b "S3_BUCKET" in
    if String.eqb bucket_name ""
    then (Fatal "S3_BUCKET environment variable not set", w)
    else
      match NewSession_err b with
      | Some e => (Fatal ("Failed to initialize S3 session: " +:+ e), w)
      | None =>
        match sql_Open_err b with
        | Some e => (Fatal ("Failed to open DB: " +:+ e), w)
        | None =>
          match Ping_err b with
          | Some e => (Fatal ("Failed to connect to DB: " +:+ e), w)
          | None =>
            let w := log_call (Exec create_table_sql []) w in
            match CreateTable_err b with
            | Some e => (Fatal ("Failed to create table: " +:+ e), w)
            | None =>
              let port := Getenv b "PORT" in
              let port := if String.eqb port "" then "8080" else port in
              (Run (":" +:+ port) bucket_name, w)
            end
          end
        end
      end.

End Remote.

(** * Go's [unicode/utf8] and [encoding/json], as the local variant uses
    them

    The local variant keeps the metadata in one column holding the output
    of [json.Marshal] and reads it back with [json.Unmarshal].  Both are
    modelled on the bytes of the strings. *)

Module Utf8.

Definition RuneError : Z := 0xFFFD.
Definition MaxRune : Z := 0x10FFFF.
Definition RuneSelf : Z := 0x80.

Definition cont (b : Z) : Z := Z.land b 0x3F.   (* b & maskx *)

(** [utf8.DecodeRune]: the rune at the head of [s] and its width in bytes;
    [(RuneError, 1)] at a byte that starts no valid encoding. *)
Definition DecodeRune (s : string) : Z * nat :=
  match s with
  | EmptyString => (RuneError, 0%nat)
  | String c0 r0 =>
    let p0 := code c0 in
    if p0 <? RuneSelf then (p0, 1%nat)
    else if (p0 <? 0xC2) || (0xF4 <? p0) then (RuneError, 1%nat)
    else
      let lo := if p0 =? 0xE0 then 0xA0 else if p0 =? 0xF0 then 0x90 else 0x80 in
      let hi := if p0 =? 0xED then 0x9F else if p0 =? 0xF4 then 0x8F else 0xBF in
      match r0 with
      | EmptyString => (RuneError, 1%nat)
      | String c1 r1 =>
        let b1 := code c1 in
        if (b1 <? lo) || (hi <? b1) then (RuneError, 1%nat)
        else if p0 <? 0xE0 then
          (Z.lor (Z.shiftl (Z.land p0 0x1F) 6) (cont b1), 2%nat)
        else
          match r1 with
          | EmptyString => (RuneError, 1%nat)
          | String c2 r2 =>
            let b2 := code c2 in
            if (b2 <? 0x80) || (0xBF <? b2) then (RuneError, 1%nat)
            else if p0 <? 0xF0 then
              (Z.lor (Z.lor (Z.shiftl (Z.land p0 0x0F) 12)
                            (Z.shiftl (cont b1) 6)) (cont b2), 3%nat)
            else
              match r2 with
              | EmptyString => (RuneError, 1%nat)
              | String c3 _ =>
                let b3 := code c3 in
                if (b3 <? 0x80) || (0xBF <? b3) then (RuneError, 1%nat)
                else
                  (Z.lor (Z.lor (Z.lor (Z.shiftl (Z.land p0 0x07) 18)
                                       (Z.shiftl (cont b1) 12))
                                (Z.shiftl (cont b2) 6)) (cont b3), 4%nat)
              end
          end
      end
  end.

Definition byte_of (n : Z) : ascii := chr (n mod 256).

Definition encode3 (r : Z) : string :=
  String (byte_of (Z.lor 0xE0 (Z.shiftr r 12)))
    (String (byte_of (Z.lor 0x80 (cont (Z.shiftr r 6))))
       (String (byte_of (Z.lor 0x80 (cont r))) "")).

(** [utf8.EncodeRune] (for a rune that is not negative). *)
Definition EncodeRune (r : Z) : string :=
  if r <=? 0x7F then String (byte_of r) ""
  else if r <=? 0x7FF then
    String (byte_of (Z.lor 0xC0 (Z.shiftr r 6)))
      (String (byte_of (Z.lor 0x80 (cont r))) "")
  else if (MaxRune <? r) || ((0xD800 <=? r) && (r <=? 0xDFFF)) then
    encode3 RuneError
  else if r <=? 0xFFFF then encode3 r
  else
    String (byte_of (Z.lor 0xF0 (Z.shiftr r 18)))
      (String (byte_of (Z.lor 0x80 (cont (Z.shiftr r 12))))
         (String (byte_of (Z.lor 0x80 (cont (Z.shiftr r 6))))
            (String (byte_of (Z.lor 0x80 (cont r))) ""))).

(** The string with every byte that starts no valid encoding replaced by
    the encoding of U+FFFD; what a decoder that coerces to valid UTF-8
    makes of it. *)
Fixpoint coerce (s : string) : string :=
  match s with
  | EmptyString => ""
  | String c0 r0 =>
    match DecodeRune s, r0 with
    | (_, 2%nat), String c1 r1 => String c0 (String c1 (coerce r1))
    | (_, 3%nat), String c1 (String c2 r2) =>
        String c0 (String c1 (String c2 (coerce r2)))
    | (_, 4%nat), String c1 (String c2 (String c3 r3)) =>
        String c0 (String c1 (String c2 (String c3 (coerce r3))))
    | (r, _), _ =>
        if r =? RuneError then EncodeRune RuneError +:+ coerce r0
        else String c0 (coerce r0)
    end
  end.

(** [utf8.ValidString] *)
Fixpoint ValidString (s : string) : bool :=
  match s with
  | EmptyString => true
  | String c0 r0 =>
    match DecodeRune s, r0 with
    | (_, 2%nat), String c1 r1 => ValidString r1
    | (_, 3%nat), String c1 (String c2 r2) => ValidString r2
    | (_, 4%nat), String c1 (String c2 (String c3 r3)) => ValidString r3
    | (r, _), _ => negb (r =? RuneError) && ValidString r0
    end
  end.

End Utf8.

Module Json.

Import Utf8.

(** [type AlbumMetadata struct], with its tags
    [json:"artist"], [json:"title"], [json:"year"]. *)
Record AlbumMetadata := {
  Artist : string;
  Title : string;
  Year : string
}.

(** *** Encoding *)

Definition hex (n : Z) : ascii :=
  if n <? 10 then chr (48 + n) else chr (87 + n).   (* "0123456789abcdef"[n] *)

(** [htmlSafeSet]: the ASCII bytes that are written as they are. *)
Definition htmlSafe (b : Z) : bool :=
  (0x20 <=? b) && (b <? 0x80)
  && negb ((b =? 34) || (b =? 38) || (b =? 60) || (b =? 62) || (b =? 92)).

(** The escape of an ASCII byte outside [htmlSafeSet], as Go 1.22 writes
    it; earlier releases write backspace and form feed as [u0008] and
    [u000c] escapes, which the decoder reads alike. *)
Definition escape (c : ascii) : string :=
  let b := code c in
  if (b =? 92) || (b =? 34) then String "\" (String c "")
  else if b =? 8 then "\b"
  else if b =? 12 then "\f"
  else if b =? 10 then "\n"
  else if b =? 13 then "\r"
  else if b =? 9 then "\t"
  else "\u00" +:+ String (hex (Z.shiftr b 4)) (String (hex (Z.land b 0xF)) "").

(** The loop of [appendString] with [escapeHTML] set: what goes between
    the quotes. *)
Fixpoint encode_chars (s : string) : string :=
  match s with
  | EmptyString => ""
  | String c0 r0 =>
    let b := code c0 in
    if b <? RuneSelf then
      (if htmlSafe b then String c0 "" else escape c0) +:+ encode_chars r0
    else
      let '(c, size) := DecodeRune s in
      if (c =? RuneError) && (size =? 1)%nat then
        ("\u" +:+ "fffd") +:+ encode_chars r0
      else
        match size, r0 with
        | 2%nat, String c1 r1 => String c0 (String c1 (encode_chars r1))
        | 3%nat, String c1 (String c2 r2) =>
            if (c =? 0x2028) || (c =? 0x2029) then
              "\u202" +:+ String (hex (Z.land c 0xF)) (encode_chars r2)
            else String c0 (String c1 (String c2 (encode_chars r2)))
        | 4%nat, String c1 (String c2 (String c3 r3)) =>
            String c0 (String c1 (String c2 (String c3 (encode_chars r3))))
        | _, _ => ""
        end
  end.

(** The double quote, byte 34. *)
Definition quote : ascii :=
  Ascii false true false false false true false false.

Definition appendString (s : string) : string :=
  String quote (encode_chars s +:+ String quote "").

(** [json.Marshal] of an [AlbumMetadata]: the three fields in declaration
    order.  A struct of strings has no value that fails to encode. *)
Definition Marshal (m : AlbumMetadata) : result string :=
  Ok ("{" +:+ appendString "artist" +:+ ":" +:+ appendString (Artist m)
      +:+ "," +:+ appendString "title" +:+ ":" +:+ appendString (Title m)
      +:+ "," +:+ appendString "year" +:+ ":" +:+ appendString (Year m)
      +:+ "}").

(** *** Decoding *)

Inductive value :=
| Null
| Bool (b : bool)
| Number (literal : string)
| Str (s : string)
| Array (elems : list value)
| Object (members : list (string * value)).

Definition is_space (c : ascii) : bool :=
  let b := code c in (b =? 32) || (b =? 9) || (b =? 13) || (b =? 10).

Fixpoint skip_space (s : string) : string :=
  match s with
  | String c r => if is_space c then skip_space r else s
  | EmptyString => s
  end.

Definition hexval (c : ascii) : option Z :=
  let b := code c in
  if (48 <=? b) && (b <=? 57) then Some (b - 48)
  else if (97 <=? b) && (b <=? 102) then Some (b - 87)
  else if (65 <=? b) && (b <=? 70) then Some (b - 55)
  else None.

(** Four hex digits, as [getu4] reads them after a backslash and a [u]. *)
Definition hex4 (h1 h2 h3 h4 : ascii) : option Z :=
  match hexval h1, hexval h2, hexval h3, hexval h4 with
  | Some a, Some b, Some c, Some d => Some (((a * 16 + b) * 16 + c) * 16 + d)
  | _, _, _, _ => None
  end.

Definition IsSurrogate (r : Z) : bool := (0xD800 <=? r) && (r <? 0xE000).

(** [utf16.DecodeRune] *)
Definition utf16_DecodeRune (r1 r2 : Z) : Z :=
  if (0xD800 <=? r1) && (r1 <? 0xDC00) && (0xDC00 <=? r2) && (r2 <? 0xE000)
  then Z.lor (Z.shiftl (r1 - 0xD800) 10) (r2 - 0xDC00) + 0x10000
  else RuneError.

Definition prepend (p : string) (o : option (string * string))
  : option (string * string) :=
  match o with
  | Some (t, rest) => Some (p +:+ t, rest)
  | None => None
  end.

(** A string literal after its opening quote: the decoded bytes and the
    input after the closing quote.  The scanner's rules (no control
    characters, only the JSON escapes) and those of [unquote] (escapes
    resolved, surrogate pairs combined, anything else coerced to valid
    UTF-8) are applied in one pass. *)
Fixpoint unquote (s : string) : option (string * string) :=
  match s with
  | EmptyString => None
  | String c r =>
    let b := code c in
    if b =? 34 then Some ("", r)
    else if b =? 92 then
      match r with
      | EmptyString => None
      | String e r' =>
        let x := code e in
        if (x =? 34) || (x =? 92) || (x =? 47) then prepend (String e "") (unquote r')
        else if x =? 98 then prepend (String (chr 8) "") (unquote r')
        else if x =? 102 then prepend (String (chr 12) "") (unquote r')
        else if x =? 110 then prepend (String (chr 10) "") (unquote r')
        else if x =? 114 then prepend (String (chr 13) "") (unquote r')
        else if x =? 116 then prepend (String (chr 9) "") (unquote r')
        else if x =? 117 then
          match r' with
          | String h1 (String h2 (String h3 (String h4 r4))) =>
            match hex4 h1 h2 h3 h4 with
            | None => None
            | Some rr =>
              if IsSurrogate rr then
                match r4 with
                | String b' (String u' (String g1 (String g2 (String g3 (String g4 r10))))) =>
                  let rr1 :=
                    if (code b' =? 92) && (code u' =? 117) then
                      match hex4 g1 g2 g3 g4 with Some v => v | None => -1 end
                    else -1 in
                  let dec := utf16_DecodeRune rr rr1 in
                  if negb (dec =? RuneError)
                  then prepend (EncodeRune dec) (unquote r10)
                  else prepend (EncodeRune RuneError) (unquote r4)
                | _ => prepend (EncodeRune RuneError) (unquote r4)
                end
              else prepend (EncodeRune rr) (unquote r4)
            end
          | _ => None
          end
        else None
      end
    else if b <? 32 then None
    else if b <? RuneSelf then prepend (String c "") (unquote r)
    else
      let '(rr, size) := DecodeRune s in
      match size, r with
      | 2%nat, String _ r1 => prepend (EncodeRune rr) (unquote r1)
      | 3%nat, String _ (String _ r2) => prepend (EncodeRune rr) (unquote r2)
      | 4%nat, String _ (String _ (String _ r3)) =>
          prepend (EncodeRune rr) (unquote r3)
      | _, _ => prepend (EncodeRune rr) (unquote r)
      end
  end.

(** A number literal: an optional minus sign; a zero, or a digit from 1 to
    9 and more digits; optionally a dot and digits; optionally an [e] or
    [E], a sign and digits.  [span_digits] splits off the leading digits. *)
Fixpoint span_digits (s : string) : string * string :=
  match s with
  | String c r =>
      if is_digit c then let '(d, rest) := span_digits r in (String c d, rest)
      else ("", s)
  | EmptyString => ("", "")
  end.

Definition scan_int (s : string) : option (string * string) :=
  match s with
  | String c r =>
      if code c =? 48 then Some (String c "", r)
      else if is_digit c then
        let '(d, rest) := span_digits r in Some (String c d, rest)
      else None
  | EmptyString => None
  end.

Definition scan_frac (s : string) : option (string * string) :=
  match s with
  | String c r =>
      if code c =? 46 then
        match span_digits r with
        | (EmptyString, _) => None
        | (d, rest) => Some (String c d, rest)
        end
      else Some ("", s)
  | EmptyString => Some ("", s)
  end.

Definition scan_exp (s : string) : option (string * string) :=
  match s with
  | String c r =>
      if (code c =? 101) || (code c =? 69) then
        let '(sign, r1) :=
          match r with
          | String g r1 =>
              if (code g =? 43) || (code g =? 45) then (String g "", r1)
              else ("", r)
          | EmptyString => ("", r)
          end in
        match span_digits r1 with
        | (EmptyString, _) => None
        | (d, rest) => Some (String c (sign +:+ d), rest)
        end
      else Some ("", s)
  | EmptyString => Some ("", s)
  end.

Definition scan_number (s : string) : option (string * string) :=
  let '(sign, s1) :=
    match s with
    | String c r => if code c =? 45 then (String c "", r) else ("", s)
    | EmptyString => ("", s)
    end in
  match scan_int s1 with
  | None => None
  | Some (i, s2) =>
    match scan_frac s2 with
    | None => None
    | Some (f, s3) =>
      match scan_exp s3 with
      | None => None
      | Some (e, s4) => Some (sign +:+ i +:+ f +:+ e, s4)
      end
    end
  end.

Definition scan_literal (lit : string) (s : string) : option string :=
  if String.prefix lit s
  then Some (substring (String.length lit) (String.length s - String.length lit) s)
  else None.

(** One JSON value at the head of [s] (after white space) and the input
    that follows it.  Every call consumes a character before it recurses,
    so the length of the input bounds the recursion. *)
Fixpoint parse_value (fuel : nat) (s : string) : option (value * string) :=
  match fuel with
  | O => None
  | S fuel =>
    match skip_space s with
    | EmptyString => None
    | String c r =>
      let b := code c in
      if b =? 123 then                               (* { *)
        match skip_space r with
        | String c' r' =>
            if code c' =? 125 then Some (Object [], r')
            else match parse_members fuel r with
                 | Some (ms, rest) => Some (Object ms, rest)
                 | None => None
                 end
        | EmptyString => None
        end
      else if b =? 91 then                           (* [ *)
        match skip_space r with
        | String c' r' =>
            if code c' =? 93 then Some (Array [], r')
            else match parse_elements fuel r with
                 | Some (vs, rest) => Some (Array vs, rest)
                 | None => None
                 end
        | EmptyString => None
        end
      else if b =? 34 then
        match unquote r with
        | Some (t, rest) => Some (Str t, rest)
        | None => None
        end
      else if b =? 116 then
        match scan_literal "true" (String c r) with
        | Some rest => Some (Bool true, rest) | None => None end
      else if b =? 102 then
        match scan_literal "false" (String c r) with
        | Some rest => Some (Bool false, rest) | None => None end
      else if b =? 110 then
        match scan_literal "null" (String c r) with
        | Some rest => Some (Null, rest) | None => None end
      else
        match scan_number (String c r) with
        | Some (n, rest) => Some (Number n, rest)
        | None => None
        end
    end
  end

with parse_members (fuel : nat) (s : string)
  : option (list (string * value) * string) :=
  match fuel with
  | O => None
  | S fuel =>
    match skip_space s with
    | String c r =>
      if code c =? 34 then
        match unquote r with
        | None => None
        | Some (key, r1) =>
          match skip_space r1 with
          | String c1 r2 =>
            if code c1 =? 58 then                    (* : *)
              match parse_value fuel r2 with
              | None => None
              | Some (v, r3) =>
                match skip_space r3 with
                | String c3 r4 =>
                  if code c3 =? 44 then              (* , *)
                    match parse_members fuel r4 with
                    | Some (ms, rest) => Some ((key, v) :: ms, rest)
                    | None => None
                    end
                  else if code c3 =? 125 then Some ([(key, v)], r4)
                  else None
                | EmptyString => None
                end
              end
            else None
          | EmptyString => None
          end
        end
      else None
    | EmptyString => None
    end
  end

with parse_elements (fuel : nat) (s : string) : option (list value * string) :=
  match fuel with
  | O => None
  | S fuel =>
    match parse_value fuel s with
    | None => None
    | Some (v, r1) =>
      match skip_space r1 with
      | String c r2 =>
        if code c =? 44 then
          match parse_elements fuel r2 with
          | Some (vs, rest) => Some (v :: vs, rest)
          | None => None
          end
        else if code c =? 93 then Some ([v], r2)
        else None
      | EmptyString => None
      end
    end
  end.

(** [checkValid] and the scan of the whole input: one value, white space
    around it, nothing else. *)
Definition parse (data : string) : option value :=
  match parse_value (S (String.length data)) data with
  | Some (v, rest) =>
      match skip_space rest with
      | EmptyString => Some v
      | _ => None
      end
  | None => None
  end.

(** [foldName], exact on the keys that can match an ASCII field name:
    ASCII letters go to upper case, and the two runes whose case orbit
    holds an ASCII letter (U+017F, U+212A) go to that letter. *)
Fixpoint foldName (s : string) : string :=
  match s with
  | EmptyString => ""
  | String c0 r0 =>
    let b := code c0 in
    if b <? RuneSelf then
      String (if (97 <=? b) && (b <=? 122) then chr (b - 32) else c0)
             (foldName r0)
    else
      let '(r, size) := DecodeRune s in
      let f := if r =? 0x17F then 83 else if r =? 0x212A then 75 else r in
      match size, r0 with
      | 2%nat, String _ r1 => EncodeRune f +:+ foldName r1
      | 3%nat, String _ (String _ r2) => EncodeRune f +:+ foldName r2
      | 4%nat, String _ (String _ (String _ r3)) => EncodeRune f +:+ foldName r3
      | _, _ => EncodeRune f +:+ foldName r0
      end
  end.

Inductive field := FArtist | FTitle | FYear.

(** The field a key selects: the exact name first, the folded name next. *)
Definition field_of_key (key : string) : option field :=
  if String.eqb key "artist" then Some FArtist
  else if String.eqb key "title" then Some FTitle
  else if String.eqb key "year" then Some FYear
  else
    let k := foldName key in
    if String.eqb k "ARTIST" then Some FArtist
    else if String.eqb k "TITLE" then Some FTitle
    else if String.eqb k "YEAR" then Some FYear
    else None.

Definition set_field (f : field) (s : string) (m : AlbumMetadata)
  : AlbumMetadata :=
  match f with
  | FArtist => {| Artist := s; Title := Title m; Year := Year m |}
  | FTitle => {| Artist := Artist m; Title := s; Year := Year m |}
  | FYear => {| Artist := Artist m; Title := Title m; Year := s |}
  end.

Definition type_name (v : value) : string :=
  match v with
  | Null => "null" | Bool _ => "bool" | Number _ => "number"
  | Str _ => "string" | Array _ => "array" | Object _ => "object"
  end.

Definition type_error (v : value) : string :=
  "json: cannot unmarshal " +:+ type_name v +:+ " into Go value".

(** The members of an object stored into the struct, in order: a string
    sets its field, [null] leaves it, any other value is a type error; the
    decoder goes on after a type error and reports the first one. *)
Fixpoint store_members (ms : list (string * value)) (m : AlbumMetadata)
    (saved : option string) : AlbumMetadata * option string :=
  match ms with
  | nil => (m, saved)
  | (key, v) :: rest =>
    match field_of_key key with
    | None => store_members rest m saved
    | Some f =>
      match v with
      | Str s => store_members rest (set_field f s m) saved
      | Null => store_members rest m saved
      | _ =>
        store_members rest m
          (match saved with Some e => Some e | None => Some (type_error v) end)
      end
    end
  end.

(** [json.Unmarshal(data, &m)] *)
Definition Unmarshal (data : string) (m : AlbumMetadata)
  : result AlbumMetadata :=
  match parse data with
  | None => Err "json: syntax error"
  | Some (Object ms) =>
      match store_members ms m None with
      | (m', None) => Ok m'
      | (_, Some e) => Err e
      end
  | Some Null => Ok m
  | Some v => Err (type_error v)
  end.

End Json.

(** * [filepath.Clean] and [filepath.Join] on a Unix host

    [Clean] is modelled on the path elements: empty elements and [.] are
    dropped, [..] removes the element before it, or is kept at the front of
    a path that is not rooted, or is dropped at the root. *)

Module Filepath.

(** The elements of a path, the current one being [cur]. *)
Fixpoint split_path (cur : string) (s : string) : list string :=
  match s with
  | EmptyString => match cur with EmptyString => [] | _ => [cur] end
  | String c r =>
      if is_sep c
      then match cur with
           | EmptyString => split_path "" r
           | _ => cur :: split_path "" r
           end
      else split_path (cur +:+ String c "") r
  end.

(** The elements kept so far are in [out], last one first. *)
Fixpoint clean_elems (rooted : bool) (out : list string) (es : list string)
  : list string :=
  match es with
  | [] => rev out
  | e :: es' =>
      if String.eqb e "." then clean_elems rooted out es'
      else if String.eqb e ".." then
        match out with
        | top :: out' =>
            if String.eqb top ".."
            then clean_elems rooted (e :: out) es'
            else clean_elems rooted out' es'
        | [] =>
            if rooted then clean_elems rooted out es'
            else clean_elems rooted (e :: out) es'
        end
      else clean_elems rooted (e :: out) es'
  end.

Fixpoint join_elems (es : list string) : string :=
  match es with
  | [] => ""
  | [e] => e
  | e :: es' => e +:+ "/" +:+ join_elems es'
  end.

Definition Clean (path : string) : string :=
  match path with
  | EmptyString => "."
  | String c _ =>
      let rooted := is_sep c in
      let body := join_elems (clean_elems rooted [] (split_path "" path)) in
      if rooted then "/" +:+ body
      else match body with EmptyString => "." | _ => body end
  end.

(** [filepath.Join(dir, name)] for a directory name that is not empty. *)
Definition Join (dir name : string) : string :=
  Clean (dir +:+ "/" +:+ name).

End Filepath.

(** * The local variant ([src/unnamed/part_000]) *)

Module Local.

Import Json.

(** [type AlbumInfo struct] *)
Record AlbumInfo := {
  AlbumID : Z;
  ImageURL : string;
  Metadata : AlbumMetadata
}.

(** A row of
    [albums (id INT AUTO_INCREMENT PRIMARY KEY, image_url VARCHAR(255),
             metadata JSON)],
    without its key.  The JSON column holds the document it was sent. *)
Record Row := {
  image_url : string;
  metadata : string
}.

Inductive DbCall :=
| Exec (query : string) (args : list string)
| QueryRow (query : string) (arg : string).

Record World := {
  albums : gmap Z Row;          (* the table, by primary key *)
  auto_increment : Z;           (* the next key *)
  dirs : gset string;           (* the directories that exist *)
  files : gmap string string;   (* the files, by path *)
  db_log : list DbCall          (* oldest call first *)
}.

(** What a request finds around it.  [id_of_param] is the engine's reading
    of a string parameter compared with the [INT] key: the program sends
    the path parameter as it came, and which key it selects, if any, is
    the engine's business.  [Copy_written] is the number of bytes that
    reached the file when the copy fails. *)
Record Env := {
  sql_strict : bool;
  id_of_param : string -> option Z;
  MkdirAll_err : option string;
  Open_err : option string;
  Create_err : option string;
  Copy_err : option string;
  Copy_written : nat;
  Exec_err : option string;
  QueryRow_err : option string
}.

Inductive JSONBody :=
| H_error (msg : string)                      (* gin.H{"error": msg} *)
| H_created (albumID : Z) (imagePath : string) (* gin.H{"albumID", "imagePath"} *)
| InfoBody (a : AlbumInfo).

Record Response := { Status : Z; body : JSONBody }.

Definition JSON (status : Z) (b : JSONBody) : Response :=
  {| Status := status; body := b |}.

Definition log_call (c : DbCall) (w : World) : World :=
  {| albums := albums w; auto_increment := auto_increment w;
     dirs := dirs w; files := files w; db_log := db_log w ++ [c] |}.

Definition insert_sql : string :=
  "INSERT INTO albums (image_url, metadata) VALUES (?, ?)".
Definition select_sql : string :=
  "SELECT id, image_url, metadata FROM albums WHERE id = ?".

(** [db.Exec(insert_sql, imagePath, metadataJSON)] followed by
    [res.LastInsertId()]. *)
Definition db_insert (env : Env) (imagePath metadataJSON : string)
    (w : World) : result Z * World :=
  let w := log_call (Exec insert_sql [imagePath; metadataJSON]) w in
  match Exec_err env with
  | Some e => (Err e, w)
  | None =>
    match varchar (sql_strict env) 255 "image_url" imagePath with
    | Err e => (Err e, w)
    | Ok u =>
      let id := auto_increment w in
      if (INT_MAX <? id) || bool_decide (is_Some (albums w !! id))
      then (Err "Duplicate entry for key 'PRIMARY'", w)
      else (Ok id,
            {| albums :=
                 <[id := {| image_url := u; metadata := metadataJSON |}]>
                   (albums w);
               auto_increment := id + 1;
               dirs := dirs w; files := files w;
               db_log := db_log w |})
    end
  end.

Inductive Scanned :=
| ScanRow (id : Z) (r : Row)
| ErrNoRows
| ScanErr (e : string).

Definition db_select (env : Env) (albumID : string) (w : World)
  : Scanned * World :=
  let w := log_call (QueryRow select_sql albumID) w in
  match QueryRow_err env with
  | Some e => (ScanErr e, w)
  | None =>
    match id_of_param env albumID with
    | None => (ErrNoRows, w)
    | Some id =>
      match albums w !! id with
      | Some r => (ScanRow id r, w)
      | None => (ErrNoRows, w)
      end
    end
  end.

Definition imageDir : string := "./images".

Definition with_fs (d : gset string) (f : gmap string string) (w : World)
  : World :=
  {| albums := albums w; auto_increment := auto_increment w;
     dirs := d; files := f; db_log := db_log w |}.

(** [saveImageLocally] *)
Definition saveImageLocally (env : Env) (imageFile : FileHeader) (w : World)
  : result string * World :=
  match MkdirAll_err env with
  | Some e => (Err ("failed to create image directory: " +:+ e), w)
  | None =>
    let w := with_fs ({[imageDir]} ∪ dirs w) (files w) w in
    let filePath := Filepath.Join imageDir (Filename imageFile) in
    match Open_err env with
    | Some e => (Err ("failed to open uploaded image: " +:+ e), w)
    | None =>
      match Create_err env with
      | Some e => (Err ("failed to save image: " +:+ e), w)
      | None =>
        let w := with_fs (dirs w) (<[filePath := ""]> (files w)) w in
        match Copy_err env with
        | Some e =>
            (Err ("failed to write image file: " +:+ e),
             with_fs (dirs w)
               (<[filePath := substring 0 (Copy_written env)
                                (Content imageFile)]> (files w)) w)
        | None =>
            (Ok filePath,
             with_fs (dirs w)
               (<[filePath := Content imageFile]> (files w)) w)
        end
      end
    end
  end.

(** The handler of [POST /albums]. *)
Definition POST_albums (env : Env) (req : Request) (w : World)
  : Response * World :=
  match FormFile req "image" with
  | Err _ => (JSON StatusBadRequest (H_error "Invalid image file"), w)
  | Ok imageFile =>
    let artist := PostForm req "artist" in
    let title := PostForm req "title" in
    let year := PostForm req "year" in
    match saveImageLocally env imageFile w with
    | (Err e, w1) => (JSON StatusInternalServerError (H_error e), w1)
    | (Ok imagePath, w1) =>
      let metadata := {| Artist := artist; Title := title; Year := year |} in
      match Marshal metadata with
      | Err _ =>
          (JSON StatusInternalServerError
                (H_error "Failed to encode metadata"), w1)
      | Ok metadataJSON =>
        match db_insert env imagePath metadataJSON w1 with
        | (Err e, w2) => (JSON StatusInternalServerError (H_error e), w2)
        | (Ok id, w2) => (JSON 200 (H_created id imagePath), w2)
        end
      end
    end
  end.

(** [var album AlbumInfo] *)
Definition zero_AlbumInfo : AlbumInfo :=
  {| AlbumID := 0; ImageURL := "";
     Metadata := {| Artist := ""; Title := ""; Year := "" |} |}.

(** The handler of [GET /albums/:albumID]. *)
Definition GET_album (env : Env) (albumID : string) (w : World)
  : Response * World :=
  let album := zero_AlbumInfo in
  match db_select env albumID w with
  | (ErrNoRows, w1) => (JSON StatusNotFound (H_error "Album not found"), w1)
  | (ScanErr e, w1) => (JSON StatusInternalServerError (H_error e), w1)
  | (ScanRow id r, w1) =>
    match Unmarshal (metadata r) (Metadata album) with
    | Err _ =>
        (JSON StatusInternalServerError
              (H_error "Failed to decode metadata"), w1)
    | Ok md =>
        (JSON 200 (InfoBody {| AlbumID := id; ImageURL := image_url r;
                               Metadata := md |}), w1)
    end
  end.

(** *** Startup *)
Record Boot := {
  Getenv : string -> string;
  sql_Open_err : option string;
  Ping_err : option string;
  CreateTable_err : option string
}.

Inductive Startup :=
| Fatal (msg : string)
| Run (addr : string).

Definition create_table_sql : string := "
	CREATE TABLE IF NOT EXISTS albums (
		id INT AUTO_INCREMENT PRIMARY KEY,
		image_url VARCHAR(255),
		metadata JSON
	) ENGINE=InnoDB;
	".

(** [main] *)
Definition main (b : Boot) (w : World) : Startup * World :=
  let dsn := Getenv b "DB_DSN" in
  if String.eqb dsn "" then (Fatal "DB_DSN environment variable not set", w)
  else
    match sql_Open_err b with
    | Some e => (Fatal ("Failed to open DB: " +:+ e), w)
    | None =>
      match Ping_err b with
      | Some e => (Fatal ("Failed to connect to DB: " +:+ e), w)
      | None =>
        let w := log_call (Exec create_table_sql []) w in
        match CreateTable_err b with
        | Some e => (Fatal ("Failed to create table: " +:+ e), w)
        | None =>
          let port := Getenv b "PORT" in
          let port := if String.eqb port "" then "8080" else port in
          (Run (":" +:+ port), w)
        end
      end
    end.

End Local.

(** * Sample requests, environments and worlds *)

Module Samples.

Definition cover : FileHeader :=
  {| Filename := "cover.jpg"; ContentType := "image/jpeg"; Content := "JFIF" |}.

(** The upload of the scenario of the specification, with the field names
    the remote variant reads. *)
Definition remote_upload : Request :=
  {| form_values := [("profile[artist]", "Boards");
                     ("profile[title]", "Music Has...");
                     ("profile[year]", "1998")];
     form_files := [("image", cover)] |}.

(** The same upload with the field names of the interface table. *)
Definition plain_upload : Request :=
  {| form_values := [("artist", "Boards"); ("title", "Music Has...");
                     ("year", "1998")];
     form_files := [("image", cover)] |}.

(** An upload whose year has eleven characters. *)
Definition long_year_upload : Request :=
  {| form_values := [("profile[artist]", "Boards");
                     ("profile[title]", "Music Has...");
                     ("profile[year]", "12345678901")];
     form_files := [("image", cover)] |}.

(** An upload whose artist is the single byte 0xFF, which is not UTF-8. *)
Definition raw_byte_upload : Request :=
  {| form_values := [("artist", String (chr 255) ""); ("title", "");
                     ("year", "1998")];
     form_files := [("image", cover)] |}.

Definition remote_env (strict : bool) : Remote.Env :=
  {| Remote.bucket := "albums-bucket";
     Remote.sql_strict := strict;
     Remote.uuid_New := "6ba7b810-9dad-11d1-80b4-00c04fd430c8";
     Remote.TempFile_err := None;
     Remote.Copy_err := None;
     Remote.PutObject_err := None;
     Remote.Exec_err := None;
     Remote.QueryRow_err := None |}.

(** The bucket refuses the object. *)
Definition remote_env_no_bucket : Remote.Env :=
  {| Remote.bucket := "albums-bucket";
     Remote.sql_strict := true;
     Remote.uuid_New := "6ba7b810-9dad-11d1-80b4-00c04fd430c8";
     Remote.TempFile_err := None;
     Remote.Copy_err := None;
     Remote.PutObject_err := Some "AccessDenied";
     Remote.Exec_err := None;
     Remote.QueryRow_err := None |}.

Definition remote_world : Remote.World :=
  {| Remote.albums := ∅; Remote.auto_increment := 1;
     Remote.objects := ∅; Remote.db_log := [] |}.

(** An engine that reads a decimal numeral as that key and selects no key
    for any other parameter. *)
Definition decimal_key (s : string) : option Z :=
  match Atoi s with Ok n => Some n | Err _ => None end.

Definition local_env : Local.Env :=
  {| Local.sql_strict := true;
     Local.id_of_param := decimal_key;
     Local.MkdirAll_err := None;
     Local.Open_err := None;
     Local.Create_err := None;
     Local.Copy_err := None;
     Local.Copy_written := 0;
     Local.Exec_err := None;
     Local.QueryRow_err := None |}.

(** The disk is full. *)
Definition local_env_disk_full : Local.Env :=
  {| Local.sql_strict := true;
     Local.id_of_param := decimal_key;
     Local.MkdirAll_err := None;
     Local.Open_err := None;
     Local.Create_err := None;
     Local.Copy_err := Some "no space left on device";
     Local.Copy_written := 2;
     Local.Exec_err := None;
     Local.QueryRow_err := None |}.

Definition local_world : Local.World :=
  {| Local.albums := ∅; Local.auto_increment := 1;
     Local.dirs := ∅; Local.files := ∅; Local.db_log := [] |}.

(** An upload whose only part is a text field. *)
Definition no_image_upload : Request :=
  {| form_values := [("artist", "Boards")]; form_files := [] |}.

(** The database refuses the connection. *)
Definition remote_env_db_down : Remote.Env :=
  {| Remote.bucket := "albums-bucket";
     Remote.sql_strict := true;
     Remote.uuid_New := "6ba7b810-9dad-11d1-80b4-00c04fd430c8";
     Remote.TempFile_err := None;
     Remote.Copy_err := None;
     Remote.PutObject_err := None;
     Remote.Exec_err := Some "connection refused";
     Remote.QueryRow_err := Some "connection refused" |}.

Definition local_env_db_down : Local.Env :=
  {| Local.sql_strict := true;
     Local.id_of_param := decimal_key;
     Local.MkdirAll_err := None;
     Local.Open_err := None;
     Local.Create_err := None;
     Local.Copy_err := None;
     Local.Copy_written := 0;
     Local.Exec_err := Some "connection refused";
     Local.QueryRow_err := Some "connection refused" |}.

(** The worlds after the upload of the scenario. *)
Definition remote_world_one : Remote.World :=
  snd (Remote.newAlbum (remote_env true) remote_upload remote_world).

Definition local_world_one : Local.World :=
  snd (Local.POST_albums local_env plain_upload local_world).

(** Another image under the name of the first. *)
Definition other_cover : FileHeader :=
  {| Filename := "cover.jpg"; ContentType := "image/png"; Content := "PNG!" |}.

Definition replacing_upload : Request :=
  {| form_values := [("artist", "Boards")];
     form_files := [("image", other_cover)] |}.

(** An upload whose file name has directories in it. *)
Definition nested_name : FileHeader :=
  {| Filename := "../../etc/cover.tar.gz"; ContentType := "application/gzip";
     Content := "JFIF" |}.







(** The remote upload with a second image, repeated fields and fields of
    other names. *)
Definition crowded_upload : Request :=
  {| form_values := [("profile[artist]", "Boards");
                     ("profile[artist]", "Someone Else");
                     ("profile[title]", "Music Has...");
                     ("note", "ignored");
                     ("profile[year]", "1998")];
     form_files := [("thumbnail", other_cover); ("image", cover);
                    ("image", other_cover)] |}.

(** An upload with the image alone. *)
Definition no_fields_upload : Request :=
  {| form_values := []; form_files := [("image", cover)] |}.

(** The environment of a second upload: another UUID is drawn. *)
Definition remote_env_second : Remote.Env :=
  {| Remote.bucket := "albums-bucket";
     Remote.sql_strict := true;
     Remote.uuid_New := "6ba7b811-9dad-11d1-80b4-00c04fd430c8";
     Remote.TempFile_err := None;
     Remote.Copy_err := None;
     Remote.PutObject_err := None;
     Remote.Exec_err := None;
     Remote.QueryRow_err := None |}.

End Samples.

(** * Vocabulary of the statements *)

Fixpoint no_sep (s : string) : bool :=
  match s with
  | EmptyString => true
  | String c r => negb (is_sep c) && no_sep r
  end.

(** A file name that is one path element: not empty, without separator,
    neither [.] nor [..]. *)
Definition plain_name (s : string) : bool :=
  negb (String.eqb s "") && negb (String.eqb s ".")
  && negb (String.eqb s "..") && no_sep s.

(** The document [Marshal] writes for the three strings. *)
Definition document (a t y : string) : string :=
  String "{" (String Json.quote (Json.encode_chars "artist" +:+ String Json.quote
    (String ":" (String Json.quote (Json.encode_chars a +:+ String Json.quote
    (String "," (String Json.quote (Json.encode_chars "title" +:+ String Json.quote
    (String ":" (String Json.quote (Json.encode_chars t +:+ String Json.quote
    (String "," (String Json.quote (Json.encode_chars "year" +:+ String Json.quote
    (String ":" (String Json.quote (Json.encode_chars y +:+ String Json.quote
    (String "}" "")))))))))))))))))).

(** The worlds the local handlers reach from an empty table. *)
Inductive created_by_POST : Local.World -> Prop :=
| created_empty (w : Local.World) :
    Local.albums w = ∅ -> created_by_POST w
| created_POST (env : Local.Env) (req : Request) (w : Local.World) :
    created_by_POST w -> created_by_POST (snd (Local.POST_albums env req w))
| created_GET (env : Local.Env) (albumID : string) (w : Local.World) :
    created_by_POST w -> created_by_POST (snd (Local.GET_album env albumID w)).

(** Every metadata column holds a document written by [Marshal]. *)
Definition marshalled (w : Local.World) : Prop :=
  forall (id : Z) (row : Local.Row),
    Local.albums w !! id = Some row ->
    exists a t y : string, Local.metadata row = document a t y.

(** ** Documents as a database engine may hand them back

    The members of an object in a given order, with the blank space [sp]
    after every colon and every comma. *)

Definition member_text (sp : string) (kv : string * string) : string :=
  Json.appendString (fst kv) +:+ ":" +:+ sp +:+ Json.appendString (snd kv).

Fixpoint members_text (sp : string) (ms : list (string * string)) : string :=
  match ms with
  | [] => ""
  | [kv] => member_text sp kv
  | kv :: rest => member_text sp kv +:+ "," +:+ sp +:+ members_text sp rest
  end.

Definition object_text (sp : string) (ms : list (string * string)) : string :=
  "{" +:+ members_text sp ms +:+ "}".

Fixpoint blank (s : string) : bool :=
  match s with
  | EmptyString => true
  | String c r => Json.is_space c && blank r
  end.

(** What the parser makes of a member of two strings. *)
Definition read_member (kv : string * string) : string * Json.value :=
  (Utf8.coerce (fst kv), Json.Str (Utf8.coerce (snd kv))).

(** * Proofs *)

#[local] Arguments String.append !s1 s2 : simpl nomatch.
#[local] Arguments Utf8.DecodeRune : simpl never.
#[local] Arguments Utf8.EncodeRune : simpl never.

Ltac bool_to_Z :=
  repeat match goal with
  | H : (_ || _) = false |- _ => apply orb_false_elim in H as [? ?]
  | H : (_ && _) = true |- _ => apply andb_prop in H as [? ?]
  | H : (_ <? _) = true |- _ => apply Z.ltb_lt in H
  | H : (_ <? _) = false |- _ => apply Z.ltb_ge in H
  | H : (_ <=? _) = true |- _ => apply Z.leb_le in H
  | H : (_ <=? _) = false |- _ => apply Z.leb_gt in H
  | H : (_ =? _) = true |- _ => apply Z.eqb_eq in H
  | H : (_ =? _) = false |- _ => apply Z.eqb_neq in H
  end.

Ltac split_ifs :=
  repeat match goal with
  | H : context [if ?b then _ else _] |- _ => destruct b eqn:?
  | H : context [match ?s with EmptyString => _ | String _ _ => _ end] |- _ =>
      destruct s
  end.

Ltac arith := Z.div_mod_to_equations; lia.

Lemma append_empty_r (s : string) : s +:+ "" = s.
Proof. induction s as [|a t IH]; simpl; [reflexivity | now rewrite IH]. Qed.

Lemma append_empty_l (s : string) : "" +:+ s = s.
Proof. reflexivity. Qed.

Lemma append_cons (c : ascii) (s t : string) :
  String c s +:+ t = String c (s +:+ t).
Proof. reflexivity. Qed.

Lemma append_assoc (a b c : string) : (a +:+ b) +:+ c = a +:+ (b +:+ c).
Proof. induction a as [|x a IH]; simpl; [reflexivity | now rewrite IH]. Qed.

(** * Identifiers *)

Lemma parse_digits_not_all_digits (s : string) :
  forall acc, all_digits s = false -> parse_digits acc s = None.
Proof.
  induction s as [|c r IH]; intros acc H; simpl in *.
  - discriminate.
  - destruct (is_digit c); simpl in *.
    + now apply IH.
    + reflexivity.
Qed.

Lemma Atoi_not_numeric (s : string) :
  is_numeric s = false -> Atoi s = Err ErrSyntax.
Proof.
  unfold is_numeric, Atoi. destruct s as [|c r]; [reflexivity|].
  destruct (Ascii.eqb c "-" || Ascii.eqb c "+").
  - destruct r as [|c' r']; [reflexivity|].
    intros H. now rewrite (parse_digits_not_all_digits _ 0 H).
  - intros H. now rewrite (parse_digits_not_all_digits _ 0 H).
Qed.

Lemma Atoi_Ok_numeric (s : string) (n : Z) :
  Atoi s = Ok n -> is_numeric s = true.
Proof.
  intros H. destruct (is_numeric s) eqn:E; [reflexivity|].
  rewrite (Atoi_not_numeric _ E) in H. discriminate.
Qed.

(** * Lookup by identifier *)

Section RemoteLookup.

Import Remote.

Variable env : Env.
Variable w : World.

Lemma getAlbumByKey_malformed (idStr e : string) :
  Atoi idStr = Err e ->
  getAlbumByKey env idStr w
  = (JSON StatusBadRequest (H_error "Invalid album ID"), w).
Proof. intros H. unfold getAlbumByKey. now rewrite H. Qed.

Lemma db_select_log (id : Z) :
  db_log (snd (db_select env id w)) = db_log w ++ [QueryRow select_sql id].
Proof.
  unfold db_select.
  destruct (QueryRow_err env); [reflexivity|].
  cbn [log_call albums]. destruct (albums w !! id); reflexivity.
Qed.

Lemma getAlbumByKey_queries (idStr : string) (id : Z) :
  Atoi idStr = Ok id ->
  db_log (snd (getAlbumByKey env idStr w))
  = db_log w ++ [QueryRow select_sql id]
  /\ Status (fst (getAlbumByKey env idStr w)) <> StatusBadRequest.
Proof.
  intros H. unfold getAlbumByKey. rewrite H.
  pose proof (db_select_log id) as L.
  destruct (db_select env id w) as [[i r| |e] w1]; cbn in *; split;
    try assumption; discriminate.
Qed.

Lemma getAlbumByKey_no_row (idStr : string) (id : Z) :
  Atoi idStr = Ok id ->
  QueryRow_err env = None ->
  albums w !! id = None ->
  getAlbumByKey env idStr w
  = (JSON StatusNotFound (H_msg "Key not found"),
     log_call (QueryRow select_sql id) w).
Proof.
  intros H Hq Hrow. unfold getAlbumByKey, db_select. rewrite H, Hq.
  cbn [log_call albums]. now rewrite Hrow.
Qed.

Lemma getAlbumByKey_row (idStr : string) (id : Z) (r : Row) :
  Atoi idStr = Ok id ->
  QueryRow_err env = None ->
  albums w !! id = Some r ->
  getAlbumByKey env idStr w
  = (JSON StatusOK (AlbumBody (scan_into zero_Album id r)),
     log_call (QueryRow select_sql id) w).
Proof.
  intros H Hq Hrow. unfold getAlbumByKey, db_select. rewrite H, Hq.
  cbn [log_call albums]. now rewrite Hrow.
Qed.

End RemoteLookup.

Section LocalLookup.

Import Local.

Variable env : Env.
Variable w : World.

Lemma local_db_select_log (albumID : string) :
  db_log (snd (db_select env albumID w))
  = db_log w ++ [QueryRow select_sql albumID].
Proof.
  unfold db_select.
  destruct (QueryRow_err env); [reflexivity|].
  destruct (id_of_param env albumID) as [id|]; [|reflexivity].
  cbn [log_call albums]. destruct (albums w !! id); reflexivity.
Qed.

Lemma GET_album_queries (albumID : string) :
  db_log (snd (GET_album env albumID w))
  = db_log w ++ [QueryRow select_sql albumID]
  /\ Status (fst (GET_album env albumID w)) <> StatusBadRequest.
Proof.
  unfold GET_album.
  pose proof (local_db_select_log albumID) as L.
  destruct (db_select env albumID w) as [[i r| |e] w1]; cbn in *.
  - destruct (Json.Unmarshal _ _); cbn; split; try assumption; discriminate.
  - split; [assumption | discriminate].
  - split; [assumption | discriminate].
Qed.

Lemma GET_album_no_row (albumID : string) :
  QueryRow_err env = None ->
  id_of_param env albumID ≫= (albums w !!.) = None ->
  GET_album env albumID w
  = (JSON StatusNotFound (H_error "Album not found"),
     log_call (QueryRow select_sql albumID) w).
Proof.
  intros Hq Hrow. unfold GET_album, db_select. rewrite Hq.
  destruct (id_of_param env albumID) as [id|]; cbn in *; [|reflexivity].
  now rewrite Hrow.
Qed.

End LocalLookup.

(** C2 (as amended).  An identifier that is not numeric is refused by the
    remote variant with status 400 and the world, the log of database
    calls included, is left as it was.  The local variant does not parse
    the identifier: it sends it to the database as it came and never
    answers 400. *)
Theorem non_numeric_identifier
    (renv : Remote.Env) (rw : Remote.World)
    (lenv : Local.Env) (lw : Local.World) (idStr : string) :
  is_numeric idStr = false ->
  Remote.getAlbumByKey renv idStr rw
  = (Remote.JSON StatusBadRequest (Remote.H_error "Invalid album ID"), rw)
  /\ Local.db_log (snd (Local.GET_album lenv idStr lw))
     = Local.db_log lw ++ [Local.QueryRow Local.select_sql idStr]
  /\ Local.Status (fst (Local.GET_album lenv idStr lw)) <> StatusBadRequest.
Proof.
  intros H. split.
  - apply getAlbumByKey_malformed with (e := ErrSyntax).
    now apply Atoi_not_numeric.
  - apply GET_album_queries.
Qed.

Lemma non_numeric_identifier_witness :
  Remote.getAlbumByKey (Samples.remote_env true) "abc" Samples.remote_world
  = (Remote.JSON StatusBadRequest (Remote.H_error "Invalid album ID"),
     Samples.remote_world)
  /\ Local.db_log (snd (Local.GET_album Samples.local_env "abc"
                          Samples.local_world))
     = Local.db_log Samples.local_world
       ++ [Local.QueryRow Local.select_sql "abc"]
  /\ Local.Status (fst (Local.GET_album Samples.local_env "abc"
                          Samples.local_world)) <> StatusBadRequest.
Proof.
  apply (non_numeric_identifier (Samples.remote_env true) Samples.remote_world
           Samples.local_env Samples.local_world "abc").
  reflexivity.
Defined.

(** C2, as stated, fails in the local variant: the identifier [abc] is not
    numeric, yet the handler queries the database with it and answers 404. *)
Lemma non_numeric_identifier_local_counterexample :
  is_numeric "abc" = false
  /\ Local.GET_album Samples.local_env "abc" Samples.local_world
     = (Local.JSON StatusNotFound (Local.H_error "Album not found"),
        Local.log_call (Local.QueryRow Local.select_sql "abc")
          Samples.local_world)
  /\ StatusNotFound <> StatusBadRequest.
Proof. split; [reflexivity|]. split; [reflexivity | discriminate]. Qed.

(** C4 (as amended).  The remote variant refuses exactly the identifiers
    that [strconv.Atoi] rejects.  An identifier that parses, a negative
    one included, is looked up: the query is logged with the parsed key,
    the answer is never 400, and it is 404 when the database answers and
    holds no row under that key. *)
Theorem remote_identifier_parsing
    (env : Remote.Env) (w : Remote.World) (idStr : string) :
  match Atoi idStr with
  | Err _ =>
      Remote.getAlbumByKey env idStr w
      = (Remote.JSON StatusBadRequest (Remote.H_error "Invalid album ID"), w)
  | Ok id =>
      Remote.db_log (snd (Remote.getAlbumByKey env idStr w))
      = Remote.db_log w ++ [Remote.QueryRow Remote.select_sql id]
      /\ Remote.Status (fst (Remote.getAlbumByKey env idStr w))
         <> StatusBadRequest
      /\ (Remote.QueryRow_err env = None ->
          Remote.albums w !! id = None ->
          Remote.getAlbumByKey env idStr w
          = (Remote.JSON StatusNotFound (Remote.H_msg "Key not found"),
             Remote.log_call (Remote.QueryRow Remote.select_sql id) w))
  end.
Proof.
  destruct (Atoi idStr) as [id|e] eqn:E.
  - destruct (getAlbumByKey_queries env w idStr id E) as [L S].
    repeat split; try assumption.
    intros Hq Hrow. now apply getAlbumByKey_no_row.
  - now apply getAlbumByKey_malformed with (e := e).
Qed.

Lemma remote_identifier_parsing_witness :
  Remote.getAlbumByKey (Samples.remote_env true) "-1" Samples.remote_world
  = (Remote.JSON StatusNotFound (Remote.H_msg "Key not found"),
     Remote.log_call (Remote.QueryRow Remote.select_sql (-1))
       Samples.remote_world).
Proof.
  pose proof (remote_identifier_parsing (Samples.remote_env true)
                Samples.remote_world "-1") as H.
  change (Atoi "-1") with (@Ok Z (-1)) in H.
  destruct H as [_ [_ H]]. apply H; reflexivity.
Defined.

(** C4, as stated, fails: [-1] does not parse as a non-negative integer,
    yet the handler looks it up and answers 404. *)
Lemma negative_identifier_counterexample :
  Atoi "-1" = Ok (-1)
  /\ Remote.getAlbumByKey (Samples.remote_env true) "-1" Samples.remote_world
     = (Remote.JSON StatusNotFound (Remote.H_msg "Key not found"),
        Remote.log_call (Remote.QueryRow Remote.select_sql (-1))
          Samples.remote_world)
  /\ StatusNotFound <> StatusBadRequest.
Proof. split; [reflexivity|]. split; [reflexivity | discriminate]. Qed.

(** * Failure of the blob store *)

Lemma newAlbum_upload_failed
    (env : Remote.Env) (req : Request) (w : Remote.World)
    (header : FileHeader) (e : string) (w1 : Remote.World) :
  FormFile req "image" = Ok header ->
  Remote.uploadToS3 env header w = (Err e, w1) ->
  Remote.newAlbum env req w
  = (Remote.JSON StatusInternalServerError
       (Remote.H_error "Failed to upload image to S3"), w1)
  /\ w1 = w.
Proof.
  intros Hf Hu. unfold Remote.newAlbum. rewrite Hf, Hu. split; [reflexivity|].
  unfold Remote.uploadToS3 in Hu.
  destruct (Remote.TempFile_err env); [congruence|].
  destruct (Remote.Copy_err env); [congruence|].
  destruct (Remote.PutObject_err env); [congruence|].
  discriminate.
Qed.

Lemma saveImageLocally_db
    (env : Local.Env) (imageFile : FileHeader) (w : Local.World) :
  let w1 := snd (Local.saveImageLocally env imageFile w) in
  Local.albums w1 = Local.albums w
  /\ Local.auto_increment w1 = Local.auto_increment w
  /\ Local.db_log w1 = Local.db_log w.
Proof.
  unfold Local.saveImageLocally.
  destruct (Local.MkdirAll_err env); [now cbn|].
  destruct (Local.Open_err env); [now cbn|].
  destruct (Local.Create_err env); [now cbn|].
  destruct (Local.Copy_err env); now cbn.
Qed.

Lemma POST_albums_save_failed
    (env : Local.Env) (req : Request) (w : Local.World)
    (imageFile : FileHeader) (e : string) (w1 : Local.World) :
  FormFile req "image" = Ok imageFile ->
  Local.saveImageLocally env imageFile w = (Err e, w1) ->
  Local.POST_albums env req w
  = (Local.JSON StatusInternalServerError (Local.H_error e), w1)
  /\ Local.albums w1 = Local.albums w
  /\ Local.auto_increment w1 = Local.auto_increment w
  /\ Local.db_log w1 = Local.db_log w.
Proof.
  intros Hf Hs. unfold Local.POST_albums. rewrite Hf, Hs.
  split; [reflexivity|].
  pose proof (saveImageLocally_db env imageFile w) as H.
  rewrite Hs in H. exact H.
Qed.

(** C5.  When the write to the blob store fails, the handler answers 500
    and the repository is as it was: same rows, same next key, and no call
    on the database was made.  Remote variant first, local variant
    second. *)
Theorem blob_failure_aborts :
  (forall (env : Remote.Env) (req : Request) (w : Remote.World)
          (header : FileHeader) (e : string) (w1 : Remote.World),
      FormFile req "image" = Ok header ->
      Remote.uploadToS3 env header w = (Err e, w1) ->
      let '(resp, w') := Remote.newAlbum env req w in
      Remote.Status resp = StatusInternalServerError
      /\ Remote.albums w' = Remote.albums w
      /\ Remote.auto_increment w' = Remote.auto_increment w
      /\ Remote.db_log w' = Remote.db_log w)
  /\
  (forall (env : Local.Env) (req : Request) (w : Local.World)
          (imageFile : FileHeader) (e : string) (w1 : Local.World),
      FormFile req "image" = Ok imageFile ->
      Local.saveImageLocally env imageFile w = (Err e, w1) ->
      let '(resp, w') := Local.POST_albums env req w in
      Local.Status resp = StatusInternalServerError
      /\ Local.albums w' = Local.albums w
      /\ Local.auto_increment w' = Local.auto_increment w
      /\ Local.db_log w' = Local.db_log w).
Proof.
  split.
  - intros env req w header e w1 Hf Hu.
    destruct (newAlbum_upload_failed env req w header e w1 Hf Hu) as [-> ->].
    now cbn.
  - intros env req w imageFile e w1 Hf Hs.
    destruct (POST_albums_save_failed env req w imageFile e w1 Hf Hs)
      as [-> H].
    now cbn.
Qed.

Lemma blob_failure_aborts_witness :
  (let '(resp, w') :=
     Remote.newAlbum Samples.remote_env_no_bucket Samples.remote_upload
       Samples.remote_world in
   Remote.Status resp = StatusInternalServerError
   /\ Remote.albums w' = Remote.albums Samples.remote_world
   /\ Remote.auto_increment w' = Remote.auto_increment Samples.remote_world
   /\ Remote.db_log w' = Remote.db_log Samples.remote_world)
  /\
  (let '(resp, w') :=
     Local.POST_albums Samples.local_env_disk_full Samples.plain_upload
       Samples.local_world in
   Local.Status resp = StatusInternalServerError
   /\ Local.albums w' = Local.albums Samples.local_world
   /\ Local.auto_increment w' = Local.auto_increment Samples.local_world
   /\ Local.db_log w' = Local.db_log Samples.local_world).
Proof.
  split.
  - apply (proj1 blob_failure_aborts Samples.remote_env_no_bucket
             Samples.remote_upload Samples.remote_world Samples.cover
             "AccessDenied" Samples.remote_world); reflexivity.
  - eapply (proj2 blob_failure_aborts Samples.local_env_disk_full
              Samples.plain_upload Samples.local_world Samples.cover);
      reflexivity.
Defined.

(** C6.  When the database answers the query and no row matches the
    identifier, the handler answers 404, which is not the 500 of the
    infrastructure errors, and leaves the world as it was but for the
    logged query.  Remote variant first (the identifier parses to [id]),
    local variant second (the engine selects no key, or a key without
    row). *)
Theorem no_row_is_not_found :
  (forall (env : Remote.Env) (w : Remote.World) (idStr : string) (id : Z),
      Atoi idStr = Ok id ->
      Remote.QueryRow_err env = None ->
      Remote.albums w !! id = None ->
      Remote.getAlbumByKey env idStr w
      = (Remote.JSON StatusNotFound (Remote.H_msg "Key not found"),
         Remote.log_call (Remote.QueryRow Remote.select_sql id) w))
  /\
  (forall (env : Local.Env) (w : Local.World) (albumID : string),
      Local.QueryRow_err env = None ->
      Local.id_of_param env albumID ≫= (Local.albums w !!.) = None ->
      Local.GET_album env albumID w
      = (Local.JSON StatusNotFound (Local.H_error "Album not found"),
         Local.log_call (Local.QueryRow Local.select_sql albumID) w))
  /\ StatusNotFound <> StatusInternalServerError.
Proof.
  split; [|split].
  - intros env w idStr id. apply getAlbumByKey_no_row.
  - intros env w albumID. apply GET_album_no_row.
  - discriminate.
Qed.

Lemma no_row_is_not_found_witness :
  Remote.getAlbumByKey (Samples.remote_env true) "999999" Samples.remote_world
  = (Remote.JSON StatusNotFound (Remote.H_msg "Key not found"),
     Remote.log_call (Remote.QueryRow Remote.select_sql 999999)
       Samples.remote_world)
  /\ Local.GET_album Samples.local_env "999999" Samples.local_world
     = (Local.JSON StatusNotFound (Local.H_error "Album not found"),
        Local.log_call (Local.QueryRow Local.select_sql "999999")
          Samples.local_world).
Proof.
  destruct no_row_is_not_found as [R [L _]]. split.
  - apply (R (Samples.remote_env true) Samples.remote_world "999999" 999999);
      reflexivity.
  - apply (L Samples.local_env Samples.local_world "999999"); reflexivity.
Defined.

(** * The blob stores *)

Lemma ext_from_suffix (s : string) :
  forall cur whole : string,
    (exists p, whole = p +:+ s) ->
    (exists p, whole = p +:+ cur) ->
    exists p, whole = p +:+ ext_from cur s.
Proof.
  induction s as [|c r IH]; intros cur whole Hs Hcur; simpl.
  - exact Hcur.
  - destruct Hs as [p Hp].
    assert (Hr : exists q, whole = q +:+ r).
    { exists (p +:+ String c ""). now rewrite append_assoc. }
    destruct (is_sep c).
    + apply IH; [exact Hr|]. exists whole. now rewrite append_empty_r.
    + destruct (Ascii.eqb c ".").
      * apply IH; [exact Hr|]. now exists p.
      * now apply IH.
Qed.

(** The extension is a suffix of the name. *)
Lemma filepath_Ext_suffix (name : string) :
  exists p, name = p +:+ filepath_Ext name.
Proof.
  apply ext_from_suffix.
  - now exists "".
  - exists name. now rewrite append_empty_r.
Qed.

(** C7.  A successful [uploadToS3] returns the URL made of the bucket name
    and the key, where the key is [images/], the UUID that was drawn and
    the extension of the uploaded file's name (a suffix of that name), and
    returns the number of bytes of the upload; the bucket then holds the
    upload under that key, publicly readable. *)
Theorem uploadToS3_result
    (env : Remote.Env) (header : FileHeader) (w w' : Remote.World)
    (imageURL : string) (fileSize : Z) :
  Remote.uploadToS3 env header w = (Ok (imageURL, fileSize), w') ->
  let key :=
    "images/" +:+ Remote.uuid_New env +:+ filepath_Ext (Filename header) in
  imageURL = "https://" +:+ Remote.bucket env +:+ ".s3.amazonaws.com/" +:+ key
  /\ (exists p, Filename header = p +:+ filepath_Ext (Filename header))
  /\ fileSize = Z.of_nat (String.length (Content header))
  /\ Remote.objects w' !! (Remote.bucket env, key)
     = Some {| Remote.Body := Content header;
               Remote.ObjContentType := ContentType header;
               Remote.ACL := "public-read" |}.
Proof.
  unfold Remote.uploadToS3.
  destruct (Remote.TempFile_err env); [discriminate|].
  destruct (Remote.Copy_err env); [discriminate|].
  destruct (Remote.PutObject_err env); [discriminate|].
  intros H. injection H as <- <- <-. cbn.
  repeat split.
  - apply filepath_Ext_suffix.
  - apply lookup_insert_eq.
Qed.

Lemma uploadToS3_result_witness :
  exists w' : Remote.World,
    Remote.uploadToS3 (Samples.remote_env true) Samples.cover
      Samples.remote_world
    = (Ok ("https://albums-bucket.s3.amazonaws.com/images/6ba7b810-9dad-11d1-80b4-00c04fd430c8.jpg",
           4), w')
    /\ Remote.objects w'
       !! ("albums-bucket", "images/6ba7b810-9dad-11d1-80b4-00c04fd430c8.jpg")
       = Some {| Remote.Body := "JFIF";
                 Remote.ObjContentType := "image/jpeg";
                 Remote.ACL := "public-read" |}.
Proof.
  eexists. split; [reflexivity|].
  refine (proj2 (proj2 (proj2 (uploadToS3_result (Samples.remote_env true)
            Samples.cover Samples.remote_world _ _ _ _)))).
  reflexivity.
Defined.

(** C9.  Every 200 answer of the remote [getAlbumByKey] carries an album
    whose [ImageSize] is 0, whatever row it was read from. *)
Theorem getAlbumByKey_imageSize_zero
    (env : Remote.Env) (idStr : string) (w w' : Remote.World)
    (resp : Remote.Response) :
  Remote.getAlbumByKey env idStr w = (resp, w') ->
  Remote.Status resp = StatusOK ->
  exists a : Remote.Album,
    Remote.body resp = Remote.AlbumBody a /\ Remote.ImageSize a = 0.
Proof.
  unfold Remote.getAlbumByKey.
  destruct (Atoi idStr) as [id|e].
  - destruct (Remote.db_select env id w) as [[i r| |e] w1];
      intros H; injection H as <- <-; cbn; intros S; try discriminate.
    eexists. split; reflexivity.
  - intros H. injection H as <- <-. cbn. discriminate.
Qed.

Lemma getAlbumByKey_imageSize_zero_witness :
  fst (Remote.newAlbum (Samples.remote_env true) Samples.remote_upload
         Samples.remote_world)
  = Remote.JSON StatusOK (Remote.H_created 1 4)
  /\ exists a : Remote.Album,
       Remote.body
         (fst (Remote.getAlbumByKey (Samples.remote_env true) "1"
                 (snd (Remote.newAlbum (Samples.remote_env true)
                         Samples.remote_upload Samples.remote_world))))
       = Remote.AlbumBody a
       /\ Remote.ImageSize a = 0.
Proof.
  split; [reflexivity|].
  eapply (getAlbumByKey_imageSize_zero (Samples.remote_env true) "1").
  - apply surjective_pairing.
  - reflexivity.
Defined.

(** ** Paths of the local store *)

Lemma split_path_no_sep (s : string) :
  forall cur : string,
    no_sep s = true ->
    Filepath.split_path cur s
    = match cur +:+ s with EmptyString => [] | e => [e] end.
Proof.
  induction s as [|c r IH]; intros cur H; simpl in *.
  - rewrite append_empty_r. now destruct cur.
  - apply andb_prop in H as [Hc Hr].
    apply negb_true_iff in Hc. rewrite Hc.
    rewrite (IH _ Hr), append_assoc. reflexivity.
Qed.

Lemma Join_plain_name (name : string) :
  plain_name name = true ->
  Filepath.Join Local.imageDir name = "images/" +:+ name.
Proof.
  unfold plain_name. intros H.
  apply andb_prop in H as [H Hsep]. apply andb_prop in H as [H Hdd].
  apply andb_prop in H as [He Hd].
  apply negb_true_iff in He, Hd, Hdd.
  unfold Filepath.Join, Filepath.Clean, Local.imageDir.
  cbn -[Filepath.clean_elems Filepath.join_elems].
  rewrite (split_path_no_sep name "" Hsep). cbn [String.append].
  destruct name as [|c r]; [discriminate|].
  cbn [Filepath.clean_elems String.eqb Ascii.eqb Bool.eqb].
  cbn in Hd, Hdd |- *. rewrite Hd, Hdd. reflexivity.
Qed.

Lemma saveImageLocally_Ok
    (env : Local.Env) (imageFile : FileHeader) (w w' : Local.World)
    (path : string) :
  Local.saveImageLocally env imageFile w = (Ok path, w') ->
  path = Filepath.Join Local.imageDir (Filename imageFile)
  /\ Local.dirs w' = {[Local.imageDir]} ∪ Local.dirs w
  /\ Local.files w' = <[path := Content imageFile]> (Local.files w).
Proof.
  unfold Local.saveImageLocally.
  destruct (Local.MkdirAll_err env); [discriminate|].
  destruct (Local.Open_err env); [discriminate|].
  destruct (Local.Create_err env); [discriminate|].
  destruct (Local.Copy_err env); [discriminate|].
  intros H. injection H as <- <-. cbn.
  repeat split. apply insert_insert_eq.
Qed.

(** C8.  A successful [saveImageLocally] leaves the directory [./images]
    in existence, leaves the uploaded bytes in the file at the join of that
    directory and the original file name, and returns that path, which for
    a file name of one path element reads [images/<name>].  A later
    successful upload under the same file name gets the same path, and the
    file then holds the later bytes. *)
Theorem saveImageLocally_result
    (env : Local.Env) (imageFile : FileHeader) (w w' : Local.World)
    (path : string) :
  Local.saveImageLocally env imageFile w = (Ok path, w') ->
  path = Filepath.Join Local.imageDir (Filename imageFile)
  /\ Local.imageDir ∈ Local.dirs w'
  /\ Local.files w' !! path = Some (Content imageFile)
  /\ (plain_name (Filename imageFile) = true ->
      path = "images/" +:+ Filename imageFile)
  /\ (forall (env2 : Local.Env) (imageFile2 : FileHeader)
             (w'' : Local.World) (path2 : string),
         Filename imageFile2 = Filename imageFile ->
         Local.saveImageLocally env2 imageFile2 w' = (Ok path2, w'') ->
         path2 = path
         /\ Local.files w'' !! path = Some (Content imageFile2)).
Proof.
  intros H. destruct (saveImageLocally_Ok _ _ _ _ _ H) as (Hp & Hd & Hf).
  split; [exact Hp|]. split; [rewrite Hd; apply elem_of_union_l, elem_of_singleton; reflexivity|].
  split; [rewrite Hf; apply lookup_insert_eq|].
  split.
  - intros Hn. rewrite Hp. now apply Join_plain_name.
  - intros env2 imageFile2 w'' path2 Hname H2.
    destruct (saveImageLocally_Ok _ _ _ _ _ H2) as (Hp2 & _ & Hf2).
    rewrite Hname, <- Hp in Hp2. subst path2.
    split; [reflexivity|]. rewrite Hf2. apply lookup_insert_eq.
Qed.

Lemma saveImageLocally_result_witness :
  exists w' : Local.World,
    Local.saveImageLocally Samples.local_env Samples.cover Samples.local_world
    = (Ok "images/cover.jpg", w')
    /\ Local.imageDir ∈ Local.dirs w'
    /\ Local.files w' !! "images/cover.jpg" = Some "JFIF".
Proof.
  eexists. split; [reflexivity|].
  destruct (saveImageLocally_result Samples.local_env Samples.cover
              Samples.local_world _ "images/cover.jpg" eq_refl)
    as (_ & Hd & Hf & _).
  split; [exact Hd | exact Hf].
Defined.

(** * Creation *)

Lemma remote_db_insert_Ok
    (env : Remote.Env) (imageURL artist title year : string)
    (w w' : Remote.World) (id : Z) :
  Remote.db_insert env imageURL artist title year w = (Ok id, w') ->
  exists row : Remote.Row,
    Remote.make_row (Remote.sql_strict env) imageURL artist title year = Ok row
    /\ Remote.albums w' = <[id := row]> (Remote.albums w)
    /\ Remote.db_log w'
       = Remote.db_log w
         ++ [Remote.Exec Remote.insert_sql [imageURL; artist; title; year]].
Proof.
  unfold Remote.db_insert.
  destruct (Remote.Exec_err env); [discriminate|].
  destruct (Remote.make_row _ _ _ _ _) as [row|e]; [|discriminate].
  cbn [Remote.log_call Remote.albums Remote.auto_increment Remote.db_log
       Remote.objects].
  destruct (_ || _); [discriminate|].
  intros H. injection H as <- <-. cbn. eauto.
Qed.

Lemma uploadToS3_db
    (env : Remote.Env) (header : FileHeader) (w : Remote.World) :
  let w1 := snd (Remote.uploadToS3 env header w) in
  Remote.albums w1 = Remote.albums w
  /\ Remote.auto_increment w1 = Remote.auto_increment w
  /\ Remote.db_log w1 = Remote.db_log w.
Proof.
  unfold Remote.uploadToS3.
  destruct (Remote.TempFile_err env); [now cbn|].
  destruct (Remote.Copy_err env); [now cbn|].
  destruct (Remote.PutObject_err env); now cbn.
Qed.

(** What a 200 answer of [newAlbum] says about the run. *)
Lemma newAlbum_OK
    (env : Remote.Env) (req : Request) (w w' : Remote.World)
    (resp : Remote.Response) :
  Remote.newAlbum env req w = (resp, w') ->
  Remote.Status resp = StatusOK ->
  exists (id imageSize : Z) (imageURL : string) (row : Remote.Row),
    resp = Remote.JSON StatusOK (Remote.H_created id imageSize)
    /\ Remote.make_row (Remote.sql_strict env) imageURL
         (PostForm req "profile[artist]") (PostForm req "profile[title]")
         (PostForm req "profile[year]") = Ok row
    /\ Remote.albums w' = <[id := row]> (Remote.albums w)
    /\ Remote.db_log w'
       = Remote.db_log w
         ++ [Remote.Exec Remote.insert_sql
               [imageURL; PostForm req "profile[artist]";
                PostForm req "profile[title]"; PostForm req "profile[year]"]].
Proof.
  unfold Remote.newAlbum.
  destruct (FormFile req "image") as [header|e].
  2:{ intros H. injection H as <- <-. discriminate. }
  pose proof (uploadToS3_db env header w) as U.
  destruct (Remote.uploadToS3 env header w) as [[[imageURL imageSize]|e] w1].
  2:{ intros H. injection H as <- <-. discriminate. }
  cbn in U. destruct U as (Ua & _ & Ul).
  destruct (Remote.db_insert env imageURL _ _ _ w1) as [[id|e] w2] eqn:I.
  2:{ intros H. injection H as <- <-. discriminate. }
  intros H _. injection H as <- <-.
  destruct (remote_db_insert_Ok _ _ _ _ _ _ _ _ I) as (row & Hr & Ha & Hl).
  exists id, imageSize, imageURL, row.
  rewrite Ha, Hl, Ua, Ul. auto.
Qed.

Lemma local_db_insert_Ok
    (env : Local.Env) (imagePath metadataJSON : string)
    (w w' : Local.World) (id : Z) :
  Local.db_insert env imagePath metadataJSON w = (Ok id, w') ->
  exists u : string,
    varchar (Local.sql_strict env) 255 "image_url" imagePath = Ok u
    /\ Local.albums w'
       = <[id := {| Local.image_url := u; Local.metadata := metadataJSON |}]>
           (Local.albums w)
    /\ Local.db_log w'
       = Local.db_log w
         ++ [Local.Exec Local.insert_sql [imagePath; metadataJSON]].
Proof.
  unfold Local.db_insert.
  destruct (Local.Exec_err env); [discriminate|].
  destruct (varchar _ _ _ _) as [u|e]; [|discriminate].
  cbn [Local.log_call Local.albums Local.auto_increment Local.db_log].
  destruct (_ || _); [discriminate|].
  intros H. injection H as <- <-. cbn. eauto.
Qed.

(** What a 200 answer of the local [POST /albums] says about the run. *)
Lemma POST_albums_OK
    (env : Local.Env) (req : Request) (w w' : Local.World)
    (resp : Local.Response) :
  Local.POST_albums env req w = (resp, w') ->
  Local.Status resp = StatusOK ->
  exists (id : Z) (imagePath u doc : string),
    resp = Local.JSON StatusOK (Local.H_created id imagePath)
    /\ Json.Marshal {| Json.Artist := PostForm req "artist";
                       Json.Title := PostForm req "title";
                       Json.Year := PostForm req "year" |} = Ok doc
    /\ Local.albums w'
       = <[id := {| Local.image_url := u; Local.metadata := doc |}]>
           (Local.albums w)
    /\ Local.db_log w'
       = Local.db_log w ++ [Local.Exec Local.insert_sql [imagePath; doc]].
Proof.
  unfold Local.POST_albums.
  destruct (FormFile req "image") as [imageFile|e].
  2:{ intros H. injection H as <- <-. discriminate. }
  pose proof (saveImageLocally_db env imageFile w) as U.
  destruct (Local.saveImageLocally env imageFile w) as [[imagePath|e] w1].
  2:{ intros H. injection H as <- <-. discriminate. }
  cbn in U. destruct U as (Ua & _ & Ul).
  destruct (Json.Marshal _) as [doc|e] eqn:M.
  2:{ intros H. injection H as <- <-. discriminate. }
  destruct (Local.db_insert env imagePath doc w1) as [[id|e] w2] eqn:I.
  2:{ intros H. injection H as <- <-. discriminate. }
  intros H _. injection H as <- <-.
  destruct (local_db_insert_Ok _ _ _ _ _ _ I) as (u & Hu & Ha & Hl).
  exists id, imagePath, u, doc.
  rewrite Ha, Hl, Ua, Ul. auto.
Qed.

(** C3 (as amended).  The local variant reads the metadata from the fields
    [artist], [title] and [year], the remote variant from
    [profile[artist]], [profile[title]] and [profile[year]].  When the
    handler answers 200, the values of those fields are the parameters of
    the one INSERT it made, and the row under the returned key is what the
    engine made of them.  Remote variant first, local variant second. *)
Theorem metadata_field_names :
  (forall (env : Remote.Env) (req : Request) (w w' : Remote.World)
          (resp : Remote.Response),
      Remote.newAlbum env req w = (resp, w') ->
      Remote.Status resp = StatusOK ->
      exists (id imageSize : Z) (imageURL : string) (row : Remote.Row),
        resp = Remote.JSON StatusOK (Remote.H_created id imageSize)
        /\ Remote.db_log w'
           = Remote.db_log w
             ++ [Remote.Exec Remote.insert_sql
                   [imageURL; PostForm req "profile[artist]";
                    PostForm req "profile[title]";
                    PostForm req "profile[year]"]]
        /\ Remote.make_row (Remote.sql_strict env) imageURL
             (PostForm req "profile[artist]") (PostForm req "profile[title]")
             (PostForm req "profile[year]") = Ok row
        /\ Remote.albums w' !! id = Some row)
  /\
  (forall (env : Local.Env) (req : Request) (w w' : Local.World)
          (resp : Local.Response),
      Local.POST_albums env req w = (resp, w') ->
      Local.Status resp = StatusOK ->
      exists (id : Z) (imagePath u doc : string),
        resp = Local.JSON StatusOK (Local.H_created id imagePath)
        /\ Local.db_log w'
           = Local.db_log w ++ [Local.Exec Local.insert_sql [imagePath; doc]]
        /\ Json.Marshal {| Json.Artist := PostForm req "artist";
                           Json.Title := PostForm req "title";
                           Json.Year := PostForm req "year" |} = Ok doc
        /\ Local.albums w' !! id
           = Some {| Local.image_url := u; Local.metadata := doc |}).
Proof.
  split.
  - intros env req w w' resp H S.
    destruct (newAlbum_OK env req w w' resp H S)
      as (id & size & url & row & Hr & Hm & Ha & Hl).
    exists id, size, url, row. rewrite Ha, lookup_insert_eq. auto.
  - intros env req w w' resp H S.
    destruct (POST_albums_OK env req w w' resp H S)
      as (id & path & u & doc & Hr & Hm & Ha & Hl).
    exists id, path, u, doc. rewrite Ha, lookup_insert_eq. auto.
Qed.

Lemma metadata_field_names_witness :
  (exists (id imageSize : Z) (imageURL : string) (row : Remote.Row),
      fst (Remote.newAlbum (Samples.remote_env true) Samples.remote_upload
             Samples.remote_world)
      = Remote.JSON StatusOK (Remote.H_created id imageSize)
      /\ Remote.db_log
           (snd (Remote.newAlbum (Samples.remote_env true)
                   Samples.remote_upload Samples.remote_world))
         = Remote.db_log Samples.remote_world
           ++ [Remote.Exec Remote.insert_sql
                 [imageURL; "Boards"; "Music Has..."; "1998"]]
      /\ Remote.make_row true imageURL "Boards" "Music Has..." "1998" = Ok row
      /\ Remote.albums
           (snd (Remote.newAlbum (Samples.remote_env true)
                   Samples.remote_upload Samples.remote_world)) !! id
         = Some row)
  /\
  (exists (id : Z) (imagePath u doc : string),
      fst (Local.POST_albums Samples.local_env Samples.plain_upload
             Samples.local_world)
      = Local.JSON StatusOK (Local.H_created id imagePath)
      /\ Local.db_log
           (snd (Local.POST_albums Samples.local_env Samples.plain_upload
                   Samples.local_world))
         = Local.db_log Samples.local_world
           ++ [Local.Exec Local.insert_sql [imagePath; doc]]
      /\ Json.Marshal {| Json.Artist := "Boards";
                         Json.Title := "Music Has...";
                         Json.Year := "1998" |} = Ok doc
      /\ Local.albums
           (snd (Local.POST_albums Samples.local_env Samples.plain_upload
                   Samples.local_world)) !! id
         = Some {| Local.image_url := u; Local.metadata := doc |}).
Proof.
  split.
  - apply (proj1 metadata_field_names (Samples.remote_env true)
             Samples.remote_upload Samples.remote_world).
    + apply surjective_pairing.
    + reflexivity.
  - apply (proj2 metadata_field_names Samples.local_env
             Samples.plain_upload Samples.local_world).
    + apply surjective_pairing.
    + reflexivity.
Defined.

(** C3, as stated, fails in the remote variant: the upload that names its
    fields [artist], [title] and [year] is accepted, and the row that is
    stored, and read back, has three empty strings. *)
Lemma metadata_field_names_remote_counterexample :
  PostForm Samples.plain_upload "artist" = "Boards"
  /\ fst (Remote.newAlbum (Samples.remote_env true) Samples.plain_upload
            Samples.remote_world)
     = Remote.JSON StatusOK (Remote.H_created 1 4)
  /\ fst (Remote.getAlbumByKey (Samples.remote_env true) "1"
            (snd (Remote.newAlbum (Samples.remote_env true)
                    Samples.plain_upload Samples.remote_world)))
     = Remote.JSON StatusOK
         (Remote.AlbumBody
            {| Remote.ID := 1;
               Remote.ImageURL :=
                 "https://albums-bucket.s3.amazonaws.com/images/6ba7b810-9dad-11d1-80b4-00c04fd430c8.jpg";
               Remote.Artist := ""; Remote.Title := ""; Remote.Year := "";
               Remote.ImageSize := 0 |}).
Proof. repeat split. Qed.

(** * Bytes and runes *)

Lemma chr_code (c : ascii) : chr (code c) = c.
Proof. unfold chr, code. rewrite N2Z.id. apply ascii_N_embedding. Qed.

Lemma code_range (c : ascii) : 0 <= code c < 256.
Proof.
  unfold code. pose proof (N_ascii_bounded c) as H. split; [lia|].
  change 256 with (Z.of_N 256). lia.
Qed.

Lemma code_chr (n : Z) : 0 <= n < 256 -> code (chr n) = n.
Proof.
  intros H. unfold chr, code. rewrite N_ascii_embedding; [lia|].
  change 256%N with (Z.to_N 256). lia.
Qed.

Lemma byte_of_code (n : Z) (c : ascii) : n mod 256 = code c -> Utf8.byte_of n = c.
Proof. intros H. unfold Utf8.byte_of. rewrite H. apply chr_code. Qed.

(** Bits that do not overlap add up. *)
Lemma lor_add (a b k : Z) :
  0 <= k -> 0 <= b < 2 ^ k -> a mod 2 ^ k = 0 -> Z.lor a b = a + b.
Proof.
  intros Hk Hb Ha.
  rewrite <- Z.add_lor_land.
  assert (E : Z.land a b = 0); [|lia].
  apply Z.bits_inj'. intros n Hn. rewrite Z.land_spec, Z.bits_0.
  destruct (Z.lt_ge_cases n k) as [Hlt|Hge].
  - rewrite <- (Z.mod_pow2_bits_low a k n) by lia.
    now rewrite Ha, Z.bits_0.
  - rewrite <- (Z.mod_small b (2 ^ k)) by lia.
    rewrite Z.mod_pow2_bits_high by lia. apply andb_false_r.
Qed.

Lemma cont_mod (b : Z) : Utf8.cont b = b mod 64.
Proof.
  unfold Utf8.cont. change 0x3F with (Z.ones 6). now apply Z.land_ones.
Qed.

Lemma low_bits (a k : Z) : 0 <= k -> Z.land a (Z.ones k) = a mod 2 ^ k.
Proof. apply Z.land_ones. Qed.

Lemma rune2 (p0 b1 : Z) :
  0xC0 <= p0 <= 0xDF -> 0x80 <= b1 <= 0xBF ->
  Z.lor (Z.shiftl (Z.land p0 0x1F) 6) (Utf8.cont b1)
  = (p0 - 0xC0) * 64 + (b1 - 0x80).
Proof.
  intros H0 H1. rewrite cont_mod.
  change 0x1F with (Z.ones 5). rewrite low_bits, Z.shiftl_mul_pow2 by lia.
  rewrite (lor_add _ _ 6) by (try apply Z_mod_mult; arith).
  arith.
Qed.

Lemma rune3 (p0 b1 b2 : Z) :
  0xE0 <= p0 <= 0xEF -> 0x80 <= b1 <= 0xBF -> 0x80 <= b2 <= 0xBF ->
  Z.lor (Z.lor (Z.shiftl (Z.land p0 0x0F) 12) (Z.shiftl (Utf8.cont b1) 6))
        (Utf8.cont b2)
  = (p0 - 0xE0) * 4096 + (b1 - 0x80) * 64 + (b2 - 0x80).
Proof.
  intros H0 H1 H2. rewrite !cont_mod.
  change 0x0F with (Z.ones 4). rewrite low_bits, !Z.shiftl_mul_pow2 by lia.
  rewrite (lor_add _ (_ * 2 ^ 6) 12) by (try apply Z_mod_mult; arith).
  rewrite (lor_add _ _ 6) by arith.
  arith.
Qed.

Lemma rune4 (p0 b1 b2 b3 : Z) :
  0xF0 <= p0 <= 0xF7 -> 0x80 <= b1 <= 0xBF -> 0x80 <= b2 <= 0xBF ->
  0x80 <= b3 <= 0xBF ->
  Z.lor (Z.lor (Z.lor (Z.shiftl (Z.land p0 0x07) 18)
                      (Z.shiftl (Utf8.cont b1) 12))
               (Z.shiftl (Utf8.cont b2) 6)) (Utf8.cont b3)
  = (p0 - 0xF0) * 262144 + (b1 - 0x80) * 4096 + (b2 - 0x80) * 64
    + (b3 - 0x80).
Proof.
  intros H0 H1 H2 H3. rewrite !cont_mod.
  change 0x07 with (Z.ones 3). rewrite low_bits, !Z.shiftl_mul_pow2 by lia.
  rewrite (lor_add _ (_ * 2 ^ 12) 18) by (try apply Z_mod_mult; arith).
  rewrite (lor_add _ (_ * 2 ^ 6) 12) by arith.
  rewrite (lor_add _ _ 6) by arith.
  arith.
Qed.

(** What [DecodeRune] returns at a two-byte encoding. *)
Lemma DecodeRune_2 (c0 c1 : ascii) (t : string) (r : Z) :
  Utf8.DecodeRune (String c0 (String c1 t)) = (r, 2%nat) ->
  0xC2 <= code c0 <= 0xDF /\ 0x80 <= code c1 <= 0xBF
  /\ r = (code c0 - 0xC0) * 64 + (code c1 - 0x80).
Proof.
  unfold Utf8.DecodeRune, Utf8.RuneSelf. intros H.
  split_ifs; try discriminate; bool_to_Z;
    injection H as <-; rewrite rune2 by lia; lia.
Qed.

Lemma DecodeRune_3 (c0 c1 c2 : ascii) (t : string) (r : Z) :
  Utf8.DecodeRune (String c0 (String c1 (String c2 t))) = (r, 3%nat) ->
  0xE0 <= code c0 <= 0xEF /\ 0x80 <= code c1 <= 0xBF
  /\ (code c0 = 0xE0 -> 0xA0 <= code c1)
  /\ (code c0 = 0xED -> code c1 <= 0x9F)
  /\ 0x80 <= code c2 <= 0xBF
  /\ r = (code c0 - 0xE0) * 4096 + (code c1 - 0x80) * 64 + (code c2 - 0x80).
Proof.
  unfold Utf8.DecodeRune, Utf8.RuneSelf. intros H.
  split_ifs; try discriminate; bool_to_Z;
    injection H as <-; rewrite rune3 by lia; lia.
Qed.

Lemma DecodeRune_4 (c0 c1 c2 c3 : ascii) (t : string) (r : Z) :
  Utf8.DecodeRune (String c0 (String c1 (String c2 (String c3 t))))
  = (r, 4%nat) ->
  0xF0 <= code c0 <= 0xF4 /\ 0x80 <= code c1 <= 0xBF
  /\ (code c0 = 0xF0 -> 0x90 <= code c1)
  /\ (code c0 = 0xF4 -> code c1 <= 0x8F)
  /\ 0x80 <= code c2 <= 0xBF /\ 0x80 <= code c3 <= 0xBF
  /\ r = (code c0 - 0xF0) * 262144 + (code c1 - 0x80) * 4096
         + (code c2 - 0x80) * 64 + (code c3 - 0x80).
Proof.
  unfold Utf8.DecodeRune, Utf8.RuneSelf. intros H.
  split_ifs; try discriminate; bool_to_Z;
    injection H as <-; rewrite rune4 by lia; lia.
Qed.

(** The width [DecodeRune] reports is backed by as many bytes. *)
Lemma DecodeRune_width (s : string) (r : Z) (n : nat) :
  Utf8.DecodeRune s = (r, n) ->
  match n with
  | 0%nat => s = ""
  | 1%nat => exists c0 t, s = String c0 t
             /\ (r = code c0 /\ code c0 < 0x80
                 \/ r = Utf8.RuneError /\ 0x80 <= code c0)
  | 2%nat => exists c0 c1 t, s = String c0 (String c1 t)
  | 3%nat => exists c0 c1 c2 t, s = String c0 (String c1 (String c2 t))
  | 4%nat => exists c0 c1 c2 c3 t,
               s = String c0 (String c1 (String c2 (String c3 t)))
  | _ => False
  end.
Proof.
  unfold Utf8.DecodeRune, Utf8.RuneSelf. intros H.
  split_ifs; bool_to_Z; injection H as <- <-; eauto 8.
Qed.

(** The bytes after an encoding do not change what is decoded. *)
Lemma DecodeRune_2_tail (c0 c1 : ascii) (t t' : string) (r : Z) :
  Utf8.DecodeRune (String c0 (String c1 t)) = (r, 2%nat) ->
  Utf8.DecodeRune (String c0 (String c1 t')) = (r, 2%nat).
Proof.
  unfold Utf8.DecodeRune. intros H.
  split_ifs; try discriminate; exact H.
Qed.

Lemma DecodeRune_3_tail (c0 c1 c2 : ascii) (t t' : string) (r : Z) :
  Utf8.DecodeRune (String c0 (String c1 (String c2 t))) = (r, 3%nat) ->
  Utf8.DecodeRune (String c0 (String c1 (String c2 t'))) = (r, 3%nat).
Proof.
  unfold Utf8.DecodeRune. intros H.
  split_ifs; try discriminate; exact H.
Qed.

Lemma DecodeRune_4_tail (c0 c1 c2 c3 : ascii) (t t' : string) (r : Z) :
  Utf8.DecodeRune (String c0 (String c1 (String c2 (String c3 t))))
  = (r, 4%nat) ->
  Utf8.DecodeRune (String c0 (String c1 (String c2 (String c3 t'))))
  = (r, 4%nat).
Proof.
  unfold Utf8.DecodeRune. intros H.
  split_ifs; try discriminate; exact H.
Qed.

Ltac byte_eq k :=
  apply byte_of_code;
  rewrite ?cont_mod, ?Z.shiftr_div_pow2 by lia;
  rewrite (lor_add _ _ k) by arith;
  arith.

(** Encoding the rune of a valid encoding gives the bytes back. *)
Lemma EncodeRune_DecodeRune_2 (c0 c1 : ascii) (t : string) (r : Z) :
  Utf8.DecodeRune (String c0 (String c1 t)) = (r, 2%nat) ->
  Utf8.EncodeRune r = String c0 (String c1 "").
Proof.
  intros H. apply DecodeRune_2 in H as (H0 & H1 & ->).
  unfold Utf8.EncodeRune.
  destruct (Z.leb_spec ((code c0 - 192) * 64 + (code c1 - 128)) 0x7F); [lia|].
  destruct (Z.leb_spec ((code c0 - 192) * 64 + (code c1 - 128)) 0x7FF); [|lia].
  f_equal; [|f_equal]; byte_eq 6.
Qed.

Lemma EncodeRune_DecodeRune_3 (c0 c1 c2 : ascii) (t : string) (r : Z) :
  Utf8.DecodeRune (String c0 (String c1 (String c2 t))) = (r, 3%nat) ->
  Utf8.EncodeRune r = String c0 (String c1 (String c2 "")).
Proof.
  intros H. apply DecodeRune_3 in H as (H0 & H1 & Hlo & Hhi & H2 & ->).
  unfold Utf8.EncodeRune, Utf8.MaxRune.
  set (r := (code c0 - 224) * 4096 + (code c1 - 128) * 64 + (code c2 - 128)).
  assert (Hr : 0x800 <= r <= 0xFFFF /\ ~ (0xD800 <= r <= 0xDFFF)) by lia.
  destruct (Z.leb_spec r 0x7F); [lia|].
  destruct (Z.leb_spec r 0x7FF); [lia|].
  destruct (Z.ltb_spec 0x10FFFF r); [lia|].
  destruct (Z.leb_spec 0xD800 r), (Z.leb_spec r 0xDFFF); try lia;
    cbn [orb andb];
    (destruct (Z.leb_spec r 0xFFFF); [|lia]);
    unfold Utf8.encode3; subst r;
    (f_equal; [|f_equal; [|f_equal]]); first [byte_eq 5 | byte_eq 6].
Qed.

Lemma EncodeRune_DecodeRune_4 (c0 c1 c2 c3 : ascii) (t : string) (r : Z) :
  Utf8.DecodeRune (String c0 (String c1 (String c2 (String c3 t))))
  = (r, 4%nat) ->
  Utf8.EncodeRune r = String c0 (String c1 (String c2 (String c3 ""))).
Proof.
  intros H. apply DecodeRune_4 in H as (H0 & H1 & Hlo & Hhi & H2 & H3 & ->).
  unfold Utf8.EncodeRune, Utf8.MaxRune.
  set (r := (code c0 - 240) * 262144 + (code c1 - 128) * 4096
            + (code c2 - 128) * 64 + (code c3 - 128)).
  assert (Hr : 0x10000 <= r <= 0x10FFFF) by lia.
  destruct (Z.leb_spec r 0x7F); [lia|].
  destruct (Z.leb_spec r 0x7FF); [lia|].
  destruct (Z.ltb_spec 0x10FFFF r); [lia|].
  destruct (Z.leb_spec 0xD800 r), (Z.leb_spec r 0xDFFF); try lia;
    cbn [orb andb];
    (destruct (Z.leb_spec r 0xFFFF); [lia|]);
    subst r;
    (f_equal; [|f_equal; [|f_equal; [|f_equal]]]);
    first [byte_eq 4 | byte_eq 6].
Qed.

(** * Strings through [json.Marshal] and [json.Unmarshal] *)

Lemma DecodeRune_ascii (c0 : ascii) (t : string) :
  code c0 < 0x80 -> Utf8.DecodeRune (String c0 t) = (code c0, 1%nat).
Proof.
  intros H. unfold Utf8.DecodeRune, Utf8.RuneSelf.
  destruct (Z.ltb_spec (code c0) 128); [reflexivity | lia].
Qed.

Lemma DecodeRune_high (c0 : ascii) (t : string) (r : Z) (n : nat) :
  0x80 <= code c0 -> Utf8.DecodeRune (String c0 t) = (r, n) ->
  (n = 1%nat /\ r = Utf8.RuneError) \/ n = 2%nat \/ n = 3%nat \/ n = 4%nat.
Proof.
  intros H0 H. pose proof (DecodeRune_width _ _ _ H) as W.
  destruct n as [|[|[|[|[|n]]]]]; try tauto; try discriminate.
  destruct W as (c & t' & E & [[_ Hlt]|[-> _]]); [|tauto].
  injection E as <- <-. lia.
Qed.

(** *** What the decoder does with each kind of input *)

Lemma unquote_plain (c : ascii) (t : string) :
  32 <= code c < 128 -> code c <> 34 -> code c <> 92 ->
  Json.unquote (String c t) = Json.prepend (String c "") (Json.unquote t).
Proof.
  intros H1 H2 H3. cbn [Json.unquote]. unfold Utf8.RuneSelf.
  destruct (Z.eqb_spec (code c) 34); [lia|].
  destruct (Z.eqb_spec (code c) 92); [lia|].
  destruct (Z.ltb_spec (code c) 32); [lia|].
  destruct (Z.ltb_spec (code c) 128); [reflexivity|lia].
Qed.

(** One step of [unquote]. *)
Lemma unquote_cons (c : ascii) (r : string) :
  Json.unquote (String c r)
  = ltac:(let t := eval cbn [Json.unquote] in (Json.unquote (String c r)) in
          exact t).
Proof. reflexivity. Qed.

Lemma unquote_escaped_same (e : ascii) (t : string) :
  code e = 34 \/ code e = 92 ->
  Json.unquote (String "\" (String e t))
  = Json.prepend (String e "") (Json.unquote t).
Proof.
  intros H. rewrite unquote_cons.
  change (code "\") with 92. cbv beta iota delta [Z.eqb Pos.eqb].
  destruct H as [-> | ->]; reflexivity.
Qed.

Lemma unquote_u (h1 h2 h3 h4 : ascii) (t : string) (rr : Z) :
  Json.hex4 h1 h2 h3 h4 = Some rr -> Json.IsSurrogate rr = false ->
  Json.unquote
    (String "\" (String "u" (String h1 (String h2 (String h3 (String h4 t))))))
  = Json.prepend (Utf8.EncodeRune rr) (Json.unquote t).
Proof.
  intros H S. rewrite unquote_cons.
  change (code "\") with 92. change (code "u") with 117.
  cbv beta iota delta [Z.eqb Pos.eqb orb].
  now rewrite H, S.
Qed.

Lemma unquote_2 (c0 c1 : ascii) (t : string) (rr : Z) :
  Utf8.DecodeRune (String c0 (String c1 t)) = (rr, 2%nat) ->
  Json.unquote (String c0 (String c1 t))
  = Json.prepend (String c0 (String c1 "")) (Json.unquote t).
Proof.
  intros H. pose proof (DecodeRune_2 _ _ _ _ H) as (H0 & _).
  pose proof (EncodeRune_DecodeRune_2 _ _ _ _ H) as E.
  cbn [Json.unquote]. unfold Utf8.RuneSelf. rewrite H, E.
  destruct (Z.eqb_spec (code c0) 34); [lia|].
  destruct (Z.eqb_spec (code c0) 92); [lia|].
  destruct (Z.ltb_spec (code c0) 32); [lia|].
  destruct (Z.ltb_spec (code c0) 128); [lia|reflexivity].
Qed.

Lemma unquote_3 (c0 c1 c2 : ascii) (t : string) (rr : Z) :
  Utf8.DecodeRune (String c0 (String c1 (String c2 t))) = (rr, 3%nat) ->
  Json.unquote (String c0 (String c1 (String c2 t)))
  = Json.prepend (String c0 (String c1 (String c2 ""))) (Json.unquote t).
Proof.
  intros H. pose proof (DecodeRune_3 _ _ _ _ _ H) as (H0 & _).
  pose proof (EncodeRune_DecodeRune_3 _ _ _ _ _ H) as E.
  cbn [Json.unquote]. unfold Utf8.RuneSelf. rewrite H, E.
  destruct (Z.eqb_spec (code c0) 34); [lia|].
  destruct (Z.eqb_spec (code c0) 92); [lia|].
  destruct (Z.ltb_spec (code c0) 32); [lia|].
  destruct (Z.ltb_spec (code c0) 128); [lia|reflexivity].
Qed.

Lemma unquote_4 (c0 c1 c2 c3 : ascii) (t : string) (rr : Z) :
  Utf8.DecodeRune (String c0 (String c1 (String c2 (String c3 t))))
  = (rr, 4%nat) ->
  Json.unquote (String c0 (String c1 (String c2 (String c3 t))))
  = Json.prepend (String c0 (String c1 (String c2 (String c3 ""))))
      (Json.unquote t).
Proof.
  intros H. pose proof (DecodeRune_4 _ _ _ _ _ _ H) as (H0 & _).
  pose proof (EncodeRune_DecodeRune_4 _ _ _ _ _ _ H) as E.
  cbn [Json.unquote]. unfold Utf8.RuneSelf. rewrite H, E.
  destruct (Z.eqb_spec (code c0) 34); [lia|].
  destruct (Z.eqb_spec (code c0) 92); [lia|].
  destruct (Z.ltb_spec (code c0) 32); [lia|].
  destruct (Z.ltb_spec (code c0) 128); [lia|reflexivity].
Qed.

Lemma hexval_hex (n : Z) : 0 <= n < 16 -> Json.hexval (Json.hex n) = Some n.
Proof.
  intros H. unfold Json.hexval, Json.hex.
  destruct (Z.ltb_spec n 10) as [Hdec|Hlet]; rewrite code_chr by lia.
  - destruct (Z.leb_spec 48 (48 + n)); [|lia].
    destruct (Z.leb_spec (48 + n) 57); [|lia].
    cbn [andb]. f_equal. lia.
  - destruct (Z.leb_spec 48 (87 + n)); [|lia].
    destruct (Z.leb_spec (87 + n) 57); [lia|].
    destruct (Z.leb_spec 97 (87 + n)); [|lia].
    destruct (Z.leb_spec (87 + n) 102); [|lia].
    cbn [andb]. f_equal. lia.
Qed.

Lemma hex4_byte (b : Z) :
  0 <= b < 256 ->
  Json.hex4 "0" "0" (Json.hex (Z.shiftr b 4)) (Json.hex (Z.land b 0xF))
  = Some b.
Proof.
  intros H. unfold Json.hex4.
  change 0xF with (Z.ones 4).
  rewrite low_bits, Z.shiftr_div_pow2 by lia.
  rewrite !hexval_hex by arith.
  change (Json.hexval "0") with (Some 0). f_equal. arith.
Qed.

Lemma EncodeRune_ascii (c : ascii) :
  code c < 0x80 -> Utf8.EncodeRune (code c) = String c "".
Proof.
  intros H. pose proof (code_range c). unfold Utf8.EncodeRune.
  destruct (Z.leb_spec (code c) 0x7F); [|lia].
  f_equal. apply byte_of_code. arith.
Qed.

(** An escaped ASCII byte is read back as that byte. *)
Lemma unquote_escape (c : ascii) (t : string) :
  code c < 0x80 ->
  Json.unquote (Json.escape c +:+ t)
  = Json.prepend (String c "") (Json.unquote t).
Proof.
  intros H. pose proof (code_range c) as R. unfold Json.escape.
  destruct (Z.eqb_spec (code c) 92) as [E|_].
  { apply unquote_escaped_same. now right. }
  destruct (Z.eqb_spec (code c) 34) as [E|_].
  { apply unquote_escaped_same. now left. }
  cbn [orb].
  destruct (Z.eqb_spec (code c) 8) as [E|_].
  { rewrite <- (chr_code c), E. reflexivity. }
  destruct (Z.eqb_spec (code c) 12) as [E|_].
  { rewrite <- (chr_code c), E. reflexivity. }
  destruct (Z.eqb_spec (code c) 10) as [E|_].
  { rewrite <- (chr_code c), E. reflexivity. }
  destruct (Z.eqb_spec (code c) 13) as [E|_].
  { rewrite <- (chr_code c), E. reflexivity. }
  destruct (Z.eqb_spec (code c) 9) as [E|_].
  { rewrite <- (chr_code c), E. reflexivity. }
  change (("\u00" +:+ String (Json.hex (Z.shiftr (code c) 4))
                        (String (Json.hex (Z.land (code c) 15)) "")) +:+ t)
    with (String "\" (String "u" (String "0" (String "0"
            (String (Json.hex (Z.shiftr (code c) 4))
               (String (Json.hex (Z.land (code c) 15)) t)))))).
  rewrite (unquote_u _ _ _ _ _ (code c)).
  - now rewrite EncodeRune_ascii.
  - now apply hex4_byte.
  - unfold Json.IsSurrogate.
    destruct (Z.leb_spec 0xD800 (code c)); [lia | reflexivity].
Qed.

(** The decoder reads the encoding of a string up to the closing quote
    and returns the string coerced to valid UTF-8. *)
Lemma unquote_encode_chars_bounded (n : nat) :
  forall s rest : string,
    (String.length s <= n)%nat ->
    Json.unquote (Json.encode_chars s +:+ String Json.quote rest)
    = Some (Utf8.coerce s, rest).
Proof.
  induction n as [|n IH]; intros s rest Hlen.
  { destruct s; [reflexivity | cbn in Hlen; lia]. }
  destruct s as [|c0 r0]; [reflexivity|]. cbn [String.length] in Hlen.
  destruct (Z.ltb_spec (code c0) 0x80) as [Hlow|Hhigh].
  - (* one ASCII byte *)
    cbn [Json.encode_chars Utf8.coerce]. unfold Utf8.RuneSelf.
    rewrite (DecodeRune_ascii c0 r0 Hlow).
    destruct (Z.ltb_spec (code c0) 128); [|lia].
    assert (Hne : (code c0 =? Utf8.RuneError) = false).
    { apply Z.eqb_neq. unfold Utf8.RuneError. lia. }
    rewrite Hne.
    assert (Hco : match r0 with
                  | "" | _ => String c0 (Utf8.coerce r0)
                  end = String c0 (Utf8.coerce r0)) by now destruct r0.
    destruct (Json.htmlSafe (code c0)) eqn:Hs.
    + rewrite append_assoc, append_cons, append_empty_l.
      unfold Json.htmlSafe in Hs.
      apply andb_prop in Hs as [Hs1 Hs2]. apply negb_true_iff in Hs2.
      bool_to_Z.
      rewrite unquote_plain by lia.
      rewrite IH by lia. now destruct r0.
    + rewrite append_assoc, unquote_escape by lia.
      rewrite IH by lia. now destruct r0.
  - (* a byte that is not ASCII *)
    destruct (Utf8.DecodeRune (String c0 r0)) as [r k] eqn:D.
    pose proof (DecodeRune_width _ _ _ D) as W.
    destruct (DecodeRune_high _ _ _ _ Hhigh D)
      as [[-> ->] | [-> | [-> | ->]]].
    + (* no valid encoding starts here *)
      cbn [Json.encode_chars Utf8.coerce]. unfold Utf8.RuneSelf. rewrite D.
      destruct (Z.ltb_spec (code c0) 128); [lia|].
      change ((Utf8.RuneError =? Utf8.RuneError) && (1 =? 1)%nat) with true.
      change (Utf8.RuneError =? Utf8.RuneError) with true. cbv iota.
      change (("\u" +:+ "fffd") +:+ Json.encode_chars r0)
        with (String "\" (String "u" (String "f" (String "f" (String "f"
                (String "d" (Json.encode_chars r0))))))).
      rewrite !append_cons.
      rewrite (unquote_u _ _ _ _ _ Utf8.RuneError) by reflexivity.
      rewrite IH by lia. now destruct r0.
    + (* two bytes *)
      destruct W as (c0' & c1 & t & E). injection E as <- ->.
      cbn [Json.encode_chars Utf8.coerce]. unfold Utf8.RuneSelf. rewrite D.
      destruct (Z.ltb_spec (code c0) 128); [lia|].
      rewrite andb_false_r. cbv iota. rewrite !append_cons.
      rewrite (unquote_2 _ _ _ r).
      2:{ now apply DecodeRune_2_tail with (t := t). }
      cbn [String.length] in Hlen. rewrite IH by lia. reflexivity.
    + (* three bytes *)
      destruct W as (c0' & c1 & c2 & t & E). injection E as <- ->.
      cbn [Json.encode_chars Utf8.coerce]. unfold Utf8.RuneSelf. rewrite D.
      destruct (Z.ltb_spec (code c0) 128); [lia|].
      rewrite andb_false_r. cbv iota.
      cbn [String.length] in Hlen.
      pose proof (EncodeRune_DecodeRune_3 _ _ _ _ _ D) as Enc.
      destruct (Z.eqb_spec r 0x2028) as [E1|_];
        [|destruct (Z.eqb_spec r 0x2029) as [E2|_]]; cbn [orb]; cbv iota.
      * subst r.
        change ("\u202" +:+ String (Json.hex (Z.land 8232 15))
                              (Json.encode_chars t))
          with (String "\" (String "u" (String "2" (String "0" (String "2"
                  (String "8" (Json.encode_chars t))))))).
        rewrite !append_cons.
        rewrite (unquote_u _ _ _ _ _ 0x2028) by reflexivity.
        rewrite Enc, IH by lia. reflexivity.
      * subst r.
        change ("\u202" +:+ String (Json.hex (Z.land 8233 15))
                              (Json.encode_chars t))
          with (String "\" (String "u" (String "2" (String "0" (String "2"
                  (String "9" (Json.encode_chars t))))))).
        rewrite !append_cons.
        rewrite (unquote_u _ _ _ _ _ 0x2029) by reflexivity.
        rewrite Enc, IH by lia. reflexivity.
      * rewrite !append_cons.
        rewrite (unquote_3 _ _ _ _ r).
        2:{ now apply DecodeRune_3_tail with (t := t). }
        rewrite IH by lia. reflexivity.
    + (* four bytes *)
      destruct W as (c0' & c1 & c2 & c3 & t & E). injection E as <- ->.
      cbn [Json.encode_chars Utf8.coerce]. unfold Utf8.RuneSelf. rewrite D.
      destruct (Z.ltb_spec (code c0) 128); [lia|].
      rewrite andb_false_r. cbv iota. rewrite !append_cons.
      rewrite (unquote_4 _ _ _ _ _ r).
      2:{ now apply DecodeRune_4_tail with (t := t). }
      cbn [String.length] in Hlen. rewrite IH by lia. reflexivity.
Qed.

Lemma unquote_encode_chars (s rest : string) :
  Json.unquote (Json.encode_chars s +:+ String Json.quote rest)
  = Some (Utf8.coerce s, rest).
Proof. now apply (unquote_encode_chars_bounded (String.length s)). Qed.

(** *** The document of an [AlbumMetadata] *)

Lemma appendString_app (s t : string) :
  Json.appendString s +:+ t
  = String Json.quote (Json.encode_chars s +:+ String Json.quote t).
Proof.
  unfold Json.appendString. now rewrite append_cons, append_assoc.
Qed.

(** One step of the parser. *)
Lemma parse_value_S (fuel : nat) (s : string) :
  Json.parse_value (S fuel) s
  = ltac:(let t := eval cbn [Json.parse_value] in
                     (Json.parse_value (S fuel) s) in exact t).
Proof. reflexivity. Qed.

Lemma parse_members_S (fuel : nat) (s : string) :
  Json.parse_members (S fuel) s
  = ltac:(let t := eval cbn [Json.parse_members] in
                     (Json.parse_members (S fuel) s) in exact t).
Proof. reflexivity. Qed.

Lemma skip_space_cons (c : ascii) (r : string) :
  Json.is_space c = false -> Json.skip_space (String c r) = String c r.
Proof. intros H. cbn [Json.skip_space]. now rewrite H. Qed.

(** A string literal is read as a string value. *)
Lemma parse_value_string (fuel : nat) (s rest : string) :
  Json.parse_value (S fuel)
    (String Json.quote (Json.encode_chars s +:+ String Json.quote rest))
  = Some (Json.Str (Utf8.coerce s), rest).
Proof.
  rewrite parse_value_S, skip_space_cons by reflexivity.
  change (code Json.quote) with 34.
  cbv beta iota zeta delta [Z.eqb Pos.eqb].
  now rewrite unquote_encode_chars.
Qed.

(** A member with a string value, followed by a comma. *)
Lemma parse_members_comma (fuel : nat) (k v rest : string) :
  Json.parse_members (S (S fuel))
    (String Json.quote (Json.encode_chars k +:+ String Json.quote
       (String ":" (String Json.quote (Json.encode_chars v +:+
          String Json.quote (String "," rest))))))
  = match Json.parse_members (S fuel) rest with
    | Some (ms, rest') =>
        Some ((Utf8.coerce k, Json.Str (Utf8.coerce v)) :: ms, rest')
    | None => None
    end.
Proof.
  rewrite parse_members_S, skip_space_cons by reflexivity.
  change (code Json.quote) with 34.
  cbv beta iota zeta delta [Z.eqb Pos.eqb].
  rewrite unquote_encode_chars, skip_space_cons by reflexivity.
  change (code ":") with 58.
  cbv beta iota zeta delta [Z.eqb Pos.eqb].
  rewrite parse_value_string, skip_space_cons by reflexivity.
  change (code ",") with 44.
  cbv beta iota zeta delta [Z.eqb Pos.eqb].
  reflexivity.
Qed.

(** The last member, followed by the closing brace. *)
Lemma parse_members_last (fuel : nat) (k v rest : string) :
  Json.parse_members (S (S fuel))
    (String Json.quote (Json.encode_chars k +:+ String Json.quote
       (String ":" (String Json.quote (Json.encode_chars v +:+
          String Json.quote (String "}" rest))))))
  = Some ([(Utf8.coerce k, Json.Str (Utf8.coerce v))], rest).
Proof.
  rewrite parse_members_S, skip_space_cons by reflexivity.
  change (code Json.quote) with 34.
  cbv beta iota zeta delta [Z.eqb Pos.eqb].
  rewrite unquote_encode_chars, skip_space_cons by reflexivity.
  change (code ":") with 58.
  cbv beta iota zeta delta [Z.eqb Pos.eqb].
  rewrite parse_value_string, skip_space_cons by reflexivity.
  change (code "}") with 125.
  cbv beta iota zeta delta [Z.eqb Pos.eqb].
  reflexivity.
Qed.

Lemma Marshal_document (m : Json.AlbumMetadata) :
  Json.Marshal m
  = Ok (document (Json.Artist m) (Json.Title m) (Json.Year m)).
Proof.
  unfold Json.Marshal, document. f_equal.
  rewrite !appendString_app. reflexivity.
Qed.

Lemma parse_value_document (fuel : nat) (a t y : string) :
  Json.parse_value (S (S (S (S (S fuel))))) (document a t y)
  = Some (Json.Object
            [("artist", Json.Str (Utf8.coerce a));
             ("title", Json.Str (Utf8.coerce t));
             ("year", Json.Str (Utf8.coerce y))], "").
Proof.
  unfold document.
  rewrite parse_value_S, skip_space_cons by reflexivity.
  change (code "{") with 123.
  cbv beta iota zeta delta [Z.eqb Pos.eqb].
  rewrite skip_space_cons by reflexivity.
  change (code Json.quote) with 34.
  cbv beta iota zeta delta [Z.eqb Pos.eqb].
  rewrite parse_members_comma, parse_members_comma, parse_members_last.
  reflexivity.
Qed.

Lemma length_document (a t y : string) :
  exists n, String.length (document a t y) = S (S (S (S n))).
Proof. unfold document. cbn [String.length]. eauto. Qed.

Lemma parse_document (a t y : string) :
  Json.parse (document a t y)
  = Some (Json.Object
            [("artist", Json.Str (Utf8.coerce a));
             ("title", Json.Str (Utf8.coerce t));
             ("year", Json.Str (Utf8.coerce y))]).
Proof.
  unfold Json.parse. destruct (length_document a t y) as [n ->].
  now rewrite parse_value_document.
Qed.

(** [Unmarshal] of the document into any struct: the three strings,
    coerced to valid UTF-8. *)
Lemma Unmarshal_document (a t y : string) (m0 : Json.AlbumMetadata) :
  Json.Unmarshal (document a t y) m0
  = Ok {| Json.Artist := Utf8.coerce a; Json.Title := Utf8.coerce t;
          Json.Year := Utf8.coerce y |}.
Proof.
  unfold Json.Unmarshal. rewrite parse_document. reflexivity.
Qed.

(** Coercion leaves valid UTF-8 as it is. *)
Lemma coerce_valid_bounded (n : nat) :
  forall s : string,
    (String.length s <= n)%nat ->
    Utf8.ValidString s = true -> Utf8.coerce s = s.
Proof.
  induction n as [|n IH]; intros s Hlen Hv.
  { destruct s; [reflexivity | cbn in Hlen; lia]. }
  destruct s as [|c0 r0]; [reflexivity|].
  cbn [String.length] in Hlen.
  cbn [Utf8.coerce Utf8.ValidString] in *.
  destruct (Utf8.DecodeRune (String c0 r0)) as [r k].
  assert (Hfall : negb (r =? Utf8.RuneError) && Utf8.ValidString r0 = true ->
                  (if r =? Utf8.RuneError
                   then Utf8.EncodeRune Utf8.RuneError +:+ Utf8.coerce r0
                   else String c0 (Utf8.coerce r0)) = String c0 r0).
  { intros H. apply andb_prop in H as [H1 H2].
    apply negb_true_iff in H1. rewrite H1, IH by (assumption || lia).
    reflexivity. }
  destruct k as [|[|[|[|[|k]]]]]; try (now apply Hfall).
  - destruct r0 as [|c1 r1]; [now apply Hfall|].
    cbn [String.length] in Hlen. rewrite IH by (assumption || lia).
    reflexivity.
  - destruct r0 as [|c1 [|c2 r2]]; try (now apply Hfall).
    cbn [String.length] in Hlen. rewrite IH by (assumption || lia).
    reflexivity.
  - destruct r0 as [|c1 [|c2 [|c3 r3]]]; try (now apply Hfall).
    cbn [String.length] in Hlen. rewrite IH by (assumption || lia).
    reflexivity.
Qed.

Lemma coerce_valid (s : string) :
  Utf8.ValidString s = true -> Utf8.coerce s = s.
Proof. now apply (coerce_valid_bounded (String.length s)). Qed.

(** * Creation, then lookup *)

Lemma varchar_fits (strict : bool) (n : nat) (col v : string) :
  (String.length v <= n)%nat -> varchar strict n col v = Ok v.
Proof.
  intros H. unfold varchar.
  destruct (Nat.leb_spec (String.length v) n); [reflexivity | lia].
Qed.

Lemma make_row_fits
    (strict : bool) (imageURL artist title year : string) (row : Remote.Row) :
  Remote.make_row strict imageURL artist title year = Ok row ->
  (String.length artist <= 255)%nat ->
  (String.length title <= 255)%nat ->
  (String.length year <= 10)%nat ->
  Remote.artist row = artist /\ Remote.title row = title
  /\ Remote.year row = year.
Proof.
  unfold Remote.make_row. intros H Ha Ht Hy.
  destruct (varchar strict 255 "image_url" imageURL) as [u|e]; [|discriminate].
  rewrite !varchar_fits in H by assumption.
  injection H as <-. cbn. auto.
Qed.

Lemma local_db_insert_albums
    (env : Local.Env) (imagePath metadataJSON : string) (w : Local.World) :
  let w' := snd (Local.db_insert env imagePath metadataJSON w) in
  Local.albums w' = Local.albums w
  \/ exists (id : Z) (u : string),
       Local.albums w'
       = <[id := {| Local.image_url := u; Local.metadata := metadataJSON |}]>
           (Local.albums w).
Proof.
  unfold Local.db_insert.
  destruct (Local.Exec_err env); [now left|].
  destruct (varchar _ _ _ _) as [u|e]; [|now left].
  cbn [Local.log_call Local.albums Local.auto_increment Local.db_log].
  destruct (_ || _); [now left|]. right. cbn. eauto.
Qed.

Lemma POST_albums_marshalled
    (env : Local.Env) (req : Request) (w : Local.World) :
  marshalled w -> marshalled (snd (Local.POST_albums env req w)).
Proof.
  intros Hw. unfold Local.POST_albums.
  destruct (FormFile req "image") as [imageFile|e]; [|exact Hw].
  pose proof (saveImageLocally_db env imageFile w) as U.
  destruct (Local.saveImageLocally env imageFile w) as [[imagePath|e] w1];
    cbn in U; destruct U as (Ua & _ & _).
  2:{ cbn. intros id row. rewrite Ua. apply Hw. }
  rewrite Marshal_document. cbn [Json.Artist Json.Title Json.Year].
  pose proof (local_db_insert_albums env imagePath
                (document (PostForm req "artist") (PostForm req "title")
                   (PostForm req "year")) w1) as I.
  destruct (Local.db_insert env imagePath _ w1) as [[id|e] w2];
    cbn in I |- *; intros k row;
    (destruct I as [-> | (id' & u & ->)];
     [rewrite Ua; apply Hw|]);
    (destruct (decide (id' = k)) as [->|Hne];
     [rewrite lookup_insert_eq; intros [= <-]; cbn; eauto
     |rewrite lookup_insert_ne by assumption; rewrite Ua; apply Hw]).
Qed.

Lemma GET_album_albums
    (env : Local.Env) (albumID : string) (w : Local.World) :
  Local.albums (snd (Local.GET_album env albumID w)) = Local.albums w.
Proof.
  unfold Local.GET_album, Local.db_select.
  destruct (Local.QueryRow_err env); [reflexivity|].
  destruct (Local.id_of_param env albumID) as [id|]; [|reflexivity].
  cbn [Local.log_call Local.albums].
  destruct (Local.albums w !! id) as [r|]; [|reflexivity].
  destruct (Json.Unmarshal _ _); reflexivity.
Qed.

Lemma created_by_POST_marshalled (w : Local.World) :
  created_by_POST w -> marshalled w.
Proof.
  induction 1 as [w He|env req w _ IH|env albumID w _ IH].
  - intros id row. rewrite He, lookup_empty. discriminate.
  - now apply POST_albums_marshalled.
  - intros id row. rewrite GET_album_albums. apply IH.
Qed.

(** The lookup of a row whose metadata [Marshal] wrote. *)
Lemma GET_album_document
    (env : Local.Env) (albumID : string) (w : Local.World) (id : Z)
    (u a t y : string) :
  Local.QueryRow_err env = None ->
  Local.id_of_param env albumID = Some id ->
  Local.albums w !! id
  = Some {| Local.image_url := u; Local.metadata := document a t y |} ->
  Local.GET_album env albumID w
  = (Local.JSON StatusOK
       (Local.InfoBody
          {| Local.AlbumID := id; Local.ImageURL := u;
             Local.Metadata :=
               {| Json.Artist := Utf8.coerce a; Json.Title := Utf8.coerce t;
                  Json.Year := Utf8.coerce y |} |}),
     Local.log_call (Local.QueryRow Local.select_sql albumID) w).
Proof.
  intros Hq Hid Hrow. unfold Local.GET_album, Local.db_select.
  rewrite Hq, Hid. cbn [Local.log_call Local.albums]. rewrite Hrow.
  cbn [Local.metadata Local.image_url]. now rewrite Unmarshal_document.
Qed.

(** C10.  In a world the local handlers have reached from an empty table,
    [json.Unmarshal] succeeds on the metadata column of every row, and a
    lookup that the database answers is never answered with 500. *)
Theorem stored_metadata_decodes (w : Local.World) :
  created_by_POST w ->
  (forall (id : Z) (row : Local.Row) (m0 : Json.AlbumMetadata),
      Local.albums w !! id = Some row ->
      exists md, Json.Unmarshal (Local.metadata row) m0 = Ok md)
  /\ (forall (env : Local.Env) (albumID : string),
         Local.QueryRow_err env = None ->
         Local.Status (fst (Local.GET_album env albumID w))
         <> StatusInternalServerError).
Proof.
  intros Hc. apply created_by_POST_marshalled in Hc. split.
  - intros id row m0 Hrow. destruct (Hc id row Hrow) as (a & t & y & ->).
    rewrite Unmarshal_document. eauto.
  - intros env albumID Hq.
    destruct (Local.id_of_param env albumID ≫= (Local.albums w !!.))
      as [row|] eqn:E.
    + destruct (Local.id_of_param env albumID) as [id|] eqn:Hid;
        [|discriminate].
      cbn in E. destruct (Hc id row E) as (a & t & y & Hm).
      destruct row as [u doc]. cbn in Hm. subst doc.
      rewrite (GET_album_document env albumID w id u a t y Hq Hid E).
      discriminate.
    + rewrite (GET_album_no_row env w albumID Hq E). discriminate.
Qed.

Lemma stored_metadata_decodes_witness :
  (exists md,
      Json.Unmarshal
        (document "Boards" "Music Has..." "1998")
        Local.zero_AlbumInfo.(Local.Metadata) = Ok md)
  /\ Local.Status
       (fst (Local.GET_album Samples.local_env "1"
               (snd (Local.POST_albums Samples.local_env
                       Samples.plain_upload Samples.local_world))))
     <> StatusInternalServerError.
Proof.
  destruct (stored_metadata_decodes
              (snd (Local.POST_albums Samples.local_env
                      Samples.plain_upload Samples.local_world)))
    as [Hrows Hget].
  - apply created_POST, created_empty. reflexivity.
  - split.
    + apply (Hrows 1
               {| Local.image_url := "images/cover.jpg";
                  Local.metadata :=
                    (document "Boards" "Music Has..." "1998") |}).
      reflexivity.
    + apply Hget. reflexivity.
Defined.

(** Creation answers 200 with the next key when nothing around it fails,
    the engine accepts the values and the key is free. *)
Lemma newAlbum_succeeds
    (env : Remote.Env) (req : Request) (w : Remote.World)
    (header : FileHeader) (row : Remote.Row) :
  FormFile req "image" = Ok header ->
  Remote.TempFile_err env = None ->
  Remote.Copy_err env = None ->
  Remote.PutObject_err env = None ->
  Remote.Exec_err env = None ->
  Remote.make_row (Remote.sql_strict env)
    ("https://" +:+ Remote.bucket env +:+ ".s3.amazonaws.com/" +:+ "images/"
     +:+ Remote.uuid_New env +:+ filepath_Ext (Filename header))
    (PostForm req "profile[artist]") (PostForm req "profile[title]")
    (PostForm req "profile[year]") = Ok row ->
  Remote.auto_increment w <= INT_MAX ->
  Remote.albums w !! Remote.auto_increment w = None ->
  fst (Remote.newAlbum env req w)
  = Remote.JSON StatusOK
      (Remote.H_created (Remote.auto_increment w)
         (Z.of_nat (String.length (Content header)))).
Proof.
  intros Hf Ht Hc Hp He Hrow Hmax Hfree.
  unfold Remote.newAlbum, Remote.uploadToS3, Remote.db_insert.
  rewrite Hf, Ht, Hc, Hp, He.
  cbn [Remote.log_call Remote.albums Remote.auto_increment Remote.db_log
       Remote.objects Remote.sql_strict].
  rewrite Hrow.
  destruct (Z.ltb_spec INT_MAX (Remote.auto_increment w)); [lia|].
  rewrite bool_decide_eq_false_2; [reflexivity|].
  rewrite Hfree. intros [x Hx]. discriminate.
Qed.

Lemma POST_albums_succeeds
    (env : Local.Env) (req : Request) (w : Local.World)
    (imageFile : FileHeader) (u : string) :
  FormFile req "image" = Ok imageFile ->
  Local.MkdirAll_err env = None ->
  Local.Open_err env = None ->
  Local.Create_err env = None ->
  Local.Copy_err env = None ->
  Local.Exec_err env = None ->
  varchar (Local.sql_strict env) 255 "image_url"
    (Filepath.Join Local.imageDir (Filename imageFile)) = Ok u ->
  Local.auto_increment w <= INT_MAX ->
  Local.albums w !! Local.auto_increment w = None ->
  fst (Local.POST_albums env req w)
  = Local.JSON StatusOK
      (Local.H_created (Local.auto_increment w)
         (Filepath.Join Local.imageDir (Filename imageFile))).
Proof.
  intros Hf Hm Ho Hc Hcp He Hu Hmax Hfree.
  unfold Local.POST_albums, Local.saveImageLocally, Local.db_insert.
  rewrite Hf, Hm, Ho, Hc, Hcp, Marshal_document, He.
  cbn [Local.log_call Local.with_fs Local.albums Local.auto_increment
       Local.db_log Local.sql_strict Local.dirs Local.files].
  rewrite Hu.
  destruct (Z.ltb_spec INT_MAX (Local.auto_increment w)); [lia|].
  rewrite bool_decide_eq_false_2; [reflexivity|].
  rewrite Hfree. intros [x Hx]. discriminate.
Qed.

(** C1 (as amended).  When creation answers 200 with a key, a lookup of
    that key which the database answers returns the album under that key
    with, in the remote variant, the artist, title and year submitted as
    [profile[artist]], [profile[title]] and [profile[year]], provided
    artist and title have at most 255 bytes and year at most 10; and, in
    the local variant, the artist, title and year submitted as [artist],
    [title] and [year] coerced to valid UTF-8, which are the submitted
    strings themselves when these are valid UTF-8 (the empty string is). *)
Theorem create_then_get :
  (forall (env env' : Remote.Env) (req : Request) (w w' : Remote.World)
          (resp : Remote.Response),
      Remote.newAlbum env req w = (resp, w') ->
      Remote.Status resp = StatusOK ->
      (String.length (PostForm req "profile[artist]") <= 255)%nat ->
      (String.length (PostForm req "profile[title]") <= 255)%nat ->
      (String.length (PostForm req "profile[year]") <= 10)%nat ->
      exists id imageSize : Z,
        resp = Remote.JSON StatusOK (Remote.H_created id imageSize)
        /\ forall idStr : string,
             Atoi idStr = Ok id ->
             Remote.QueryRow_err env' = None ->
             exists a : Remote.Album,
               fst (Remote.getAlbumByKey env' idStr w')
               = Remote.JSON StatusOK (Remote.AlbumBody a)
               /\ Remote.ID a = id
               /\ Remote.Artist a = PostForm req "profile[artist]"
               /\ Remote.Title a = PostForm req "profile[title]"
               /\ Remote.Year a = PostForm req "profile[year]")
  /\
  (forall (env env' : Local.Env) (req : Request) (w w' : Local.World)
          (resp : Local.Response),
      Local.POST_albums env req w = (resp, w') ->
      Local.Status resp = StatusOK ->
      exists (id : Z) (imagePath : string),
        resp = Local.JSON StatusOK (Local.H_created id imagePath)
        /\ forall albumID : string,
             Local.id_of_param env' albumID = Some id ->
             Local.QueryRow_err env' = None ->
             exists a : Local.AlbumInfo,
               fst (Local.GET_album env' albumID w')
               = Local.JSON StatusOK (Local.InfoBody a)
               /\ Local.AlbumID a = id
               /\ Local.Metadata a
                  = {| Json.Artist := Utf8.coerce (PostForm req "artist");
                       Json.Title := Utf8.coerce (PostForm req "title");
                       Json.Year := Utf8.coerce (PostForm req "year") |}
               /\ (Utf8.ValidString (PostForm req "artist") = true ->
                   Utf8.ValidString (PostForm req "title") = true ->
                   Utf8.ValidString (PostForm req "year") = true ->
                   Local.Metadata a
                   = {| Json.Artist := PostForm req "artist";
                        Json.Title := PostForm req "title";
                        Json.Year := PostForm req "year" |})).
Proof.
  split.
  - intros env env' req w w' resp H S Ha Ht Hy.
    destruct (newAlbum_OK env req w w' resp H S)
      as (id & size & url & row & Hr & Hm & Halb & _).
    exists id, size. split; [exact Hr|].
    intros idStr Hid Hq.
    destruct (make_row_fits _ _ _ _ _ _ Hm Ha Ht Hy) as (Ea & Et & Ey).
    exists (Remote.scan_into Remote.zero_Album id row).
    rewrite (getAlbumByKey_row env' w' idStr id row Hid Hq).
    + cbn. auto.
    + rewrite Halb. apply lookup_insert_eq.
  - intros env env' req w w' resp H S.
    destruct (POST_albums_OK env req w w' resp H S)
      as (id & path & u & doc & Hr & Hm & Halb & _).
    exists id, path. split; [exact Hr|].
    intros albumID Hid Hq.
    rewrite Marshal_document in Hm. injection Hm as <-.
    cbn [Json.Artist Json.Title Json.Year] in Halb.
    eexists.
    rewrite (GET_album_document env' albumID w' id u
               (PostForm req "artist") (PostForm req "title")
               (PostForm req "year") Hq Hid).
    2:{ rewrite Halb. apply lookup_insert_eq. }
    cbn. repeat split.
    intros Va Vt Vy. now rewrite !coerce_valid.
Qed.

Lemma create_then_get_witness :
  (exists a : Remote.Album,
      fst (Remote.getAlbumByKey (Samples.remote_env true) "1"
             (snd (Remote.newAlbum (Samples.remote_env true)
                     Samples.remote_upload Samples.remote_world)))
      = Remote.JSON StatusOK (Remote.AlbumBody a)
      /\ Remote.ID a = 1
      /\ Remote.Artist a = "Boards"
      /\ Remote.Title a = "Music Has..."
      /\ Remote.Year a = "1998")
  /\
  (exists a : Local.AlbumInfo,
      fst (Local.GET_album Samples.local_env "1"
             (snd (Local.POST_albums Samples.local_env Samples.plain_upload
                     Samples.local_world)))
      = Local.JSON StatusOK (Local.InfoBody a)
      /\ Local.AlbumID a = 1
      /\ Local.Metadata a
         = {| Json.Artist := "Boards"; Json.Title := "Music Has...";
              Json.Year := "1998" |}).
Proof.
  split.
  - destruct (proj1 create_then_get (Samples.remote_env true)
                (Samples.remote_env true) Samples.remote_upload
                Samples.remote_world _ _ (surjective_pairing _) eq_refl)
      as (id & size & Hr & Hget); [cbn; lia | cbn; lia | cbn; lia |].
    injection Hr as <- <-.
    apply (Hget "1"); reflexivity.
  - destruct (proj2 create_then_get Samples.local_env Samples.local_env
                Samples.plain_upload Samples.local_world _ _
                (surjective_pairing _) eq_refl)
      as (id & path & Hr & Hget).
    injection Hr as <- <-.
    destruct (Hget "1" eq_refl eq_refl) as (a & Ha & Hid & _ & Hv).
    exists a. split; [exact Ha|]. split; [exact Hid|].
    apply Hv; reflexivity.
Defined.

(** C1, as stated, fails.  In the remote variant a year of eleven
    characters does not come back: a strict server refuses the INSERT and
    creation answers 500, a server that is not strict cuts the year to the
    ten characters of the column.  In the local variant an artist that is
    not valid UTF-8 comes back as U+FFFD. *)
Lemma create_then_get_counterexample :
  PostForm Samples.long_year_upload "profile[year]" = "12345678901"
  /\ Remote.Status
       (fst (Remote.newAlbum (Samples.remote_env true)
               Samples.long_year_upload Samples.remote_world))
     = StatusInternalServerError
  /\ fst (Remote.newAlbum (Samples.remote_env false) Samples.long_year_upload
            Samples.remote_world)
     = Remote.JSON StatusOK (Remote.H_created 1 4)
  /\ fst (Remote.getAlbumByKey (Samples.remote_env false) "1"
            (snd (Remote.newAlbum (Samples.remote_env false)
                    Samples.long_year_upload Samples.remote_world)))
     = Remote.JSON StatusOK
         (Remote.AlbumBody
            {| Remote.ID := 1;
               Remote.ImageURL :=
                 "https://albums-bucket.s3.amazonaws.com/images/6ba7b810-9dad-11d1-80b4-00c04fd430c8.jpg";
               Remote.Artist := "Boards"; Remote.Title := "Music Has...";
               Remote.Year := "1234567890"; Remote.ImageSize := 0 |})
  /\ PostForm Samples.raw_byte_upload "artist" = String (chr 255) ""
  /\ fst (Local.POST_albums Samples.local_env Samples.raw_byte_upload
            Samples.local_world)
     = Local.JSON StatusOK (Local.H_created 1 "images/cover.jpg")
  /\ fst (Local.GET_album Samples.local_env "1"
            (snd (Local.POST_albums Samples.local_env Samples.raw_byte_upload
                    Samples.local_world)))
     = Local.JSON StatusOK
         (Local.InfoBody
            {| Local.AlbumID := 1; Local.ImageURL := "images/cover.jpg";
               Local.Metadata :=
                 {| Json.Artist :=
                      String (chr 239) (String (chr 191) (String (chr 189) ""));
                    Json.Title := ""; Json.Year := "1998" |} |}).
Proof. repeat split. Qed.

(** * Further properties of the handlers *)

(** X1.  An upload without an [image] part is answered with 400 and the
    message [Invalid image file], whatever else the request holds and
    whatever would fail or succeed around it; nothing is written and the
    database is not called.  Remote variant first, local variant second. *)
Theorem missing_image_rejected :
  (forall (env : Remote.Env) (req : Request) (w : Remote.World),
      assoc "image" (form_files req) = None ->
      Remote.newAlbum env req w
      = (Remote.JSON StatusBadRequest (Remote.H_error "Invalid image file"),
         w))
  /\
  (forall (env : Local.Env) (req : Request) (w : Local.World),
      assoc "image" (form_files req) = None ->
      Local.POST_albums env req w
      = (Local.JSON StatusBadRequest (Local.H_error "Invalid image file"), w)).
Proof.
  split; intros env req w H.
  - unfold Remote.newAlbum, FormFile. now rewrite H.
  - unfold Local.POST_albums, FormFile. now rewrite H.
Qed.

Lemma missing_image_rejected_witness :
  Remote.newAlbum Samples.remote_env_no_bucket Samples.no_image_upload
    Samples.remote_world
  = (Remote.JSON StatusBadRequest (Remote.H_error "Invalid image file"),
     Samples.remote_world)
  /\ Local.POST_albums Samples.local_env_disk_full Samples.no_image_upload
       Samples.local_world
     = (Local.JSON StatusBadRequest (Local.H_error "Invalid image file"),
        Samples.local_world).
Proof.
  split.
  - apply (proj1 missing_image_rejected). reflexivity.
  - apply (proj2 missing_image_rejected). reflexivity.
Defined.

Lemma uploadToS3_Ok
    (env : Remote.Env) (header : FileHeader) (w w1 : Remote.World)
    (imageURL : string) (imageSize : Z) :
  Remote.uploadToS3 env header w = (Ok (imageURL, imageSize), w1) ->
  let key :=
    "images/" +:+ Remote.uuid_New env +:+ filepath_Ext (Filename header) in
  imageURL = "https://" +:+ Remote.bucket env +:+ ".s3.amazonaws.com/" +:+ key
  /\ imageSize = Z.of_nat (String.length (Content header))
  /\ Remote.albums w1 = Remote.albums w
  /\ Remote.auto_increment w1 = Remote.auto_increment w
  /\ Remote.db_log w1 = Remote.db_log w
  /\ Remote.objects w1
     = <[(Remote.bucket env, key) :=
           {| Remote.Body := Content header;
              Remote.ObjContentType := ContentType header;
              Remote.ACL := "public-read" |}]> (Remote.objects w).
Proof.
  unfold Remote.uploadToS3.
  destruct (Remote.TempFile_err env); [discriminate|].
  destruct (Remote.Copy_err env); [discriminate|].
  destruct (Remote.PutObject_err env); [discriminate|].
  intros H. injection H as <- <- <-. cbn. auto 10.
Qed.

Lemma remote_db_insert_Err
    (env : Remote.Env) (imageURL artist title year e : string)
    (w w' : Remote.World) :
  Remote.db_insert env imageURL artist title year w = (Err e, w') ->
  w' = Remote.log_call
         (Remote.Exec Remote.insert_sql [imageURL; artist; title; year]) w.
Proof.
  unfold Remote.db_insert.
  destruct (Remote.Exec_err env); [congruence|].
  destruct (Remote.make_row _ _ _ _ _); [|congruence].
  destruct (_ || _); [congruence | discriminate].
Qed.

Lemma local_db_insert_Err
    (env : Local.Env) (imagePath metadataJSON e : string)
    (w w' : Local.World) :
  Local.db_insert env imagePath metadataJSON w = (Err e, w') ->
  w' = Local.log_call
         (Local.Exec Local.insert_sql [imagePath; metadataJSON]) w.
Proof.
  unfold Local.db_insert.
  destruct (Local.Exec_err env); [congruence|].
  destruct (varchar _ _ _ _); [|congruence].
  destruct (_ || _); [congruence | discriminate].
Qed.

(** X2.  When the image was stored and the INSERT then fails, the handler
    answers 500 with the text of the database error, the table and the next
    key are as they were, and the image stays where it was put: in the
    bucket under its key (remote), in the file at its path (local).
    Nothing removes it. *)
Theorem insert_failure_leaves_blob :
  (forall (env : Remote.Env) (req : Request) (w w1 w2 : Remote.World)
          (header : FileHeader) (imageURL e : string) (imageSize : Z),
      FormFile req "image" = Ok header ->
      Remote.uploadToS3 env header w = (Ok (imageURL, imageSize), w1) ->
      Remote.db_insert env imageURL (PostForm req "profile[artist]")
        (PostForm req "profile[title]") (PostForm req "profile[year]") w1
      = (Err e, w2) ->
      Remote.newAlbum env req w
      = (Remote.JSON StatusInternalServerError (Remote.H_error e), w2)
      /\ Remote.albums w2 = Remote.albums w
      /\ Remote.auto_increment w2 = Remote.auto_increment w
      /\ Remote.objects w2
         !! (Remote.bucket env,
             "images/" +:+ Remote.uuid_New env
             +:+ filepath_Ext (Filename header))
         = Some {| Remote.Body := Content header;
                   Remote.ObjContentType := ContentType header;
                   Remote.ACL := "public-read" |})
  /\
  (forall (env : Local.Env) (req : Request) (w w1 w2 : Local.World)
          (imageFile : FileHeader) (imagePath e : string),
      FormFile req "image" = Ok imageFile ->
      Local.saveImageLocally env imageFile w = (Ok imagePath, w1) ->
      Local.db_insert env imagePath
        (document (PostForm req "artist") (PostForm req "title")
           (PostForm req "year")) w1
      = (Err e, w2) ->
      Local.POST_albums env req w
      = (Local.JSON StatusInternalServerError (Local.H_error e), w2)
      /\ Local.albums w2 = Local.albums w
      /\ Local.auto_increment w2 = Local.auto_increment w
      /\ Local.files w2 !! imagePath = Some (Content imageFile)).
Proof.
  split.
  - intros env req w w1 w2 header imageURL e imageSize Hf Hu Hi.
    unfold Remote.newAlbum. rewrite Hf, Hu, Hi. split; [reflexivity|].
    apply remote_db_insert_Err in Hi. subst w2.
    destruct (uploadToS3_Ok _ _ _ _ _ _ Hu) as (_ & _ & Ha & Hn & _ & Ho).
    cbn. rewrite Ha, Hn, Ho, lookup_insert_eq. auto.
  - intros env req w w1 w2 imageFile imagePath e Hf Hs Hi.
    unfold Local.POST_albums. rewrite Hf, Hs, Marshal_document.
    cbn [Json.Artist Json.Title Json.Year]. rewrite Hi.
    split; [reflexivity|].
    apply local_db_insert_Err in Hi. subst w2.
    pose proof (saveImageLocally_db env imageFile w) as D.
    rewrite Hs in D. cbn in D. destruct D as (Ha & Hn & _).
    destruct (saveImageLocally_Ok _ _ _ _ _ Hs) as (_ & _ & Hfs).
    cbn. rewrite Ha, Hn, Hfs, lookup_insert_eq. auto.
Qed.

Lemma insert_failure_leaves_blob_witness :
  (let '(resp, w2) :=
     Remote.newAlbum Samples.remote_env_db_down Samples.remote_upload
       Samples.remote_world in
   resp = Remote.JSON StatusInternalServerError
            (Remote.H_error "connection refused")
   /\ Remote.albums w2 = Remote.albums Samples.remote_world
   /\ Remote.objects w2
      !! ("albums-bucket",
          "images/6ba7b810-9dad-11d1-80b4-00c04fd430c8.jpg")
      = Some {| Remote.Body := "JFIF";
                Remote.ObjContentType := "image/jpeg";
                Remote.ACL := "public-read" |})
  /\
  (let '(resp, w2) :=
     Local.POST_albums Samples.local_env_db_down Samples.plain_upload
       Samples.local_world in
   resp = Local.JSON StatusInternalServerError
            (Local.H_error "connection refused")
   /\ Local.albums w2 = Local.albums Samples.local_world
   /\ Local.files w2 !! "images/cover.jpg" = Some "JFIF").
Proof.
  split.
  - destruct (proj1 insert_failure_leaves_blob Samples.remote_env_db_down
                Samples.remote_upload Samples.remote_world _ _ Samples.cover
                _ "connection refused" _ eq_refl eq_refl eq_refl)
      as (H & Ha & _ & Ho).
    rewrite H. auto.
  - destruct (proj2 insert_failure_leaves_blob Samples.local_env_db_down
                Samples.plain_upload Samples.local_world _ _ Samples.cover
                _ "connection refused" eq_refl eq_refl eq_refl)
      as (H & Ha & _ & Ho).
    rewrite H. auto.
Defined.

(** The answer of a lookup depends on the world through the table only. *)
Lemma getAlbumByKey_table
    (env : Remote.Env) (idStr : string) (w1 w2 : Remote.World) :
  Remote.albums w1 = Remote.albums w2 ->
  fst (Remote.getAlbumByKey env idStr w1)
  = fst (Remote.getAlbumByKey env idStr w2).
Proof.
  intros H. unfold Remote.getAlbumByKey, Remote.db_select.
  destruct (Atoi idStr) as [id|e]; [|reflexivity].
  destruct (Remote.QueryRow_err env); [reflexivity|].
  cbn [Remote.log_call Remote.albums]. rewrite H.
  destruct (Remote.albums w2 !! id); reflexivity.
Qed.

Lemma GET_album_table
    (env : Local.Env) (albumID : string) (w1 w2 : Local.World) :
  Local.albums w1 = Local.albums w2 ->
  fst (Local.GET_album env albumID w1) = fst (Local.GET_album env albumID w2).
Proof.
  intros H. unfold Local.GET_album, Local.db_select.
  destruct (Local.QueryRow_err env); [reflexivity|].
  destruct (Local.id_of_param env albumID) as [id|]; [|reflexivity].
  cbn [Local.log_call Local.albums]. rewrite H.
  destruct (Local.albums w2 !! id) as [r|]; [|reflexivity].
  destruct (Json.Unmarshal _ _); reflexivity.
Qed.

Lemma getAlbumByKey_world
    (env : Remote.Env) (idStr : string) (w : Remote.World) :
  let w' := snd (Remote.getAlbumByKey env idStr w) in
  Remote.albums w' = Remote.albums w
  /\ Remote.auto_increment w' = Remote.auto_increment w
  /\ Remote.objects w' = Remote.objects w.
Proof.
  unfold Remote.getAlbumByKey, Remote.db_select.
  destruct (Atoi idStr) as [id|e]; [|now cbn].
  destruct (Remote.QueryRow_err env); [now cbn|].
  cbn [Remote.log_call Remote.albums].
  destruct (Remote.albums w !! id); now cbn.
Qed.

Lemma GET_album_world
    (env : Local.Env) (albumID : string) (w : Local.World) :
  let w' := snd (Local.GET_album env albumID w) in
  Local.albums w' = Local.albums w
  /\ Local.auto_increment w' = Local.auto_increment w
  /\ Local.dirs w' = Local.dirs w
  /\ Local.files w' = Local.files w.
Proof.
  unfold Local.GET_album, Local.db_select.
  destruct (Local.QueryRow_err env); [now cbn|].
  destruct (Local.id_of_param env albumID) as [id|]; [|now cbn].
  cbn [Local.log_call Local.albums].
  destruct (Local.albums w !! id) as [r|]; [|now cbn].
  destruct (Json.Unmarshal _ _); now cbn.
Qed.

(** X3.  A lookup reads only: whatever it answers, the table, the next key
    and the stored images are as before, and so a lookup made after it is
    answered as if it had not been made.  Remote variant first, local
    variant second. *)
Theorem lookup_reads_only :
  (forall (env env2 : Remote.Env) (idStr idStr2 : string) (w : Remote.World),
      let w' := snd (Remote.getAlbumByKey env idStr w) in
      Remote.albums w' = Remote.albums w
      /\ Remote.auto_increment w' = Remote.auto_increment w
      /\ Remote.objects w' = Remote.objects w
      /\ fst (Remote.getAlbumByKey env2 idStr2 w')
         = fst (Remote.getAlbumByKey env2 idStr2 w))
  /\
  (forall (env env2 : Local.Env) (albumID albumID2 : string)
          (w : Local.World),
      let w' := snd (Local.GET_album env albumID w) in
      Local.albums w' = Local.albums w
      /\ Local.auto_increment w' = Local.auto_increment w
      /\ Local.dirs w' = Local.dirs w
      /\ Local.files w' = Local.files w
      /\ fst (Local.GET_album env2 albumID2 w')
         = fst (Local.GET_album env2 albumID2 w)).
Proof.
  split.
  - intros env env2 idStr idStr2 w.
    destruct (getAlbumByKey_world env idStr w) as (Ha & Hn & Ho).
    cbn zeta. repeat split; try assumption.
    now apply getAlbumByKey_table.
  - intros env env2 albumID albumID2 w.
    destruct (GET_album_world env albumID w) as (Ha & Hn & Hd & Hf).
    cbn zeta. repeat split; try assumption.
    now apply GET_album_table.
Qed.

(** The table after the INSERT: as before when it fails, one more row
    under a key that was free when it succeeds. *)
Lemma remote_db_insert_table
    (env : Remote.Env) (imageURL artist title year : string)
    (w : Remote.World) :
  match Remote.db_insert env imageURL artist title year w with
  | (Err _, w') =>
      Remote.albums w' = Remote.albums w
      /\ Remote.auto_increment w' = Remote.auto_increment w
  | (Ok id, w') =>
      exists row : Remote.Row,
        Remote.albums w !! id = None
        /\ Remote.albums w' = <[id := row]> (Remote.albums w)
  end.
Proof.
  unfold Remote.db_insert.
  destruct (Remote.Exec_err env); [now cbn|].
  destruct (Remote.make_row _ _ _ _ _) as [row|e]; [|now cbn].
  cbn [Remote.log_call Remote.albums Remote.auto_increment Remote.db_log
       Remote.objects].
  destruct (INT_MAX <? Remote.auto_increment w); [now cbn|].
  destruct (bool_decide (is_Some (Remote.albums w !! Remote.auto_increment w)))
    eqn:B; [now cbn|].
  apply bool_decide_eq_false in B. cbn. exists row. split; [|reflexivity].
  destruct (Remote.albums w !! Remote.auto_increment w) eqn:E;
    [|reflexivity].
  exfalso. apply B. eauto.
Qed.

Lemma local_db_insert_table
    (env : Local.Env) (imagePath metadataJSON : string) (w : Local.World) :
  match Local.db_insert env imagePath metadataJSON w with
  | (Err _, w') =>
      Local.albums w' = Local.albums w
      /\ Local.auto_increment w' = Local.auto_increment w
  | (Ok id, w') =>
      exists row : Local.Row,
        Local.albums w !! id = None
        /\ Local.albums w' = <[id := row]> (Local.albums w)
  end.
Proof.
  unfold Local.db_insert.
  destruct (Local.Exec_err env); [now cbn|].
  destruct (varchar _ _ _ _) as [u|e]; [|now cbn].
  cbn [Local.log_call Local.albums Local.auto_increment Local.db_log].
  destruct (INT_MAX <? Local.auto_increment w); [now cbn|].
  destruct (bool_decide (is_Some (Local.albums w !! Local.auto_increment w)))
    eqn:B; [now cbn|].
  apply bool_decide_eq_false in B. cbn. eexists. split; [|reflexivity].
  destruct (Local.albums w !! Local.auto_increment w) eqn:E; [|reflexivity].
  exfalso. apply B. eauto.
Qed.

(** What creation does to the table, whatever it answers. *)
Lemma newAlbum_table (env : Remote.Env) (req : Request) (w : Remote.World) :
  let '(resp, w') := Remote.newAlbum env req w in
  (Remote.Status resp <> StatusOK
   /\ Remote.albums w' = Remote.albums w
   /\ Remote.auto_increment w' = Remote.auto_increment w)
  \/ (exists (id imageSize : Z) (row : Remote.Row),
         resp = Remote.JSON StatusOK (Remote.H_created id imageSize)
         /\ Remote.albums w !! id = None
         /\ Remote.albums w' = <[id := row]> (Remote.albums w)).
Proof.
  unfold Remote.newAlbum.
  destruct (FormFile req "image") as [header|e].
  2:{ left. repeat split. discriminate. }
  pose proof (uploadToS3_db env header w) as U.
  destruct (Remote.uploadToS3 env header w) as [[[imageURL imageSize]|e] w1];
    cbn in U; destruct U as (Ua & Un & _).
  2:{ left. repeat split; [discriminate | assumption | assumption]. }
  pose proof (remote_db_insert_table env imageURL
                (PostForm req "profile[artist]") (PostForm req "profile[title]")
                (PostForm req "profile[year]") w1) as I.
  destruct (Remote.db_insert env imageURL _ _ _ w1) as [[id|e] w2].
  - right. destruct I as (row & Hfree & Hins).
    exists id, imageSize, row. rewrite <- Ua. auto.
  - left. destruct I as (Ha & Hn).
    repeat split; [discriminate | congruence | congruence].
Qed.

Lemma POST_albums_table (env : Local.Env) (req : Request) (w : Local.World) :
  let '(resp, w') := Local.POST_albums env req w in
  (Local.Status resp <> StatusOK
   /\ Local.albums w' = Local.albums w
   /\ Local.auto_increment w' = Local.auto_increment w)
  \/ (exists (id : Z) (imagePath : string) (row : Local.Row),
         resp = Local.JSON StatusOK (Local.H_created id imagePath)
         /\ Local.albums w !! id = None
         /\ Local.albums w' = <[id := row]> (Local.albums w)).
Proof.
  unfold Local.POST_albums.
  destruct (FormFile req "image") as [imageFile|e].
  2:{ left. repeat split. discriminate. }
  pose proof (saveImageLocally_db env imageFile w) as U.
  destruct (Local.saveImageLocally env imageFile w) as [[imagePath|e] w1];
    cbn in U; destruct U as (Ua & Un & _).
  2:{ left. repeat split; [discriminate | assumption | assumption]. }
  rewrite Marshal_document.
  match goal with
  | |- context [Local.db_insert env imagePath ?d w1] =>
      pose proof (local_db_insert_table env imagePath d w1) as I;
      destruct (Local.db_insert env imagePath d w1) as [[id|e] w2]
  end.
  - right. destruct I as (row & Hfree & Hins).
    exists id, imagePath, row. rewrite <- Ua. auto.
  - left. destruct I as (Ha & Hn).
    repeat split; [discriminate | congruence | congruence].
Qed.

(** X4.  Creation changes the table only when it answers 200: with any
    other answer the rows and the next key are as before; with 200 exactly
    one row is added, under the returned key, which was free, and every
    row that was there is still there unchanged.  Remote variant first,
    local variant second. *)
Theorem creation_and_table :
  (forall (env : Remote.Env) (req : Request) (w w' : Remote.World)
          (resp : Remote.Response),
      Remote.newAlbum env req w = (resp, w') ->
      (Remote.Status resp <> StatusOK ->
       Remote.albums w' = Remote.albums w
       /\ Remote.auto_increment w' = Remote.auto_increment w)
      /\ (Remote.Status resp = StatusOK ->
          exists (id imageSize : Z) (row : Remote.Row),
            resp = Remote.JSON StatusOK (Remote.H_created id imageSize)
            /\ Remote.albums w !! id = None
            /\ Remote.albums w' = <[id := row]> (Remote.albums w))
      /\ (forall (k : Z) (r : Remote.Row),
             Remote.albums w !! k = Some r -> Remote.albums w' !! k = Some r))
  /\
  (forall (env : Local.Env) (req : Request) (w w' : Local.World)
          (resp : Local.Response),
      Local.POST_albums env req w = (resp, w') ->
      (Local.Status resp <> StatusOK ->
       Local.albums w' = Local.albums w
       /\ Local.auto_increment w' = Local.auto_increment w)
      /\ (Local.Status resp = StatusOK ->
          exists (id : Z) (imagePath : string) (row : Local.Row),
            resp = Local.JSON StatusOK (Local.H_created id imagePath)
            /\ Local.albums w !! id = None
            /\ Local.albums w' = <[id := row]> (Local.albums w))
      /\ (forall (k : Z) (r : Local.Row),
             Local.albums w !! k = Some r -> Local.albums w' !! k = Some r)).
Proof.
  split.
  - intros env req w w' resp H.
    pose proof (newAlbum_table env req w) as T. rewrite H in T.
    destruct T as [(Hs & Ha & Hn) | (id & size & row & -> & Hfree & Hins)].
    + split; [auto|]. split; [intros S; contradiction|].
      intros k r. now rewrite Ha.
    + split; [intros S; now contradiction S|]. split; [eauto 6|].
      intros k r Hk. rewrite Hins, lookup_insert_ne; [exact Hk|].
      intros ->. congruence.
  - intros env req w w' resp H.
    pose proof (POST_albums_table env req w) as T. rewrite H in T.
    destruct T as [(Hs & Ha & Hn) | (id & path & row & -> & Hfree & Hins)].
    + split; [auto|]. split; [intros S; contradiction|].
      intros k r. now rewrite Ha.
    + split; [intros S; now contradiction S|]. split; [eauto 6|].
      intros k r Hk. rewrite Hins, lookup_insert_ne; [exact Hk|].
      intros ->. congruence.
Qed.

Lemma creation_and_table_witness :
  (exists (id imageSize : Z) (row : Remote.Row),
      fst (Remote.newAlbum (Samples.remote_env true) Samples.remote_upload
             Samples.remote_world)
      = Remote.JSON StatusOK (Remote.H_created id imageSize)
      /\ Remote.albums Samples.remote_world !! id = None
      /\ Remote.albums
           (snd (Remote.newAlbum (Samples.remote_env true)
                   Samples.remote_upload Samples.remote_world))
         = <[id := row]> (Remote.albums Samples.remote_world))
  /\ Local.albums
       (snd (Local.POST_albums Samples.local_env_db_down Samples.plain_upload
               Samples.local_world))
     = Local.albums Samples.local_world.
Proof.
  split.
  - apply (proj1 creation_and_table (Samples.remote_env true)
             Samples.remote_upload Samples.remote_world _ _
             (surjective_pairing _)).
    reflexivity.
  - apply (proj2 creation_and_table Samples.local_env_db_down
             Samples.plain_upload Samples.local_world _ _
             (surjective_pairing _)).
    discriminate.
Defined.

Lemma getAlbumByKey_row_only
    (env : Remote.Env) (idStr : string) (id : Z) (w1 w2 : Remote.World) :
  Atoi idStr = Ok id ->
  Remote.albums w1 !! id = Remote.albums w2 !! id ->
  fst (Remote.getAlbumByKey env idStr w1)
  = fst (Remote.getAlbumByKey env idStr w2).
Proof.
  intros Hid H. unfold Remote.getAlbumByKey, Remote.db_select. rewrite Hid.
  destruct (Remote.QueryRow_err env); [reflexivity|].
  cbn [Remote.log_call Remote.albums]. rewrite H.
  destruct (Remote.albums w2 !! id); reflexivity.
Qed.

Lemma GET_album_row_only
    (env : Local.Env) (albumID : string) (id : Z) (w1 w2 : Local.World) :
  Local.id_of_param env albumID = Some id ->
  Local.albums w1 !! id = Local.albums w2 !! id ->
  fst (Local.GET_album env albumID w1) = fst (Local.GET_album env albumID w2).
Proof.
  intros Hid H. unfold Local.GET_album, Local.db_select.
  destruct (Local.QueryRow_err env); [reflexivity|].
  rewrite Hid. cbn [Local.log_call Local.albums]. rewrite H.
  destruct (Local.albums w2 !! id) as [r|]; [|reflexivity].
  destruct (Json.Unmarshal _ _); reflexivity.
Qed.

(** X5.  A creation, whatever it answers, does not change the answer to
    the lookup of an album that was there before it; and when an album was
    created with key [id1], a later creation that answers 200 returns a
    different key.  Remote variant first, local variant second. *)
Theorem later_creation_keeps_albums :
  (forall (env env' : Remote.Env) (req : Request) (w w' : Remote.World)
          (resp : Remote.Response) (idStr : string) (id1 : Z),
      Remote.newAlbum env req w = (resp, w') ->
      Atoi idStr = Ok id1 ->
      is_Some (Remote.albums w !! id1) ->
      fst (Remote.getAlbumByKey env' idStr w')
      = fst (Remote.getAlbumByKey env' idStr w)
      /\ forall id2 imageSize : Z,
           resp = Remote.JSON StatusOK (Remote.H_created id2 imageSize) ->
           id2 <> id1)
  /\
  (forall (env env' : Local.Env) (req : Request) (w w' : Local.World)
          (resp : Local.Response) (albumID : string) (id1 : Z),
      Local.POST_albums env req w = (resp, w') ->
      Local.id_of_param env' albumID = Some id1 ->
      is_Some (Local.albums w !! id1) ->
      fst (Local.GET_album env' albumID w')
      = fst (Local.GET_album env' albumID w)
      /\ forall (id2 : Z) (imagePath : string),
           resp = Local.JSON StatusOK (Local.H_created id2 imagePath) ->
           id2 <> id1).
Proof.
  split.
  - intros env env' req w w' resp idStr id1 H Hid [r Hr].
    pose proof (newAlbum_table env req w) as T. rewrite H in T.
    destruct T as [(Hs & Ha & _) | (id & size & row & -> & Hfree & Hins)].
    + split.
      * apply (getAlbumByKey_row_only env' idStr id1); [exact Hid|].
        now rewrite Ha.
      * intros id2 size ->. now contradiction Hs.
    + assert (Hne : id <> id1) by (intros ->; congruence).
      split.
      * apply (getAlbumByKey_row_only env' idStr id1); [exact Hid|].
        rewrite Hins. now apply lookup_insert_ne.
      * intros id2 size2 E. injection E as <- _. exact Hne.
  - intros env env' req w w' resp albumID id1 H Hid [r Hr].
    pose proof (POST_albums_table env req w) as T. rewrite H in T.
    destruct T as [(Hs & Ha & _) | (id & path & row & -> & Hfree & Hins)].
    + split.
      * apply (GET_album_row_only env' albumID id1); [exact Hid|].
        now rewrite Ha.
      * intros id2 path ->. now contradiction Hs.
    + assert (Hne : id <> id1) by (intros ->; congruence).
      split.
      * apply (GET_album_row_only env' albumID id1); [exact Hid|].
        rewrite Hins. now apply lookup_insert_ne.
      * intros id2 path2 E. injection E as <- _. exact Hne.
Qed.

Lemma later_creation_keeps_albums_witness :
  fst (Remote.getAlbumByKey (Samples.remote_env true) "1"
         (snd (Remote.newAlbum (Samples.remote_env false)
                 Samples.long_year_upload Samples.remote_world_one)))
  = fst (Remote.getAlbumByKey (Samples.remote_env true) "1"
           Samples.remote_world_one)
  /\ fst (Local.GET_album Samples.local_env "1"
            (snd (Local.POST_albums Samples.local_env
                    Samples.raw_byte_upload Samples.local_world_one)))
     = fst (Local.GET_album Samples.local_env "1" Samples.local_world_one).
Proof.
  split.
  - apply (proj1 later_creation_keeps_albums (Samples.remote_env false)
             (Samples.remote_env true) Samples.long_year_upload
             Samples.remote_world_one _ _ "1" 1 (surjective_pairing _)
             eq_refl).
    eexists. reflexivity.
  - apply (proj2 later_creation_keeps_albums Samples.local_env
             Samples.local_env Samples.raw_byte_upload
             Samples.local_world_one _ _ "1" 1 (surjective_pairing _)
             eq_refl).
    eexists. reflexivity.
Defined.

Lemma make_row_image_url
    (strict : bool) (imageURL artist title year : string) (row : Remote.Row) :
  Remote.make_row strict imageURL artist title year = Ok row ->
  (String.length imageURL <= 255)%nat ->
  Remote.image_url row = imageURL.
Proof.
  unfold Remote.make_row. intros H Hu.
  rewrite (varchar_fits _ _ _ _ Hu) in H.
  destruct (varchar strict 255 "artist" artist); [|discriminate].
  destruct (varchar strict 255 "title" title); [|discriminate].
  destruct (varchar strict 10 "year" year); [|discriminate].
  now injection H as <-.
Qed.

(** X6.  After a creation that answered 200, the stored reference leads to
    the stored image.  Remote: the answer carries the number of bytes of
    the upload; the bucket holds the upload, with its content type and
    publicly readable, under the key [images/<uuid><ext>]; and, when the
    URL of that key has at most 255 bytes, the lookup of the returned id
    gives that URL.  Local: the answer carries the path of the file, the
    file holds the upload, and, when the path has at most 255 bytes, the
    lookup of the returned id gives that path. *)
Theorem stored_reference_resolves :
  (forall (env env' : Remote.Env) (req : Request) (w w' : Remote.World)
          (header : FileHeader) (id imageSize : Z) (idStr : string),
      FormFile req "image" = Ok header ->
      Remote.newAlbum env req w
      = (Remote.JSON StatusOK (Remote.H_created id imageSize), w') ->
      let key :=
        "images/" +:+ Remote.uuid_New env
        +:+ filepath_Ext (Filename header) in
      let url :=
        "https://" +:+ Remote.bucket env +:+ ".s3.amazonaws.com/" +:+ key in
      imageSize = Z.of_nat (String.length (Content header))
      /\ Remote.objects w' !! (Remote.bucket env, key)
         = Some {| Remote.Body := Content header;
                   Remote.ObjContentType := ContentType header;
                   Remote.ACL := "public-read" |}
      /\ ((String.length url <= 255)%nat ->
          Atoi idStr = Ok id ->
          Remote.QueryRow_err env' = None ->
          exists a : Remote.Album,
            fst (Remote.getAlbumByKey env' idStr w')
            = Remote.JSON StatusOK (Remote.AlbumBody a)
            /\ Remote.ImageURL a = url))
  /\
  (forall (env env' : Local.Env) (req : Request) (w w' : Local.World)
          (imageFile : FileHeader) (id : Z) (imagePath albumID : string),
      FormFile req "image" = Ok imageFile ->
      Local.POST_albums env req w
      = (Local.JSON StatusOK (Local.H_created id imagePath), w') ->
      imagePath = Filepath.Join Local.imageDir (Filename imageFile)
      /\ Local.files w' !! imagePath = Some (Content imageFile)
      /\ ((String.length imagePath <= 255)%nat ->
          Local.id_of_param env' albumID = Some id ->
          Local.QueryRow_err env' = None ->
          exists a : Local.AlbumInfo,
            fst (Local.GET_album env' albumID w')
            = Local.JSON StatusOK (Local.InfoBody a)
            /\ Local.ImageURL a = imagePath)).
Proof.
  split.
  - intros env env' req w w' header id imageSize idStr Hf H key url.
    unfold Remote.newAlbum in H. rewrite Hf in H.
    destruct (Remote.uploadToS3 env header w)
      as [[[imageURL size]|e] w1] eqn:U; [|discriminate].
    destruct (Remote.db_insert env imageURL _ _ _ w1)
      as [[id'|e] w2] eqn:I; [|discriminate].
    injection H as <- <- <-.
    destruct (uploadToS3_Ok _ _ _ _ _ _ U) as (Hurl & Hsz & _ & _ & _ & Ho).
    destruct (remote_db_insert_Ok _ _ _ _ _ _ _ _ I) as (row & Hrow & Ha & _).
    fold key in Hurl, Ho. fold url in Hurl. subst imageURL.
    split; [exact Hsz|]. split.
    + unfold Remote.db_insert in I.
      destruct (Remote.Exec_err env); [discriminate|].
      rewrite Hrow in I.
      cbn [Remote.log_call Remote.albums Remote.auto_increment
           Remote.db_log Remote.objects] in I.
      destruct (_ || _); [discriminate|].
      injection I as _ <-. cbn. rewrite Ho. apply lookup_insert_eq.
    + intros Hlen Hid Hq.
      exists (Remote.scan_into Remote.zero_Album id' row).
      rewrite (getAlbumByKey_row env' w2 idStr id' row Hid Hq).
      * split; [reflexivity|]. cbn.
        now apply (make_row_image_url _ _ _ _ _ _ Hrow).
      * rewrite Ha. apply lookup_insert_eq.
  - intros env env' req w w' imageFile id imagePath albumID Hf H.
    unfold Local.POST_albums in H. rewrite Hf, Marshal_document in H.
    destruct (Local.saveImageLocally env imageFile w)
      as [[path|e] w1] eqn:S; [|discriminate].
    cbn [Json.Artist Json.Title Json.Year] in H.
    destruct (Local.db_insert env path _ w1) as [[id'|e] w2] eqn:I;
      [|discriminate].
    injection H as <- <- <-.
    destruct (saveImageLocally_Ok _ _ _ _ _ S) as (Hp & _ & Hfs).
    destruct (local_db_insert_Ok _ _ _ _ _ _ I) as (u & Hu & Ha & _).
    split; [exact Hp|]. split.
    + unfold Local.db_insert in I.
      destruct (Local.Exec_err env); [discriminate|].
      rewrite Hu in I.
      cbn [Local.log_call Local.albums Local.auto_increment Local.db_log
           Local.files Local.dirs] in I.
      destruct (_ || _); [discriminate|].
      injection I as _ <-. cbn. rewrite Hfs. apply lookup_insert_eq.
    + intros Hlen Hid Hq.
      rewrite (varchar_fits _ _ _ _ Hlen) in Hu. injection Hu as <-.
      eexists.
      rewrite (GET_album_document env' albumID w2 id' path
                 (PostForm req "artist") (PostForm req "title")
                 (PostForm req "year") Hq Hid).
      * split; reflexivity.
      * rewrite Ha. apply lookup_insert_eq.
Qed.

Lemma stored_reference_resolves_witness :
  Remote.objects Samples.remote_world_one
  !! ("albums-bucket", "images/6ba7b810-9dad-11d1-80b4-00c04fd430c8.jpg")
  = Some {| Remote.Body := "JFIF"; Remote.ObjContentType := "image/jpeg";
            Remote.ACL := "public-read" |}
  /\ (exists a : Remote.Album,
         fst (Remote.getAlbumByKey (Samples.remote_env true) "1"
                Samples.remote_world_one)
         = Remote.JSON StatusOK (Remote.AlbumBody a)
         /\ Remote.ImageURL a
            = "https://albums-bucket.s3.amazonaws.com/images/6ba7b810-9dad-11d1-80b4-00c04fd430c8.jpg")
  /\ Local.files Samples.local_world_one !! "images/cover.jpg" = Some "JFIF"
  /\ (exists a : Local.AlbumInfo,
         fst (Local.GET_album Samples.local_env "1" Samples.local_world_one)
         = Local.JSON StatusOK (Local.InfoBody a)
         /\ Local.ImageURL a = "images/cover.jpg").
Proof.
  destruct (proj1 stored_reference_resolves (Samples.remote_env true)
              (Samples.remote_env true) Samples.remote_upload
              Samples.remote_world Samples.remote_world_one Samples.cover
              1 4 "1" eq_refl eq_refl) as (_ & Ho & Hg).
  destruct (proj2 stored_reference_resolves Samples.local_env
              Samples.local_env Samples.plain_upload Samples.local_world
              Samples.local_world_one Samples.cover 1 "images/cover.jpg" "1"
              eq_refl eq_refl) as (_ & Hf & Hl).
  split; [exact Ho|]. split.
  - apply Hg; [vm_compute; lia | reflexivity | reflexivity].
  - split; [exact Hf|].
    apply Hl; [vm_compute; lia | reflexivity | reflexivity].
Defined.

(** * Further properties of the identifier *)

Lemma is_digit_not_sign (c : ascii) :
  is_digit c = true -> Ascii.eqb c "-" || Ascii.eqb c "+" = false.
Proof.
  unfold is_digit. intros H. apply andb_prop in H as [H1 H2]. bool_to_Z.
  destruct (Ascii.eqb_spec c "-") as [->|_];
    [vm_compute in H1; congruence|].
  destruct (Ascii.eqb_spec c "+") as [->|_];
    [vm_compute in H1; congruence|].
  reflexivity.
Qed.

Lemma Atoi_unsigned (s : string) :
  all_digits s = true -> s <> "" ->
  Atoi s = match parse_digits 0 s with
           | Some un => if un <? 2 ^ 63 then Ok un else Err ErrRange
           | None => Err ErrSyntax
           end.
Proof.
  intros Hd Hne. destruct s as [|c r]; [congruence|].
  cbn [all_digits] in Hd. apply andb_prop in Hd as [Hc _].
  pose proof (is_digit_not_sign c Hc) as Hs.
  unfold Atoi. rewrite Hs.
  apply orb_false_elim in Hs as [-> _].
  reflexivity.
Qed.

Lemma getAlbumByKey_same_key
    (env : Remote.Env) (w : Remote.World) (s s' : string) :
  Atoi s = Atoi s' ->
  Remote.getAlbumByKey env s w = Remote.getAlbumByKey env s' w.
Proof. intros H. unfold Remote.getAlbumByKey. now rewrite H. Qed.

(** X7.  The remote lookup goes by the number, not by its spelling: a
    leading zero or a plus sign before a run of digits changes neither the
    answer nor the query that is made. *)
Theorem identifier_spelling
    (env : Remote.Env) (w : Remote.World) (s : string) :
  all_digits s = true -> s <> "" ->
  Remote.getAlbumByKey env (String "0" s) w = Remote.getAlbumByKey env s w
  /\ Remote.getAlbumByKey env (String "+" s) w
     = Remote.getAlbumByKey env s w.
Proof.
  intros Hd Hne. split; apply getAlbumByKey_same_key.
  - rewrite (Atoi_unsigned s Hd Hne).
    rewrite (Atoi_unsigned (String "0" s)); [reflexivity| |discriminate].
    cbn [all_digits]. now rewrite Hd.
  - rewrite (Atoi_unsigned s Hd Hne).
    destruct s as [|c r]; [congruence|]. reflexivity.
Qed.

Lemma identifier_spelling_witness :
  Remote.getAlbumByKey (Samples.remote_env true) "01" Samples.remote_world_one
  = Remote.getAlbumByKey (Samples.remote_env true) "1"
      Samples.remote_world_one
  /\ Remote.getAlbumByKey (Samples.remote_env true) "+1"
       Samples.remote_world_one
     = Remote.getAlbumByKey (Samples.remote_env true) "1"
         Samples.remote_world_one.
Proof.
  apply (identifier_spelling (Samples.remote_env true)
           Samples.remote_world_one "1"); [reflexivity | discriminate].
Defined.

Lemma code_digit (c : ascii) : is_digit c = true -> 0 <= code c - 48 <= 9.
Proof.
  unfold is_digit. intros H. apply andb_prop in H as [H1 H2].
  bool_to_Z. lia.
Qed.

(** The value of a run of digits read after [acc]. *)
Lemma parse_digits_value (s : string) :
  forall acc : Z,
    all_digits s = true ->
    exists v : Z,
      parse_digits acc s
      = Some (acc * 10 ^ Z.of_nat (String.length s) + v)
      /\ 0 <= v < 10 ^ Z.of_nat (String.length s).
Proof.
  induction s as [|c r IH]; intros acc H.
  - exists 0. cbn. split; [f_equal; lia | lia].
  - cbn [all_digits] in H. apply andb_prop in H as [Hc Hr].
    cbn [parse_digits String.length]. rewrite Hc.
    destruct (IH (acc * 10 + (code c - 48)) Hr) as (v & -> & Hv).
    pose proof (code_digit c Hc) as Hd.
    rewrite Nat2Z.inj_succ, Z.pow_succ_r by lia.
    set (p := 10 ^ Z.of_nat (String.length r)) in *.
    exists ((code c - 48) * p + v). split; [f_equal; lia | nia].
Qed.

Lemma Atoi_range (s : string) (n : Z) :
  Atoi s = Ok n -> - 2 ^ 63 <= n < 2 ^ 63.
Proof.
  unfold Atoi. destruct s as [|c r]; [discriminate|].
  destruct (if Ascii.eqb c "-" || Ascii.eqb c "+" then r else String c r)
    as [|c' r'] eqn:B; [discriminate|].
  destruct (parse_digits 0 (String c' r')) as [un|] eqn:P; [|discriminate].
  assert (Hun : 0 <= un).
  { destruct (all_digits (String c' r')) eqn:D.
    - destruct (parse_digits_value _ 0 D) as (v & E & Hv).
      rewrite P in E. injection E as ->. lia.
    - rewrite (parse_digits_not_all_digits _ 0 D) in P. discriminate. }
  destruct (Ascii.eqb c "-").
  - destruct (Z.leb_spec un (2 ^ 63)) as [Hle|_]; [|discriminate].
    intros E. injection E as <-. lia.
  - destruct (Z.ltb_spec un (2 ^ 63)) as [Hlt|_]; [|discriminate].
    intros E. injection E as <-. lia.
Qed.

(** X8.  The remote lookup queries the database only with keys of the
    64-bit range: whenever the answer is not 400, exactly one query was
    made, with the key the identifier parses to, and that key lies between
    [-2^63] and [2^63 - 1].  A run of twenty or more digits that does not
    start with a zero is refused with 400, numeric as it is, and no query
    is made. *)
Theorem identifier_range
    (env : Remote.Env) (w : Remote.World) (idStr : string) :
  (Remote.Status (fst (Remote.getAlbumByKey env idStr w)) <> StatusBadRequest ->
   exists id : Z,
     Atoi idStr = Ok id
     /\ - 2 ^ 63 <= id < 2 ^ 63
     /\ Remote.db_log (snd (Remote.getAlbumByKey env idStr w))
        = Remote.db_log w ++ [Remote.QueryRow Remote.select_sql id])
  /\ (all_digits idStr = true ->
      (20 <= String.length idStr)%nat ->
      String.get 0 idStr <> Some "0"%char ->
      Remote.getAlbumByKey env idStr w
      = (Remote.JSON StatusBadRequest (Remote.H_error "Invalid album ID"),
         w)).
Proof.
  split.
  - intros S. destruct (Atoi idStr) as [id|e] eqn:E.
    + exists id. split; [reflexivity|]. split; [exact (Atoi_range idStr id E)|].
      exact (proj1 (getAlbumByKey_queries env w idStr id E)).
    + rewrite (getAlbumByKey_malformed env w idStr e E) in S.
      now contradiction S.
  - intros Hd Hlen Hz.
    apply getAlbumByKey_malformed with (e := ErrRange).
    destruct idStr as [|c r]; [cbn in Hlen; lia|].
    rewrite Atoi_unsigned by (assumption || discriminate).
    cbn [all_digits] in Hd. apply andb_prop in Hd as [Hc Hr].
    cbn [parse_digits]. rewrite Hc.
    destruct (parse_digits_value r (0 * 10 + (code c - 48)) Hr)
      as (v & -> & Hv).
    pose proof (code_digit c Hc) as Hdig.
    assert (Hnz : code c <> 48).
    { intros E. assert (c = "0"%char) as ->.
      { rewrite <- (chr_code c), E. reflexivity. }
      now apply Hz. }
    cbn [String.length] in Hlen.
    assert (Hpow : 10 ^ 19 <= 10 ^ Z.of_nat (String.length r)).
    { apply Z.pow_le_mono_r; lia. }
    destruct (Z.ltb_spec ((0 * 10 + (code c - 48))
                          * 10 ^ Z.of_nat (String.length r) + v) (2 ^ 63));
      [|reflexivity].
    exfalso.
    assert (H63 : 2 ^ 63 < 10 ^ 19) by reflexivity.
    nia.
Qed.

Lemma identifier_range_witness :
  (exists id : Z,
      Atoi "-1" = Ok id
      /\ - 2 ^ 63 <= id < 2 ^ 63
      /\ Remote.db_log
           (snd (Remote.getAlbumByKey (Samples.remote_env true) "-1"
                   Samples.remote_world))
         = Remote.db_log Samples.remote_world
           ++ [Remote.QueryRow Remote.select_sql id])
  /\ Remote.getAlbumByKey (Samples.remote_env true) "10000000000000000000"
       Samples.remote_world
     = (Remote.JSON StatusBadRequest (Remote.H_error "Invalid album ID"),
        Samples.remote_world).
Proof.
  destruct (identifier_range (Samples.remote_env true) Samples.remote_world
              "-1") as [H _].
  destruct (identifier_range (Samples.remote_env true) Samples.remote_world
              "10000000000000000000") as [_ H'].
  split.
  - apply H. discriminate.
  - apply H'; [reflexivity | vm_compute; lia | discriminate].
Defined.

(** * Further properties of the blob stores *)

(** X9.  How [saveImageLocally] fails, and what it leaves behind.  When
    the directory cannot be made, nothing changes.  When the upload cannot
    be opened or the file cannot be created, the directory is in place and
    the files are as before.  When the copy fails, the file was already
    created: whatever a file of that name held before is gone, the file
    holds the bytes that were written, and nothing removes it.  The error
    names the step and carries the text of the underlying error, and the
    local handler passes it on in its 500 answer. *)
Theorem save_failure_states
    (env : Local.Env) (req : Request) (imageFile : FileHeader)
    (w : Local.World) :
  FormFile req "image" = Ok imageFile ->
  let path := Filepath.Join Local.imageDir (Filename imageFile) in
  let '(resp, w') := Local.POST_albums env req w in
  match Local.MkdirAll_err env, Local.Open_err env, Local.Create_err env,
        Local.Copy_err env with
  | Some e, _, _, _ =>
      resp = Local.JSON StatusInternalServerError
               (Local.H_error ("failed to create image directory: " +:+ e))
      /\ w' = w
  | None, Some e, _, _ =>
      resp = Local.JSON StatusInternalServerError
               (Local.H_error ("failed to open uploaded image: " +:+ e))
      /\ Local.files w' = Local.files w
      /\ Local.imageDir ∈ Local.dirs w'
  | None, None, Some e, _ =>
      resp = Local.JSON StatusInternalServerError
               (Local.H_error ("failed to save image: " +:+ e))
      /\ Local.files w' = Local.files w
      /\ Local.imageDir ∈ Local.dirs w'
  | None, None, None, Some e =>
      resp = Local.JSON StatusInternalServerError
               (Local.H_error ("failed to write image file: " +:+ e))
      /\ Local.files w' !! path
         = Some (substring 0 (Local.Copy_written env) (Content imageFile))
      /\ (forall p : string, p <> path ->
            Local.files w' !! p = Local.files w !! p)
  | None, None, None, None =>
      Local.files w' !! path = Some (Content imageFile)
  end.
Proof.
  intros Hf path. unfold Local.POST_albums, Local.saveImageLocally.
  rewrite Hf. fold path.
  destruct (Local.MkdirAll_err env) as [e|]; [now split|].
  destruct (Local.Open_err env) as [e|].
  { cbn. split; [reflexivity|]. split; [reflexivity|].
    apply elem_of_union_l, elem_of_singleton. reflexivity. }
  destruct (Local.Create_err env) as [e|].
  { cbn. split; [reflexivity|]. split; [reflexivity|].
    apply elem_of_union_l, elem_of_singleton. reflexivity. }
  destruct (Local.Copy_err env) as [e|].
  { cbn. split; [reflexivity|]. split; [apply lookup_insert_eq|].
    intros p Hp. now rewrite !lookup_insert_ne by congruence. }
  rewrite Marshal_document.
  match goal with
  | |- context [Local.db_insert env path ?d ?w1] =>
      pose proof (local_db_insert_table env path d w1) as I;
      assert (F : Local.files (snd (Local.db_insert env path d w1))
                  = Local.files w1);
      [|destruct (Local.db_insert env path d w1) as [[id|e'] w2]]
  end.
  { unfold Local.db_insert.
    destruct (Local.Exec_err env); [reflexivity|].
    destruct (varchar _ _ _ _); [|reflexivity].
    destruct (_ || _); reflexivity. }
  - cbn in F |- *. rewrite F. cbn. apply lookup_insert_eq.
  - cbn in F |- *. rewrite F. cbn. apply lookup_insert_eq.
Qed.

Lemma save_failure_states_witness :
  let '(resp, w') :=
    Local.POST_albums Samples.local_env_disk_full Samples.replacing_upload
      Samples.local_world_one in
  resp = Local.JSON StatusInternalServerError
           (Local.H_error
              "failed to write image file: no space left on device")
  /\ Local.files Samples.local_world_one !! "images/cover.jpg" = Some "JFIF"
  /\ Local.files w' !! "images/cover.jpg" = Some "PN".
Proof.
  pose proof (save_failure_states Samples.local_env_disk_full
                Samples.replacing_upload Samples.other_cover
                Samples.local_world_one eq_refl) as H.
  cbn zeta in H.
  destruct (Local.POST_albums Samples.local_env_disk_full
              Samples.replacing_upload Samples.local_world_one)
    as [resp w'].
  cbn [Local.MkdirAll_err Local.Open_err Local.Create_err Local.Copy_err
       Samples.local_env_disk_full] in H.
  destruct H as (Hr & Hfile & _).
  split; [exact Hr|]. split; [reflexivity | exact Hfile].
Defined.

(** X10.  Whichever step of [uploadToS3] fails (the temporary file, the
    copy, the put), the remote handler answers 500 with the fixed message
    [Failed to upload image to S3], which does not carry the text of the
    underlying error, and the whole world, the bucket included, is as it
    was. *)
Theorem upload_failure_message
    (env : Remote.Env) (req : Request) (header : FileHeader)
    (w : Remote.World) :
  FormFile req "image" = Ok header ->
  Remote.TempFile_err env <> None \/ Remote.Copy_err env <> None
  \/ Remote.PutObject_err env <> None ->
  Remote.newAlbum env req w
  = (Remote.JSON StatusInternalServerError
       (Remote.H_error "Failed to upload image to S3"), w).
Proof.
  intros Hf H. unfold Remote.newAlbum, Remote.uploadToS3. rewrite Hf.
  destruct (Remote.TempFile_err env); [reflexivity|].
  destruct (Remote.Copy_err env); [reflexivity|].
  destruct (Remote.PutObject_err env); [reflexivity|].
  destruct H as [H | [H | H]]; now contradiction H.
Qed.

Lemma upload_failure_message_witness :
  Remote.newAlbum Samples.remote_env_no_bucket Samples.remote_upload
    Samples.remote_world
  = (Remote.JSON StatusInternalServerError
       (Remote.H_error "Failed to upload image to S3"), Samples.remote_world).
Proof.
  apply (upload_failure_message Samples.remote_env_no_bucket
           Samples.remote_upload Samples.cover Samples.remote_world eq_refl).
  right. right. discriminate.
Defined.

Lemma no_sep_app (a b : string) :
  no_sep (a +:+ b) = no_sep a && no_sep b.
Proof.
  induction a as [|c a IH]; [reflexivity|].
  cbn [String.append no_sep]. rewrite IH. now rewrite andb_assoc.
Qed.

(** The extension, when there is one, is a dot and bytes without
    separator. *)
Lemma ext_from_shape (s : string) :
  forall cur : string,
    (cur = "" \/ exists t, cur = String "." (t +:+ s) /\ no_sep t = true) ->
    ext_from cur s = ""
    \/ exists t, ext_from cur s = String "." t /\ no_sep t = true.
Proof.
  induction s as [|c r IH]; intros cur Hcur; cbn [ext_from].
  - destruct Hcur as [-> | (t & -> & Ht)]; [now left|].
    right. exists t. now rewrite append_empty_r.
  - destruct (is_sep c) eqn:Hsep; [apply IH; now left|].
    destruct (Ascii.eqb_spec c ".") as [->|Hdot].
    + apply IH. right. exists "". split; reflexivity.
    + apply IH. destruct Hcur as [-> | (t & -> & Ht)]; [now left|].
      right. exists (t +:+ String c ""). split.
      * now rewrite append_assoc.
      * rewrite no_sep_app, Ht. cbn. now rewrite Hsep.
Qed.

Lemma filepath_Ext_shape (name : string) :
  filepath_Ext name = ""
  \/ exists t, filepath_Ext name = String "." t /\ no_sep t = true.
Proof. apply ext_from_shape. now left. Qed.

(** X11.  Whatever the name of the uploaded file, the object is put
    directly under [images/]: the part of the key after [images/] holds no
    path separator, provided the UUID holds none.  The name of the file
    reaches the key only through its extension, which is empty or a dot
    followed by bytes without separator. *)
Theorem object_key_flat
    (env : Remote.Env) (header : FileHeader) (w w' : Remote.World)
    (imageURL : string) (imageSize : Z) :
  Remote.uploadToS3 env header w = (Ok (imageURL, imageSize), w') ->
  no_sep (Remote.uuid_New env) = true ->
  exists tail : string,
    imageURL = "https://" +:+ Remote.bucket env +:+ ".s3.amazonaws.com/"
               +:+ "images/" +:+ tail
    /\ no_sep tail = true
    /\ is_Some (Remote.objects w' !! (Remote.bucket env, "images/" +:+ tail))
    /\ forall header2 : FileHeader,
         filepath_Ext (Filename header2) = filepath_Ext (Filename header) ->
         fst (Remote.uploadToS3 env header2 w)
         = Ok (imageURL, Z.of_nat (String.length (Content header2))).
Proof.
  intros H Hu.
  destruct (uploadToS3_Ok _ _ _ _ _ _ H) as (Hurl & _ & _ & _ & _ & Ho).
  exists (Remote.uuid_New env +:+ filepath_Ext (Filename header)).
  split; [exact Hurl|]. split.
  - rewrite no_sep_app, Hu.
    destruct (filepath_Ext_shape (Filename header)) as [-> | (t & -> & Ht)];
      [reflexivity|].
    cbn. exact Ht.
  - split.
    + rewrite Ho, lookup_insert_eq. eauto.
    + intros header2 He. unfold Remote.uploadToS3 in *.
      destruct (Remote.TempFile_err env); [discriminate|].
      destruct (Remote.Copy_err env); [discriminate|].
      destruct (Remote.PutObject_err env); [discriminate|].
      cbn. rewrite He. now subst imageURL.
Qed.

Lemma object_key_flat_witness :
  exists tail : string,
    fst (Remote.uploadToS3 (Samples.remote_env true) Samples.nested_name
           Samples.remote_world)
    = Ok ("https://albums-bucket.s3.amazonaws.com/images/" +:+ tail, 4)
    /\ no_sep tail = true.
Proof.
  destruct (object_key_flat (Samples.remote_env true) Samples.nested_name
              Samples.remote_world _ _ _ (surjective_pairing _) eq_refl)
    as (tail & Hurl & Hsep & _).
  exists tail. split; [|exact Hsep].
  cbn in Hurl |- *. now rewrite <- Hurl.
Defined.






(** * Further properties of the metadata document *)

Lemma skip_space_blank (sp t : string) :
  blank sp = true -> Json.skip_space (sp +:+ t) = Json.skip_space t.
Proof.
  induction sp as [|c r IH]; intros H; [reflexivity|].
  cbn [blank] in H. apply andb_prop in H as [Hc Hr].
  rewrite append_cons. cbn [Json.skip_space]. rewrite Hc. now apply IH.
Qed.

Lemma parse_value_blank_string (fuel : nat) (sp s rest : string) :
  blank sp = true ->
  Json.parse_value (S fuel)
    (sp +:+ String Json.quote
              (Json.encode_chars s +:+ String Json.quote rest))
  = Some (Json.Str (Utf8.coerce s), rest).
Proof.
  intros Hsp. rewrite <- (parse_value_string fuel s rest).
  rewrite !parse_value_S, skip_space_blank by assumption. reflexivity.
Qed.

Lemma member_text_app (sp : string) (kv : string * string) (t : string) :
  member_text sp kv +:+ t
  = String Json.quote (Json.encode_chars (fst kv) +:+ String Json.quote
      (String ":" (sp +:+ String Json.quote
         (Json.encode_chars (snd kv) +:+ String Json.quote t)))).
Proof.
  unfold member_text.
  rewrite !append_assoc, !appendString_app. reflexivity.
Qed.

(** One member, then what follows it. *)
Lemma parse_members_member
    (fuel : nat) (sp : string) (kv : string * string) (t : string) :
  blank sp = true ->
  Json.parse_members (S (S fuel)) (member_text sp kv +:+ t)
  = match Json.skip_space t with
    | String c r =>
        if code c =? 44 then
          match Json.parse_members (S fuel) r with
          | Some (ms, rest) => Some (read_member kv :: ms, rest)
          | None => None
          end
        else if code c =? 125 then Some ([read_member kv], r)
        else None
    | EmptyString => None
    end.
Proof.
  intros Hsp. rewrite member_text_app.
  rewrite parse_members_S, skip_space_cons by reflexivity.
  change (code Json.quote) with 34.
  cbv beta iota zeta delta [Z.eqb Pos.eqb].
  rewrite unquote_encode_chars, skip_space_cons by reflexivity.
  change (code ":") with 58.
  cbv beta iota zeta delta [Z.eqb Pos.eqb].
  rewrite parse_value_blank_string by assumption.
  reflexivity.
Qed.

Lemma parse_members_text (sp : string) (ms : list (string * string)) :
  blank sp = true -> ms <> [] ->
  forall (fuel : nat) (rest : string),
    (length ms < fuel)%nat ->
    Json.parse_members fuel (members_text sp ms +:+ String "}" rest)
    = Some (map read_member ms, rest).
Proof.
  intros Hsp. induction ms as [|kv ms IH]; intros Hne fuel rest Hf;
    [congruence|].
  destruct fuel as [|[|fuel]]; cbn [length] in Hf; try lia.
  destruct ms as [|kv' ms'].
  - cbn [members_text]. rewrite parse_members_member by assumption.
    reflexivity.
  - change (members_text sp (kv :: kv' :: ms'))
      with (member_text sp kv +:+ "," +:+ sp
            +:+ members_text sp (kv' :: ms')).
    rewrite !append_assoc, parse_members_member by assumption.
    rewrite append_cons, append_empty_l.
    rewrite skip_space_cons by reflexivity.
    change (code ",") with 44. cbv beta iota zeta delta [Z.eqb Pos.eqb].
    assert (E : Json.parse_members (S fuel)
                  (sp +:+ members_text sp (kv' :: ms') +:+ String "}" rest)
                = Json.parse_members (S fuel)
                    (members_text sp (kv' :: ms') +:+ String "}" rest)).
    { rewrite !parse_members_S, skip_space_blank by assumption.
      reflexivity. }
    rewrite E, IH; [reflexivity | discriminate | cbn [length] in *; lia].
Qed.

Lemma length_append (a b : string) :
  String.length (a +:+ b) = (String.length a + String.length b)%nat.
Proof.
  induction a as [|c a IH]; [reflexivity|].
  rewrite append_cons. cbn [String.length]. now rewrite IH.
Qed.

Lemma length_members_text (sp : string) (ms : list (string * string)) :
  (length ms <= String.length (members_text sp ms))%nat.
Proof.
  induction ms as [|kv ms IH]; [cbn; lia|].
  assert (M : (1 <= String.length (member_text sp kv))%nat).
  { unfold member_text, Json.appendString. rewrite append_cons.
    cbn [String.length]. lia. }
  destruct ms as [|kv' ms']; [cbn [members_text length]; lia|].
  change (members_text sp (kv :: kv' :: ms'))
    with (member_text sp kv +:+ "," +:+ sp +:+ members_text sp (kv' :: ms')).
  rewrite !length_append. cbn [length] in *. lia.
Qed.

Lemma parse_object_text (sp : string) (ms : list (string * string)) :
  blank sp = true -> ms <> [] ->
  Json.parse (object_text sp ms) = Some (Json.Object (map read_member ms)).
Proof.
  intros Hsp Hne. unfold Json.parse, object_text.
  rewrite append_cons, append_empty_l.
  rewrite parse_value_S, skip_space_cons by reflexivity.
  change (code "{") with 123. cbv beta iota zeta delta [Z.eqb Pos.eqb].
  assert (Hq : exists r, members_text sp ms +:+ "}"
                         = String Json.quote r).
  { destruct ms as [|kv [|kv' ms']]; [congruence| |].
    - cbn [members_text]. rewrite member_text_app. eauto.
    - change (members_text sp (kv :: kv' :: ms'))
        with (member_text sp kv +:+ "," +:+ sp
              +:+ members_text sp (kv' :: ms')).
      rewrite member_text_app. eauto. }
  destruct Hq as [r Hq]. rewrite Hq.
  rewrite skip_space_cons by reflexivity.
  change (code Json.quote) with 34. cbv beta iota zeta delta [Z.eqb Pos.eqb].
  rewrite <- Hq.
  rewrite parse_members_text; [reflexivity | assumption | assumption |].
  cbn [String.length]. rewrite length_append.
  pose proof (length_members_text sp ms). cbn [String.length]. lia.
Qed.

(** X13.  The metadata is read back whatever order the engine returns the
    three members in and whatever blank space it puts after colons and
    commas: for every arrangement of the members [artist], [title] and
    [year] and every run [sp] of blanks, [json.Unmarshal] gives the three
    strings (coerced to valid UTF-8), and the lookup of a row holding such
    a document answers 200 with them. *)
Theorem metadata_order_and_spacing
    (sp a t y : string) (ms : list (string * string))
    (m0 : Json.AlbumMetadata) :
  blank sp = true ->
  ms ≡ₚ [("artist", a); ("title", t); ("year", y)] ->
  Json.Unmarshal (object_text sp ms) m0
  = Ok {| Json.Artist := Utf8.coerce a; Json.Title := Utf8.coerce t;
          Json.Year := Utf8.coerce y |}
  /\ forall (env : Local.Env) (w : Local.World) (albumID u : string)
            (id : Z),
       Local.QueryRow_err env = None ->
       Local.id_of_param env albumID = Some id ->
       Local.albums w !! id
       = Some {| Local.image_url := u;
                 Local.metadata := object_text sp ms |} ->
       fst (Local.GET_album env albumID w)
       = Local.JSON StatusOK
           (Local.InfoBody
              {| Local.AlbumID := id; Local.ImageURL := u;
                 Local.Metadata :=
                   {| Json.Artist := Utf8.coerce a;
                      Json.Title := Utf8.coerce t;
                      Json.Year := Utf8.coerce y |} |}).
Proof.
  intros Hsp Hperm.
  assert (U : forall m, Json.Unmarshal (object_text sp ms) m
              = Ok {| Json.Artist := Utf8.coerce a;
                      Json.Title := Utf8.coerce t;
                      Json.Year := Utf8.coerce y |}).
  { intros m. unfold Json.Unmarshal.
    symmetry in Hperm. apply permutations_Permutation in Hperm.
    cbn in Hperm.
    rewrite !elem_of_cons in Hperm.
    destruct Hperm as [-> | [-> | [-> | [-> | [-> | [-> | H]]]]]];
      try (rewrite parse_object_text by (assumption || discriminate);
           reflexivity).
    now apply elem_of_nil in H. }
  split; [apply U|].
  intros env w albumID u id Hq Hid Hrow.
  unfold Local.GET_album, Local.db_select. rewrite Hq, Hid.
  cbn [Local.log_call Local.albums]. rewrite Hrow.
  cbn [Local.metadata Local.image_url]. now rewrite U.
Qed.

Lemma metadata_order_and_spacing_witness :
  Json.Unmarshal
    (object_text " " [("year", "1998"); ("title", "Music Has...");
                      ("artist", "Boards")])
    (Local.Metadata Local.zero_AlbumInfo)
  = Ok {| Json.Artist := "Boards"; Json.Title := "Music Has...";
          Json.Year := "1998" |}.
Proof.
  refine (proj1 (metadata_order_and_spacing " " "Boards" "Music Has..."
                   "1998" _ _ eq_refl _)).
  exact (perm_trans
           (perm_swap ("title", "Music Has...") ("year", "1998")
              [("artist", "Boards")])
           (perm_trans
              (perm_skip ("title", "Music Has...")
                 (perm_swap ("artist", "Boards") ("year", "1998") []))
              (perm_swap ("artist", "Boards") ("title", "Music Has...")
                 [("year", "1998")]))).
Defined.

(** * Startup *)




(** * Further properties of the local path *)





(** * What creation reads of the request *)

(** X16.  Creation reads of the request the first file named [image] and
    the first value of each of its three field names, and nothing else:
    two requests that agree on these get the same answer and leave the
    same world.  Remote variant first, local variant second. *)
Theorem creation_reads_three_fields :
  (forall (env : Remote.Env) (req req' : Request) (w : Remote.World),
      assoc "image" (form_files req) = assoc "image" (form_files req') ->
      assoc "profile[artist]" (form_values req)
      = assoc "profile[artist]" (form_values req') ->
      assoc "profile[title]" (form_values req)
      = assoc "profile[title]" (form_values req') ->
      assoc "profile[year]" (form_values req)
      = assoc "profile[year]" (form_values req') ->
      Remote.newAlbum env req w = Remote.newAlbum env req' w)
  /\
  (forall (env : Local.Env) (req req' : Request) (w : Local.World),
      assoc "image" (form_files req) = assoc "image" (form_files req') ->
      assoc "artist" (form_values req) = assoc "artist" (form_values req') ->
      assoc "title" (form_values req) = assoc "title" (form_values req') ->
      assoc "year" (form_values req) = assoc "year" (form_values req') ->
      Local.POST_albums env req w = Local.POST_albums env req' w).
Proof.
  split; intros env req req' w Hf Ha Ht Hy.
  - unfold Remote.newAlbum, FormFile, PostForm. now rewrite Hf, Ha, Ht, Hy.
  - unfold Local.POST_albums, FormFile, PostForm. now rewrite Hf, Ha, Ht, Hy.
Qed.

Lemma creation_reads_three_fields_witness :
  Remote.newAlbum (Samples.remote_env true) Samples.crowded_upload
    Samples.remote_world
  = Remote.newAlbum (Samples.remote_env true) Samples.remote_upload
      Samples.remote_world
  /\ Local.POST_albums Samples.local_env Samples.crowded_upload
       Samples.local_world
     = Local.POST_albums Samples.local_env Samples.no_fields_upload
         Samples.local_world.
Proof.
  split.
  - apply (proj1 creation_reads_three_fields); reflexivity.
  - apply (proj2 creation_reads_three_fields); reflexivity.
Defined.

Lemma append_inj_length (a a' b b' : string) :
  String.length a = String.length a' ->
  a +:+ b = a' +:+ b' -> a = a'.
Proof.
  revert a'. induction a as [|c a IH]; intros [|c' a'] Hl H;
    try discriminate; [reflexivity|].
  rewrite !append_cons in H. injection H as -> H.
  injection Hl as Hl. f_equal. now apply IH.
Qed.

(** X17.  In the remote variant a later upload does not replace an earlier
    one, even under the same file name: when the two UUIDs drawn differ
    (and have the same length, as UUIDs have), the keys differ and, after
    the second upload, the bucket still holds the first image under the
    first key and holds the second under the second. *)
Theorem uploads_do_not_collide
    (env1 env2 : Remote.Env) (header1 header2 : FileHeader)
    (w w1 w2 : Remote.World) (url1 url2 : string) (size1 size2 : Z) :
  Remote.uploadToS3 env1 header1 w = (Ok (url1, size1), w1) ->
  Remote.uploadToS3 env2 header2 w1 = (Ok (url2, size2), w2) ->
  String.length (Remote.uuid_New env1) = String.length (Remote.uuid_New env2) ->
  Remote.uuid_New env1 <> Remote.uuid_New env2 ->
  let key1 :=
    "images/" +:+ Remote.uuid_New env1 +:+ filepath_Ext (Filename header1) in
  let key2 :=
    "images/" +:+ Remote.uuid_New env2 +:+ filepath_Ext (Filename header2) in
  key1 <> key2
  /\ Remote.objects w2 !! (Remote.bucket env1, key1)
     = Some {| Remote.Body := Content header1;
               Remote.ObjContentType := ContentType header1;
               Remote.ACL := "public-read" |}
  /\ Remote.objects w2 !! (Remote.bucket env2, key2)
     = Some {| Remote.Body := Content header2;
               Remote.ObjContentType := ContentType header2;
               Remote.ACL := "public-read" |}.
Proof.
  intros H1 H2 Hlen Hne key1 key2.
  destruct (uploadToS3_Ok _ _ _ _ _ _ H1) as (_ & _ & _ & _ & _ & Ho1).
  destruct (uploadToS3_Ok _ _ _ _ _ _ H2) as (_ & _ & _ & _ & _ & Ho2).
  fold key1 in Ho1. fold key2 in Ho2.
  assert (Hk : key1 <> key2).
  { unfold key1, key2. intros E. apply Hne.
    rewrite !append_cons, append_empty_l in E.
    injection E as E.
    now apply (append_inj_length _ _ _ _ Hlen E). }
  split; [exact Hk|]. split.
  - rewrite Ho2, lookup_insert_ne by congruence.
    rewrite Ho1. apply lookup_insert_eq.
  - rewrite Ho2. apply lookup_insert_eq.
Qed.

Lemma uploads_do_not_collide_witness :
  Remote.objects
    (snd (Remote.uploadToS3 Samples.remote_env_second Samples.other_cover
            (snd (Remote.uploadToS3 (Samples.remote_env true) Samples.cover
                    Samples.remote_world))))
  !! ("albums-bucket", "images/6ba7b810-9dad-11d1-80b4-00c04fd430c8.jpg")
  = Some {| Remote.Body := "JFIF"; Remote.ObjContentType := "image/jpeg";
            Remote.ACL := "public-read" |}.
Proof.
  refine (proj1 (proj2 (uploads_do_not_collide (Samples.remote_env true)
            Samples.remote_env_second Samples.cover Samples.other_cover
            Samples.remote_world _ _ _ _ _ _ (surjective_pairing _)
            (surjective_pairing _) eq_refl _))).
  discriminate.
Defined.
